(** * wwwaxe: the tree-transformation pipeline

    A shallow embedding of [wwwaxe] (src/index.ts, bundled as
    dist/index.mjs): the passes over the tree that [parseDocument] returns,
    up to the tree handed to [render], the frontmatter block, and the
    passes over the serialized text.

    The DOM of domhandler is a mutable tree with parent and sibling
    pointers.  A pass is modelled by the function from the tree before it
    to the tree after it; where the code removes a node or puts its
    children in its place, the model returns the list of nodes that stands
    at the node's place in its parent's child list.  The link fields the
    chrome stripper writes are modelled where it writes them. *)

From Stdlib Require Import List Bool Arith NArith Lia.
From stdpp Require Import base option list gmap fin_maps countable.
Import ListNotations.

Set Warnings "-register-all".

(** ** Strings *)

(** A string of the program is a JavaScript string: a sequence of UTF-16
    code units.  A code unit is a number below 65536; a character outside
    the Basic Multilingual Plane takes two, a high and a low surrogate. *)
Inductive string : Set :=
| EmptyString
| String (c : N) (r : string).

Declare Scope string_scope.
Delimit Scope string_scope with string.
Bind Scope string_scope with string.

(** Reading and writing literals: the bytes of the source text are UTF-8. *)
Module Literal.

(** [CodePointsToString]: a code point above 65535 is written as a
    surrogate pair. *)
Fixpoint fromCodePoints (l : list N) : string :=
  match l with
  | [] => EmptyString
  | cp :: r =>
      if (cp <? 65536)%N then String cp (fromCodePoints r)
      else
        String (55296 + (cp - 65536) / 1024)%N
          (String (56320 + (cp - 65536) mod 1024)%N (fromCodePoints r))
  end.

Definition is_high_surrogate (c : N) : bool := ((55296 <=? c) && (c <=? 56319))%N.

Definition is_low_surrogate (c : N) : bool := ((56320 <=? c) && (c <=? 57343))%N.

(** [StringToCodePoints]: a high surrogate followed by a low one is one
    code point, any other code unit is a code point by itself. *)
Fixpoint codePoints (s : string) : list N :=
  match s with
  | EmptyString => []
  | String c r =>
      match r with
      | String d r' =>
          if is_high_surrogate c && is_low_surrogate d
          then (65536 + (c - 55296) * 1024 + (d - 56320))%N :: codePoints r'
          else c :: codePoints r
      | EmptyString => [c]
      end
  end.

Definition continuation (b : N) : bool := ((128 <=? b) && (b <=? 191))%N.

Fixpoint decode_utf8 (l : list N) : option (list N) :=
  match l with
  | [] => Some []
  | b :: r =>
      if (b <? 128)%N then option_map (cons b) (decode_utf8 r)
      else
        match r with
        | b1 :: r1 =>
            if ((194 <=? b) && (b <=? 223))%N && continuation b1
            then option_map (cons ((b - 192) * 64 + (b1 - 128))%N) (decode_utf8 r1)
            else
              match r1 with
              | b2 :: r2 =>
                  if ((224 <=? b) && (b <=? 239))%N && continuation b1 && continuation b2
                  then
                    option_map
                      (cons ((b - 224) * 4096 + (b1 - 128) * 64 + (b2 - 128))%N)
                      (decode_utf8 r2)
                  else
                    match r2 with
                    | b3 :: r3 =>
                        if ((240 <=? b) && (b <=? 244))%N && continuation b1
                           && continuation b2 && continuation b3
                        then
                          option_map
                            (cons ((b - 240) * 262144 + (b1 - 128) * 4096
                                   + (b2 - 128) * 64 + (b3 - 128))%N)
                            (decode_utf8 r3)
                        else None
                    | [] => None
                    end
              | [] => None
              end
        | [] => None
        end
  end.

Definition of_bytes (l : list Byte.byte) : option string :=
  option_map fromCodePoints (decode_utf8 (map Byte.to_N l)).

Definition encode_utf8 (cp : N) : list N :=
  if (cp <? 128)%N then [cp]
  else if (cp <? 2048)%N then [192 + cp / 64; 128 + cp mod 64]%N
  else if (cp <? 65536)%N
  then [224 + cp / 4096; 128 + (cp / 64) mod 64; 128 + cp mod 64]%N
  else [240 + cp / 262144; 128 + (cp / 4096) mod 64; 128 + (cp / 64) mod 64;
        128 + cp mod 64]%N.

Definition to_bytes (s : string) : option (list Byte.byte) :=
  let cps := codePoints s in
  if forallb
       (fun cp => (cp <? 1114112)%N && negb ((55296 <=? cp) && (cp <=? 57343))%N) cps
  then
    Some
      (flat_map
         (fun cp =>
            flat_map (fun b => match Byte.of_N b with Some x => [x] | None => [] end)
              (encode_utf8 cp))
         cps)
  else None.

End Literal.

String Notation string Literal.of_bytes Literal.to_bytes : string_scope.
Open Scope string_scope.

(** The case tables of the Unicode Character Database, version 14.0, above
    the ASCII range. *)
Module Unicode.

(** The lower-case mappings: [(first, last, step, target)] maps the code
    points [first], [first + step], ... up to [last] to [target],
    [target + step], ... *)
Definition LOWER : list (N * N * N * N) :=
  [
   (192, 214, 1, 224); (216, 222, 1, 248); (256, 302, 2, 257);
   (306, 310, 2, 307); (313, 327, 2, 314); (330, 374, 2, 331);
   (376, 376, 1, 255); (377, 381, 2, 378); (385, 385, 1, 595);
   (386, 388, 2, 387); (390, 390, 1, 596); (391, 391, 1, 392);
   (393, 394, 1, 598); (395, 395, 1, 396); (398, 398, 1, 477);
   (399, 399, 1, 601); (400, 400, 1, 603); (401, 401, 1, 402);
   (403, 403, 1, 608); (404, 404, 1, 611); (406, 406, 1, 617);
   (407, 407, 1, 616); (408, 408, 1, 409); (412, 412, 1, 623);
   (413, 413, 1, 626); (415, 415, 1, 629); (416, 420, 2, 417);
   (422, 422, 1, 640); (423, 423, 1, 424); (425, 425, 1, 643);
   (428, 428, 1, 429); (430, 430, 1, 648); (431, 431, 1, 432);
   (433, 434, 1, 650); (435, 437, 2, 436); (439, 439, 1, 658);
   (440, 440, 1, 441); (444, 444, 1, 445); (452, 452, 1, 454);
   (453, 453, 1, 454); (455, 455, 1, 457); (456, 456, 1, 457);
   (458, 458, 1, 460); (459, 475, 2, 460); (478, 494, 2, 479);
   (497, 497, 1, 499); (498, 500, 2, 499); (502, 502, 1, 405);
   (503, 503, 1, 447); (504, 542, 2, 505); (544, 544, 1, 414);
   (546, 562, 2, 547); (570, 570, 1, 11365); (571, 571, 1, 572);
   (573, 573, 1, 410); (574, 574, 1, 11366); (577, 577, 1, 578);
   (579, 579, 1, 384); (580, 580, 1, 649); (581, 581, 1, 652);
   (582, 590, 2, 583); (880, 882, 2, 881); (886, 886, 1, 887);
   (895, 895, 1, 1011); (902, 902, 1, 940); (904, 906, 1, 941);
   (908, 908, 1, 972); (910, 911, 1, 973); (913, 929, 1, 945);
   (931, 939, 1, 963); (975, 975, 1, 983); (984, 1006, 2, 985);
   (1012, 1012, 1, 952); (1015, 1015, 1, 1016); (1017, 1017, 1, 1010);
   (1018, 1018, 1, 1019); (1021, 1023, 1, 891); (1024, 1039, 1, 1104);
   (1040, 1071, 1, 1072); (1120, 1152, 2, 1121); (1162, 1214, 2, 1163);
   (1216, 1216, 1, 1231); (1217, 1229, 2, 1218); (1232, 1326, 2, 1233);
   (1329, 1366, 1, 1377); (4256, 4293, 1, 11520); (4295, 4295, 1, 11559);
   (4301, 4301, 1, 11565); (5024, 5103, 1, 43888); (5104, 5109, 1, 5112);
   (7312, 7354, 1, 4304); (7357, 7359, 1, 4349); (7680, 7828, 2, 7681);
   (7838, 7838, 1, 223); (7840, 7934, 2, 7841); (7944, 7951, 1, 7936);
   (7960, 7965, 1, 7952); (7976, 7983, 1, 7968); (7992, 7999, 1, 7984);
   (8008, 8013, 1, 8000); (8025, 8031, 2, 8017); (8040, 8047, 1, 8032);
   (8072, 8079, 1, 8064); (8088, 8095, 1, 8080); (8104, 8111, 1, 8096);
   (8120, 8121, 1, 8112); (8122, 8123, 1, 8048); (8124, 8124, 1, 8115);
   (8136, 8139, 1, 8050); (8140, 8140, 1, 8131); (8152, 8153, 1, 8144);
   (8154, 8155, 1, 8054); (8168, 8169, 1, 8160); (8170, 8171, 1, 8058);
   (8172, 8172, 1, 8165); (8184, 8185, 1, 8056); (8186, 8187, 1, 8060);
   (8188, 8188, 1, 8179); (8486, 8486, 1, 969); (8490, 8490, 1, 107);
   (8491, 8491, 1, 229); (8498, 8498, 1, 8526); (8544, 8559, 1, 8560);
   (8579, 8579, 1, 8580); (9398, 9423, 1, 9424); (11264, 11311, 1, 11312);
   (11360, 11360, 1, 11361); (11362, 11362, 1, 619); (11363, 11363, 1, 7549);
   (11364, 11364, 1, 637); (11367, 11371, 2, 11368); (11373, 11373, 1, 593);
   (11374, 11374, 1, 625); (11375, 11375, 1, 592); (11376, 11376, 1, 594);
   (11378, 11378, 1, 11379); (11381, 11381, 1, 11382); (11390, 11391, 1, 575);
   (11392, 11490, 2, 11393); (11499, 11501, 2, 11500); (11506, 11506, 1, 11507);
   (42560, 42604, 2, 42561); (42624, 42650, 2, 42625); (42786, 42798, 2, 42787);
   (42802, 42862, 2, 42803); (42873, 42875, 2, 42874); (42877, 42877, 1, 7545);
   (42878, 42886, 2, 42879); (42891, 42891, 1, 42892); (42893, 42893, 1, 613);
   (42896, 42898, 2, 42897); (42902, 42920, 2, 42903); (42922, 42922, 1, 614);
   (42923, 42923, 1, 604); (42924, 42924, 1, 609); (42925, 42925, 1, 620);
   (42926, 42926, 1, 618); (42928, 42928, 1, 670); (42929, 42929, 1, 647);
   (42930, 42930, 1, 669); (42931, 42931, 1, 43859); (42932, 42946, 2, 42933);
   (42948, 42948, 1, 42900); (42949, 42949, 1, 642); (42950, 42950, 1, 7566);
   (42951, 42953, 2, 42952); (42960, 42960, 1, 42961); (42966, 42968, 2, 42967);
   (42997, 42997, 1, 42998); (65313, 65338, 1, 65345); (66560, 66599, 1, 66600);
   (66736, 66771, 1, 66776); (66928, 66938, 1, 66967); (66940, 66954, 1, 66979);
   (66956, 66962, 1, 66995); (66964, 66965, 1, 67003); (68736, 68786, 1, 68800);
   (71840, 71871, 1, 71872); (93760, 93791, 1, 93792); (125184, 125217, 1, 125218)
  ]%N.

(** The cased letters that are not case-ignorable, as ranges. *)
Definition CASED : list (N * N) :=
  [
   (170, 170); (181, 181); (186, 186); (192, 214); (216, 246);
   (248, 442); (444, 447); (452, 659); (661, 687); (880, 883);
   (886, 887); (891, 893); (895, 895); (902, 902); (904, 906);
   (908, 908); (910, 929); (931, 1013); (1015, 1153); (1162, 1327);
   (1329, 1366); (1376, 1416); (4256, 4293); (4295, 4295); (4301, 4301);
   (4304, 4346); (4349, 4351); (5024, 5109); (5112, 5117); (7296, 7304);
   (7312, 7354); (7357, 7359); (7424, 7467); (7531, 7543); (7545, 7578);
   (7680, 7957); (7960, 7965); (7968, 8005); (8008, 8013); (8016, 8023);
   (8025, 8025); (8027, 8027); (8029, 8029); (8031, 8061); (8064, 8116);
   (8118, 8124); (8126, 8126); (8130, 8132); (8134, 8140); (8144, 8147);
   (8150, 8155); (8160, 8172); (8178, 8180); (8182, 8188); (8450, 8450);
   (8455, 8455); (8458, 8467); (8469, 8469); (8473, 8477); (8484, 8484);
   (8486, 8486); (8488, 8488); (8490, 8493); (8495, 8500); (8505, 8505);
   (8508, 8511); (8517, 8521); (8526, 8526); (8544, 8575); (8579, 8580);
   (9398, 9449); (11264, 11387); (11390, 11492); (11499, 11502); (11506, 11507);
   (11520, 11557); (11559, 11559); (11565, 11565); (42560, 42605); (42624, 42651);
   (42786, 42863); (42865, 42887); (42891, 42894); (42896, 42954); (42960, 42961);
   (42963, 42963); (42965, 42969); (42997, 42998); (43002, 43002); (43824, 43866);
   (43872, 43880); (43888, 43967); (64256, 64262); (64275, 64279); (65313, 65338);
   (65345, 65370); (66560, 66639); (66736, 66771); (66776, 66811); (66928, 66938);
   (66940, 66954); (66956, 66962); (66964, 66965); (66967, 66977); (66979, 66993);
   (66995, 67001); (67003, 67004); (68736, 68786); (68800, 68850); (71840, 71903);
   (93760, 93823); (119808, 119892); (119894, 119964); (119966, 119967); (119970, 119970);
   (119973, 119974); (119977, 119980); (119982, 119993); (119995, 119995); (119997, 120003);
   (120005, 120069); (120071, 120074); (120077, 120084); (120086, 120092); (120094, 120121);
   (120123, 120126); (120128, 120132); (120134, 120134); (120138, 120144); (120146, 120485);
   (120488, 120512); (120514, 120538); (120540, 120570); (120572, 120596); (120598, 120628);
   (120630, 120654); (120656, 120686); (120688, 120712); (120714, 120744); (120746, 120770);
   (120772, 120779); (122624, 122633); (122635, 122654); (125184, 125251); (127280, 127305);
   (127312, 127337); (127344, 127369)
  ]%N.

(** The case-ignorable characters, as ranges. *)
Definition CASE_IGNORABLE : list (N * N) :=
  [
   (168, 168); (173, 173); (175, 175); (180, 180); (183, 184);
   (688, 879); (884, 885); (890, 890); (900, 901); (903, 903);
   (1155, 1161); (1369, 1369); (1375, 1375); (1425, 1469); (1471, 1471);
   (1473, 1474); (1476, 1477); (1479, 1479); (1524, 1524); (1536, 1541);
   (1552, 1562); (1564, 1564); (1600, 1600); (1611, 1631); (1648, 1648);
   (1750, 1757); (1759, 1768); (1770, 1773); (1807, 1807); (1809, 1809);
   (1840, 1866); (1958, 1968); (2027, 2037); (2042, 2042); (2045, 2045);
   (2070, 2093); (2137, 2139); (2184, 2184); (2192, 2193); (2200, 2207);
   (2249, 2306); (2362, 2362); (2364, 2364); (2369, 2376); (2381, 2381);
   (2385, 2391); (2402, 2403); (2417, 2417); (2433, 2433); (2492, 2492);
   (2497, 2500); (2509, 2509); (2530, 2531); (2558, 2558); (2561, 2562);
   (2620, 2620); (2625, 2626); (2631, 2632); (2635, 2637); (2641, 2641);
   (2672, 2673); (2677, 2677); (2689, 2690); (2748, 2748); (2753, 2757);
   (2759, 2760); (2765, 2765); (2786, 2787); (2810, 2815); (2817, 2817);
   (2876, 2876); (2879, 2879); (2881, 2884); (2893, 2893); (2901, 2902);
   (2914, 2915); (2946, 2946); (3008, 3008); (3021, 3021); (3072, 3072);
   (3076, 3076); (3132, 3132); (3134, 3136); (3142, 3144); (3146, 3149);
   (3157, 3158); (3170, 3171); (3201, 3201); (3260, 3260); (3263, 3263);
   (3270, 3270); (3276, 3277); (3298, 3299); (3328, 3329); (3387, 3388);
   (3393, 3396); (3405, 3405); (3426, 3427); (3457, 3457); (3530, 3530);
   (3538, 3540); (3542, 3542); (3633, 3633); (3636, 3642); (3654, 3662);
   (3761, 3761); (3764, 3772); (3782, 3782); (3784, 3789); (3864, 3865);
   (3893, 3893); (3895, 3895); (3897, 3897); (3953, 3966); (3968, 3972);
   (3974, 3975); (3981, 3991); (3993, 4028); (4038, 4038); (4141, 4144);
   (4146, 4151); (4153, 4154); (4157, 4158); (4184, 4185); (4190, 4192);
   (4209, 4212); (4226, 4226); (4229, 4230); (4237, 4237); (4253, 4253);
   (4348, 4348); (4957, 4959); (5906, 5908); (5938, 5939); (5970, 5971);
   (6002, 6003); (6068, 6069); (6071, 6077); (6086, 6086); (6089, 6099);
   (6103, 6103); (6109, 6109); (6155, 6159); (6211, 6211); (6277, 6278);
   (6313, 6313); (6432, 6434); (6439, 6440); (6450, 6450); (6457, 6459);
   (6679, 6680); (6683, 6683); (6742, 6742); (6744, 6750); (6752, 6752);
   (6754, 6754); (6757, 6764); (6771, 6780); (6783, 6783); (6823, 6823);
   (6832, 6862); (6912, 6915); (6964, 6964); (6966, 6970); (6972, 6972);
   (6978, 6978); (7019, 7027); (7040, 7041); (7074, 7077); (7080, 7081);
   (7083, 7085); (7142, 7142); (7144, 7145); (7149, 7149); (7151, 7153);
   (7212, 7219); (7222, 7223); (7288, 7293); (7376, 7378); (7380, 7392);
   (7394, 7400); (7405, 7405); (7412, 7412); (7416, 7417); (7468, 7530);
   (7544, 7544); (7579, 7679); (8125, 8125); (8127, 8129); (8141, 8143);
   (8157, 8159); (8173, 8175); (8189, 8190); (8203, 8207); (8216, 8217);
   (8228, 8228); (8231, 8231); (8234, 8238); (8288, 8292); (8294, 8303);
   (8305, 8305); (8319, 8319); (8336, 8348); (8400, 8432); (11388, 11389);
   (11503, 11505); (11631, 11631); (11647, 11647); (11744, 11775); (11823, 11823);
   (12293, 12293); (12330, 12333); (12337, 12341); (12347, 12347); (12441, 12446);
   (12540, 12542); (40981, 40981); (42232, 42237); (42508, 42508); (42607, 42610);
   (42612, 42621); (42623, 42623); (42652, 42655); (42736, 42737); (42752, 42785);
   (42864, 42864); (42888, 42890); (42994, 42996); (43000, 43001); (43010, 43010);
   (43014, 43014); (43019, 43019); (43045, 43046); (43052, 43052); (43204, 43205);
   (43232, 43249); (43263, 43263); (43302, 43309); (43335, 43345); (43392, 43394);
   (43443, 43443); (43446, 43449); (43452, 43453); (43471, 43471); (43493, 43494);
   (43561, 43566); (43569, 43570); (43573, 43574); (43587, 43587); (43596, 43596);
   (43632, 43632); (43644, 43644); (43696, 43696); (43698, 43700); (43703, 43704);
   (43710, 43711); (43713, 43713); (43741, 43741); (43756, 43757); (43763, 43764);
   (43766, 43766); (43867, 43871); (43881, 43883); (44005, 44005); (44008, 44008);
   (44013, 44013); (64286, 64286); (64434, 64450); (65024, 65039); (65043, 65043);
   (65056, 65071); (65106, 65106); (65109, 65109); (65279, 65279); (65287, 65287);
   (65294, 65294); (65306, 65306); (65342, 65342); (65344, 65344); (65392, 65392);
   (65438, 65439); (65507, 65507); (65529, 65531); (66045, 66045); (66272, 66272);
   (66422, 66426); (67456, 67461); (67463, 67504); (67506, 67514); (68097, 68099);
   (68101, 68102); (68108, 68111); (68152, 68154); (68159, 68159); (68325, 68326);
   (68900, 68903); (69291, 69292); (69446, 69456); (69506, 69509); (69633, 69633);
   (69688, 69702); (69744, 69744); (69747, 69748); (69759, 69761); (69811, 69814);
   (69817, 69818); (69821, 69821); (69826, 69826); (69837, 69837); (69888, 69890);
   (69927, 69931); (69933, 69940); (70003, 70003); (70016, 70017); (70070, 70078);
   (70089, 70092); (70095, 70095); (70191, 70193); (70196, 70196); (70198, 70199);
   (70206, 70206); (70367, 70367); (70371, 70378); (70400, 70401); (70459, 70460);
   (70464, 70464); (70502, 70508); (70512, 70516); (70712, 70719); (70722, 70724);
   (70726, 70726); (70750, 70750); (70835, 70840); (70842, 70842); (70847, 70848);
   (70850, 70851); (71090, 71093); (71100, 71101); (71103, 71104); (71132, 71133);
   (71219, 71226); (71229, 71229); (71231, 71232); (71339, 71339); (71341, 71341);
   (71344, 71349); (71351, 71351); (71453, 71455); (71458, 71461); (71463, 71467);
   (71727, 71735); (71737, 71738); (71995, 71996); (71998, 71998); (72003, 72003);
   (72148, 72151); (72154, 72155); (72160, 72160); (72193, 72202); (72243, 72248);
   (72251, 72254); (72263, 72263); (72273, 72278); (72281, 72283); (72330, 72342);
   (72344, 72345); (72752, 72758); (72760, 72765); (72767, 72767); (72850, 72871);
   (72874, 72880); (72882, 72883); (72885, 72886); (73009, 73014); (73018, 73018);
   (73020, 73021); (73023, 73029); (73031, 73031); (73104, 73105); (73109, 73109);
   (73111, 73111); (73459, 73460); (78896, 78904); (92912, 92916); (92976, 92982);
   (92992, 92995); (94031, 94031); (94095, 94111); (94176, 94177); (94179, 94180);
   (110576, 110579); (110581, 110587); (110589, 110590); (113821, 113822); (113824, 113827);
   (118528, 118573); (118576, 118598); (119143, 119145); (119155, 119170); (119173, 119179);
   (119210, 119213); (119362, 119364); (121344, 121398); (121403, 121452); (121461, 121461);
   (121476, 121476); (121499, 121503); (121505, 121519); (122880, 122886); (122888, 122904);
   (122907, 122913); (122915, 122916); (122918, 122922); (123184, 123197); (123566, 123566);
   (123628, 123631); (125136, 125142); (125252, 125259); (127995, 127999); (917505, 917505);
   (917536, 917631); (917760, 917999)
  ]%N.

Definition in_ranges (table : list (N * N)) (cp : N) : bool :=
  existsb (fun r => (r.1 <=? cp)%N && (cp <=? r.2)%N) table.

Definition cased (cp : N) : bool :=
  if (cp <? 128)%N
  then ((65 <=? cp) && (cp <=? 90) || (97 <=? cp) && (cp <=? 122))%N
  else in_ranges CASED cp.

Definition case_ignorable (cp : N) : bool :=
  if (cp <? 128)%N
  then ((cp =? 39) || (cp =? 46) || (cp =? 58) || (cp =? 94) || (cp =? 96))%N
  else in_ranges CASE_IGNORABLE cp.

Fixpoint lookup_lower (table : list (N * N * N * N)) (cp : N) : N :=
  match table with
  | [] => cp
  | (first, last, step, target) :: r =>
      if ((first <=? cp) && (cp <=? last) && ((cp - first) mod step =? 0))%N
      then (target + (cp - first))%N
      else lookup_lower r cp
  end.

(** The simple lower-case mapping of a code point. *)
Definition lower (cp : N) : N :=
  if (cp <? 128)%N
  then if ((65 <=? cp) && (cp <=? 90))%N then (cp + 32)%N else cp
  else lookup_lower LOWER cp.

(** Whether a cased letter comes first, case-ignorable characters apart. *)
Fixpoint cased_next (l : list N) : bool :=
  match l with
  | [] => false
  | cp :: r => if case_ignorable cp then cased_next r else cased cp
  end.

(** Default case conversion to lower case: U+0130 becomes two code
    points; a capital sigma that ends a word (after a cased letter and not
    before one, case-ignorable characters apart) becomes the final sigma;
    any other code point has its simple mapping.  [before] holds the code
    points already passed, the nearest first. *)
Fixpoint toLowercase (before l : list N) : list N :=
  match l with
  | [] => []
  | cp :: r =>
      (if (cp =? 304)%N then [105; 775]%N
       else if (cp =? 931)%N
       then [if cased_next before && negb (cased_next r) then 962%N else 963%N]
       else [lower cp])
      ++ toLowercase (cp :: before) r
  end.

End Unicode.

Module Str.

(** Comparison with [===]. *)
Fixpoint eqb (s1 s2 : string) : bool :=
  match s1, s2 with
  | EmptyString, EmptyString => true
  | String c1 r1, String c2 r2 => (c1 =? c2)%N && eqb r1 r2
  | _, _ => false
  end.

(** [s.length] *)
Fixpoint length (s : string) : nat :=
  match s with
  | EmptyString => 0
  | String _ r => S (length r)
  end.

(** [s1 + s2] *)
Fixpoint append (s1 s2 : string) : string :=
  match s1 with
  | EmptyString => s2
  | String c r => String c (append r s2)
  end.

(** [ls.join(sep)] *)
Fixpoint concat (sep : string) (ls : list string) : string :=
  match ls with
  | [] => EmptyString
  | [x] => x
  | x :: r => append x (append sep (concat sep r))
  end.

(** The lower-case form of [s] where it stands after the code points
    [before] (the nearest first). *)
Definition lowerFrom (before : list N) (s : string) : string :=
  Literal.fromCodePoints (Unicode.toLowercase before (Literal.codePoints s)).

(** [s.toLowerCase()]: the string's code points, converted to lower case
    by the default case conversion of Unicode, as a string again. *)
Definition toLowerCase (s : string) : string := lowerFrom [] s.

(** The letters [A] to [Z] in lower case, any other code unit as it is: the
    case folding of a regular expression with the flag [i] where the pattern
    is ASCII. *)
Definition lower_ascii (c : N) : N :=
  if ((65 <=? c) && (c <=? 90))%N then (c + 32)%N else c.

Fixpoint asciiLower (s : string) : string :=
  match s with
  | EmptyString => EmptyString
  | String c r => String (lower_ascii c) (asciiLower r)
  end.

(** The characters [String.prototype.trim] strips: the white space and the
    line terminators of the language. *)
Definition is_space (c : N) : bool :=
  ((9 <=? c) && (c <=? 13) || (c =? 32) || (c =? 160) || (c =? 5760)
   || (8192 <=? c) && (c <=? 8202) || (c =? 8232) || (c =? 8233) || (c =? 8239)
   || (c =? 8287) || (c =? 12288) || (c =? 65279))%N.

Fixpoint trimStart (s : string) : string :=
  match s with
  | EmptyString => EmptyString
  | String c r => if is_space c then trimStart r else s
  end.

Fixpoint rev_append (s acc : string) : string :=
  match s with
  | EmptyString => acc
  | String c r => rev_append r (String c acc)
  end.

Definition rev (s : string) : string := rev_append s EmptyString.

Definition trimEnd (s : string) : string := rev (trimStart (rev s)).

(** [s.trim()] *)
Definition trim (s : string) : string := trimEnd (trimStart s).

(** [s.startsWith(p)] *)
Fixpoint startsWith (p s : string) : bool :=
  match p, s with
  | EmptyString, _ => true
  | String a p', String b s' => (a =? b)%N && startsWith p' s'
  | String _ _, EmptyString => false
  end.

(** [s.includes(p)] *)
Fixpoint includes (p s : string) : bool :=
  startsWith p s ||
  match s with
  | EmptyString => false
  | String _ r => includes p r
  end.

(** [s.slice(1)] *)
Definition slice1 (s : string) : string :=
  match s with
  | EmptyString => EmptyString
  | String _ r => r
  end.

(** Truthiness of a JavaScript string: every string but the empty one. *)
Definition truthy (s : string) : bool :=
  match s with
  | EmptyString => false
  | String _ _ => true
  end.

(** [xs.includes(s)] on an array of strings, and [set.has(s)]. *)
Definition mem (s : string) (xs : list string) : bool :=
  existsb (eqb s) xs.

(** Every character is one [trim] strips. *)
Fixpoint all_space (s : string) : bool :=
  match s with
  | EmptyString => true
  | String c r => is_space c && all_space r
  end.

Fixpoint units (s : string) : list N :=
  match s with
  | EmptyString => []
  | String c r => c :: units r
  end.

Fixpoint of_units (l : list N) : string :=
  match l with
  | [] => EmptyString
  | c :: r => String c (of_units r)
  end.

End Str.

Infix "+:+" := Str.append (at level 60, right associativity) : string_scope.

#[global] Instance string_eq_dec : EqDecision string.
Proof. solve_decision. Defined.

#[global] Instance string_countable : Countable string.
Proof.
  refine (inj_countable' Str.units Str.of_units _).
  intros s. induction s as [|c r IH]; simpl; congruence.
Defined.

(** ** Data model *)

(** [WwwaxeOptions]: every field is optional, [None] is [undefined]. *)
Record WwwaxeOptions := {
  keepDataAttributes : option bool;
  keepIds : option bool;
  keepClasses : option bool;
  keepAriaHidden : option bool;
  markdown : option bool;
  core : option bool
}.

(** [options.f], read as a condition. *)
Definition flag (o : option bool) : bool :=
  match o with Some true => true | _ => false end.

(** [options.f !== false] *)
Definition not_false (o : option bool) : bool :=
  match o with Some false => false | _ => true end.

Definition default_options : WwwaxeOptions :=
  {| keepDataAttributes := None; keepIds := None; keepClasses := None;
     keepAriaHidden := None; markdown := None; core := None |}.

(** A node of domhandler's tree, below the document.  [Element] stands for
    the three node types [isTag] accepts (tag, script, style).  [Directive]
    is the node the parser makes of [<!DOCTYPE ...>] and [<?...>]: neither
    a tag, a text, a comment, nor a node with children.  CDATA nodes do not
    occur: [parseDocument] is called without the options that make them. *)
Inductive node :=
| Element (tagName : string) (attribs : gmap string string) (children : list node)
| Text (data : string)
| Comment (data : string)
| Directive (name data : string).

(** The document: the ordered child list of the root. *)
Abbreviation document := (list node).

Section node_induction.
Variable P : node -> Prop.
Hypothesis HElement : forall t a cs, Forall P cs -> P (Element t a cs).
Hypothesis HText : forall s, P (Text s).
Hypothesis HComment : forall s, P (Comment s).
Hypothesis HDirective : forall n s, P (Directive n s).

Fixpoint node_ind' (n : node) : P n :=
  match n with
  | Element t a cs =>
      HElement t a cs
        ((fix go (l : list node) : Forall P l :=
            match l with
            | [] => @List.Forall_nil _ P
            | x :: r => @List.Forall_cons _ P x r (node_ind' x) (go r)
            end) cs)
  | Text s => HText s
  | Comment s => HComment s
  | Directive n s => HDirective n s
  end.
End node_induction.

(** ** Classification tables *)

Definition has (s : gset string) (x : string) : bool := bool_decide (x ∈ s).

Definition REMOVE_TAGS : gset string :=
  list_to_set ["script"; "style"; "noscript"; "svg"; "link"; "iframe"; "template"].

Definition UNWRAP_TAGS : gset string :=
  list_to_set
    ["span"; "div"; "font"; "center"; "b"; "i"; "u"; "em"; "strong"; "small";
     "big"; "mark"; "sub"; "sup"; "abbr"; "cite"; "code"; "kbd"; "samp"; "var";
     "del"; "ins"; "s"; "strike"; "wbr"; "bdi"; "bdo"].

Definition MARKDOWN_PRESERVE_TAGS : gset string :=
  list_to_set ["strong"; "b"; "em"; "i"; "code"; "del"; "s"; "strike"].

Definition KEEP_TAGS : gset string :=
  list_to_set
    ["html"; "head"; "body";
     "title"; "meta"; "base";
     "header"; "footer"; "main"; "nav"; "article"; "section"; "aside";
     "hgroup"; "search"; "address";
     "h1"; "h2"; "h3"; "h4"; "h5"; "h6";
     "p"; "blockquote"; "pre"; "figure"; "figcaption"; "hr"; "br";
     "ul"; "ol"; "li"; "dl"; "dt"; "dd"; "menu";
     "table"; "thead"; "tbody"; "tfoot"; "tr"; "th"; "td"; "caption";
     "colgroup"; "col";
     "form"; "fieldset"; "legend"; "label"; "input"; "textarea"; "select";
     "option"; "optgroup"; "button"; "output"; "datalist";
     "img"; "picture"; "source"; "video"; "audio"; "track";
     "a";
     "details"; "summary"; "dialog"; "time"].

Definition CONTENT_ATTRIBUTES : gset string :=
  list_to_set
    ["href"; "src"; "srcset"; "alt"; "poster";
     "role"; "aria-label"; "aria-labelledby"; "aria-describedby"; "title";
     "lang"; "dir"; "translate";
     "type"; "name"; "value"; "placeholder"; "for"; "action"; "method";
     "required"; "disabled"; "checked"; "selected"; "readonly"; "min"; "max";
     "step"; "pattern"; "maxlength"; "minlength"; "multiple"; "rows"; "cols";
     "colspan"; "rowspan"; "scope"; "headers";
     "content"; "property"; "charset"; "http-equiv";
     "width"; "height"; "controls"; "autoplay"; "loop"; "muted";
     "datetime";
     "open";
     "start"; "reversed"].

Definition CHROME_TAGS : gset string :=
  list_to_set ["header"; "nav"; "footer"; "aside"; "dialog"].

Definition CHROME_ROLES : gset string :=
  list_to_set ["banner"; "navigation"; "complementary"; "contentinfo"; "search"].

Definition WELL_KNOWN_CONTENT_IDS : list string :=
  ["main-content"; "content"; "main"; "page-content"; "site-content"].

Definition isEventAttribute (name : string) : bool :=
  Str.startsWith "on" name && (2 <? Str.length name)%nat.

Definition isDataAttribute (name : string) : bool :=
  Str.startsWith "data-" name.

Definition getUnwrapTags (options : WwwaxeOptions) : gset string :=
  if not_false (markdown options) then UNWRAP_TAGS ∖ MARKDOWN_PRESERVE_TAGS
  else UNWRAP_TAGS.

(** ** Reading attributes *)

(** [el.attribs.k || ""] *)
Definition attr_or_empty (a : gmap string string) (k : string) : string :=
  default "" (a !! k).

(** [el.attribs.k], read as a condition: present and not empty. *)
Definition attr_truthy (a : gmap string string) (k : string) : bool :=
  match a !! k with Some v => Str.truthy v | None => false end.

(** [el.attribs.k !== undefined] *)
Definition attr_defined (a : gmap string string) (k : string) : bool :=
  match a !! k with Some _ => true | None => false end.

(** ** Tree helpers *)

(** The first result of [f] along a child list: the
    [for (child of children) { found = f(child); if (found) return found }]
    loop. *)
Definition first_some {A B : Type} (f : A -> option B) : list A -> option B :=
  fix go (l : list A) : option B :=
    match l with
    | [] => None
    | x :: r => match f x with Some y => Some y | None => go r end
    end.

Definition isTag (n : node) : bool :=
  match n with Element _ _ _ => true | _ => false end.

Definition getChildren (n : node) : list node :=
  match n with Element _ _ cs => cs | _ => [] end.

Definition tag_is (tagName : string) (n : node) : bool :=
  match n with
  | Element t _ _ => Str.eqb (Str.toLowerCase t) tagName
  | _ => false
  end.

Fixpoint findElement (tagName : string) (n : node) : option node :=
  match n with
  | Element t a cs =>
      if Str.eqb (Str.toLowerCase t) tagName then Some n
      else first_some (findElement tagName) cs
  | _ => None
  end.

(** [findElement(doc, tagName)]: the document is no tag, its children are
    searched in order. *)
Definition findElementDoc (tagName : string) (doc : document) : option node :=
  first_some (findElement tagName) doc.

Fixpoint findElements (predicate : node -> bool) (n : node) : list node :=
  match n with
  | Element t a cs =>
      (if predicate n then [n] else []) ++ flat_map (findElements predicate) cs
  | _ => []
  end.

Definition findElementsDoc (predicate : node -> bool) (doc : document) : list node :=
  flat_map (findElements predicate) doc.

Fixpoint findById (id : string) (n : node) : option node :=
  match n with
  | Element t a cs =>
      if bool_decide (a !! "id" = Some id) then Some n
      else first_some (findById id) cs
  | _ => None
  end.

Definition findByIdDoc (id : string) (doc : document) : option node :=
  first_some (findById id) doc.

(** domutils' [textContent]: the concatenated data of the text nodes below
    a node. *)
Fixpoint textContent (n : node) : string :=
  match n with
  | Element _ _ cs => Str.concat "" (map textContent cs)
  | Text s => s
  | _ => ""
  end.

(** ** Frontmatter extractor *)

Record FrontmatterData := {
  fm_title : option string;
  fm_description : option string;
  fm_url : option string;
  fm_image : option string
}.

Definition empty_frontmatter : FrontmatterData :=
  {| fm_title := None; fm_description := None; fm_url := None; fm_image := None |}.

Definition node_attribs (n : node) : gmap string string :=
  match n with Element _ a _ => a | _ => ∅ end.

(** [for (m of ms) { if (lower(m.attribs[key] || "") === v && m.attribs[field])
    { data.x = m.attribs[field].trim(); break } }] *)
Definition first_trimmed (key v field : string) (ms : list node) : option string :=
  match
    find (fun m =>
            Str.eqb (Str.toLowerCase (attr_or_empty (node_attribs m) key)) v
            && attr_truthy (node_attribs m) field) ms
  with
  | Some m => Some (Str.trim (attr_or_empty (node_attribs m) field))
  | None => None
  end.

(** [!data.url] *)
Definition unset_or_empty (o : option string) : bool :=
  match o with Some s => negb (Str.truthy s) | None => true end.

Definition extractFrontmatter (doc : document) : FrontmatterData :=
  match findElementDoc "head" doc with
  | None => empty_frontmatter
  | Some head =>
      let title :=
        match findElement "title" head with
        | Some titleEl =>
            let text := Str.trim (textContent titleEl) in
            if Str.truthy text then Some text else None
        | None => None
        end in
      let metas := findElements (tag_is "meta") head in
      let links := findElements (tag_is "link") head in
      let description := first_trimmed "name" "description" "content" metas in
      let url := first_trimmed "rel" "canonical" "href" links in
      let url :=
        if unset_or_empty url then
          match first_trimmed "property" "og:url" "content" metas with
          | Some u => Some u
          | None => url
          end
        else url in
      let image := first_trimmed "property" "og:image" "content" metas in
      {| fm_title := title; fm_description := description;
         fm_url := url; fm_image := image |}
  end.

(** ** Attribute sanitizer *)

(** The decision [stripAttributes] takes for one attribute name. *)
Definition keeps_attribute (options : WwwaxeOptions) (key : string) : bool :=
  let lowerKey := Str.toLowerCase key in
  if isEventAttribute lowerKey then false
  else if Str.eqb lowerKey "style" then false
  else if Str.eqb lowerKey "class" then flag (keepClasses options)
  else if Str.eqb lowerKey "id" then not_false (keepIds options)
  else if isDataAttribute lowerKey then flag (keepDataAttributes options)
  else has CONTENT_ATTRIBUTES lowerKey.

(** [stripAttributes(el, options)]: the new attribute object holds the
    entries of the old one whose name is kept. *)
Definition stripAttributes (a : gmap string string) (options : WwwaxeOptions)
  : gmap string string :=
  filter (fun kv => keeps_attribute options kv.1 = true) a.

(** ** Visibility filter *)

Definition isHidden (a : gmap string string) (options : WwwaxeOptions) : bool :=
  if attr_defined a "hidden" then true
  else if negb (flag (keepAriaHidden options))
          && bool_decide (a !! "aria-hidden" = Some "true") then true
  else
    let style := attr_or_empty a "style" in
    if Str.includes "display:none" style || Str.includes "display: none" style then true
    else if Str.includes "visibility:hidden" style
            || Str.includes "visibility: hidden" style then true
    else false.

(** ** Structural pruner *)

Definition isUsefulMeta (a : gmap string string) : bool :=
  let name := Str.toLowerCase (attr_or_empty a "name") in
  let property := Str.toLowerCase (attr_or_empty a "property") in
  let httpEquiv := Str.toLowerCase (attr_or_empty a "http-equiv") in
  if Str.mem name ["description"; "author"; "keywords"; "robots"; "viewport"] then true
  else if Str.startsWith "og:" property then true
  else if Str.startsWith "twitter:" name then true
  else if attr_truthy a "charset" then true
  else if Str.eqb httpEquiv "content-type" then true
  else false.

Definition isUsefulLink (a : gmap string string) : bool :=
  let rel := Str.toLowerCase (attr_or_empty a "rel") in
  Str.eqb rel "canonical" || Str.eqb rel "alternate".

Fixpoint hasMeaningfulContent (n : node) : bool :=
  match n with
  | Text s => (0 <? Str.length (Str.trim s))%nat
  | Element t _ cs =>
      if Str.mem (Str.toLowerCase t)
           ["img"; "input"; "br"; "hr"; "video"; "audio"; "source"; "track"]
      then true
      else existsb hasMeaningfulContent cs
  | _ => false
  end.

(** The test [hasContentAttributes] applies to each attribute name. *)
Definition content_worthy (options : WwwaxeOptions) (key : string) : bool :=
  let lowerKey := Str.toLowerCase key in
  has CONTENT_ATTRIBUTES lowerKey
  || (Str.eqb lowerKey "id" && not_false (keepIds options))
  || (Str.eqb lowerKey "class" && flag (keepClasses options))
  || (isDataAttribute lowerKey && flag (keepDataAttributes options)).

Definition hasContentAttributes (a : gmap string string) (options : WwwaxeOptions) : bool :=
  existsb (fun kv => content_worthy options kv.1) (map_to_list a).

Definition voidElements : gset string :=
  list_to_set ["br"; "hr"; "img"; "input"; "meta"; "source"; "track"; "col"; "base"].

Definition headElements : gset string :=
  list_to_set ["head"; "html"; "body"; "title"].

(** [processNode(node, options, unwrapTags)].  The result is what stands at
    the node's place in its parent's child list afterwards: nothing after
    [removeElement], the node's children after [unwrapElement], the node
    itself otherwise.  The children are visited in the order of the copy
    taken before the loop, each exactly once. *)
Fixpoint processNode (options : WwwaxeOptions) (unwrapTags : gset string)
    (n : node) : list node :=
  match n with
  | Comment _ => []
  | Element t a cs =>
      let tag := Str.toLowerCase t in
      if has REMOVE_TAGS tag then
        if Str.eqb tag "link" && isUsefulLink a
        then [Element t (stripAttributes a options) cs]
        else []
      else if isHidden a options then []
      else if Str.eqb tag "meta" && negb (isUsefulMeta a) then []
      else
        let cs' := flat_map (processNode options unwrapTags) cs in
        let a' := stripAttributes a options in
        let node' := Element t a' cs' in
        let sweep :=
          if negb (has voidElements tag) && negb (has headElements tag)
             && negb (hasMeaningfulContent node')
          then []
          else [node'] in
        if negb (has KEEP_TAGS tag) then
          if has unwrapTags tag && negb (hasContentAttributes a' options)
          then cs'
          else if negb (hasMeaningfulContent node') then []
          else sweep
        else sweep
  | _ => [n]
  end.

(** The loop of [wwwaxe] over the top-level nodes. *)
Definition prune (options : WwwaxeOptions) (doc : document) : document :=
  flat_map (processNode options (getUnwrapTags options)) doc.

(** ** Document wrapper remover *)

(** Rewriting the first child, in order, on which [g] succeeds. *)
Definition rewrite_first {A : Type} (g : A -> option (list A))
  : list A -> option (list A) :=
  fix go (l : list A) : option (list A) :=
    match l with
    | [] => None
    | x :: r =>
        match g x with
        | Some new => Some (new ++ r)
        | None => match go r with Some r' => Some (x :: r') | None => None end
        end
    end.

(** The element [findElement] returns, replaced in its parent's child list
    by the nodes [f] makes of it. *)
Fixpoint replaceFirst (tagName : string) (f : node -> list node) (n : node)
  : option (list node) :=
  match n with
  | Element t a cs =>
      if Str.eqb (Str.toLowerCase t) tagName then Some (f n)
      else match rewrite_first (replaceFirst tagName f) cs with
           | Some cs' => Some [Element t a cs']
           | None => None
           end
  | _ => None
  end.

Definition replaceFirstDoc (tagName : string) (f : node -> list node)
    (doc : document) : document :=
  default doc (rewrite_first (replaceFirst tagName f) doc).

(** The first element, depth first, whose tag is one of two. *)
Fixpoint findEither (t1 t2 : string) (n : node) : option node :=
  match n with
  | Element t a cs =>
      if Str.eqb (Str.toLowerCase t) t1 || Str.eqb (Str.toLowerCase t) t2
      then Some n
      else first_some (findEither t1 t2) cs
  | _ => None
  end.

(** Whether the [body] found under [html] lies below the [head] found
    there: the first of the two kinds, depth first, is then the [head], and
    it has a [body] below it. *)
Definition body_below_head (cs : list node) : bool :=
  match first_some (findEither "head" "body") cs with
  | Some e =>
      tag_is "head" e
      && match first_some (findElement "body") (getChildren e) with
         | Some _ => true
         | None => false
         end
  | None => false
  end.

(** What [removeDocumentWrappers] does below the [html] element, given the
    children of that element: [bodyEl] and [headEl] are looked up before
    anything is changed, [headEl] is removed, [bodyEl] is unwrapped.
    Removing [headEl] leaves [bodyEl] the first [body] under [html] unless
    it was below [headEl]; in that case unwrapping it happens in the
    detached subtree and shows nowhere. *)
Definition unwrapDocumentBody (cs : list node) : list node :=
  let bodyEl := first_some (findElement "body") cs in
  let headEl := first_some (findElement "head") cs in
  let cs1 :=
    match headEl with
    | Some _ => replaceFirstDoc "head" (fun _ => []) cs
    | None => cs
    end in
  match bodyEl with
  | Some _ =>
      if body_below_head cs then cs1
      else replaceFirstDoc "body" getChildren cs1
  | None => cs1
  end.

(** [removeDocumentWrappers(doc)].  The [html] element found again at the
    end is the one found at the start: it is still the first, and it is
    unwrapped with the children it has by then. *)
Definition removeDocumentWrappers (doc : document) : document :=
  match findElementDoc "html" doc with
  | None => doc
  | Some _ =>
      replaceFirstDoc "html" (fun htmlEl => unwrapDocumentBody (getChildren htmlEl)) doc
  end.

(** ** Chrome stripper *)

Definition isChrome (t : string) (a : gmap string string) : bool :=
  let tag := Str.toLowerCase t in
  let role := Str.toLowerCase (attr_or_empty a "role") in
  has CHROME_TAGS tag || has CHROME_ROLES role.

(** What [removeChromeElements] leaves of one child of the node it is
    called on. *)
Fixpoint removeChrome (n : node) : list node :=
  match n with
  | Element t a cs =>
      if isChrome t a then []
      else [Element t a (flat_map removeChrome cs)]
  | _ => [n]
  end.

Definition removeChromeElements (doc : document) : document :=
  flat_map removeChrome doc.

Definition isSkipLink (el : node) : bool :=
  match el with
  | Element t a _ =>
      if negb (Str.eqb (Str.toLowerCase t) "a") then false
      else
        let href := attr_or_empty a "href" in
        if negb (Str.startsWith "#" href) then false
        else Str.includes "skip" (Str.toLowerCase (textContent el))
  | _ => false
  end.

(** The body of the loop over [skipLinks]. *)
Definition skipTarget (doc : document) (link : node) : option node :=
  let targetId := Str.slice1 (attr_or_empty (node_attribs link) "href") in
  if Str.truthy targetId then findByIdDoc targetId doc else None.

Definition findCoreContent (doc : document) : option node :=
  match findElementDoc "article" doc with
  | Some article => Some article
  | None =>
      let skipLinks := findElementsDoc isSkipLink doc in
      match first_some (skipTarget doc) skipLinks with
      | Some target => Some target
      | None => first_some (fun id => findByIdDoc id doc) WELL_KNOWN_CONTENT_IDS
      end
  end.

Definition hasRoleMain (el : node) : bool :=
  Str.eqb (Str.toLowerCase (attr_or_empty (node_attribs el) "role")) "main".

(** [mainEl] of [stripChrome]. *)
Definition findMain (doc : document) : option node :=
  match findElementDoc "main" doc with
  | Some m => Some m
  | None => head (findElementsDoc hasRoleMain doc)
  end.

Definition stripChrome (doc : document) : document :=
  let doc := removeChromeElements doc in
  match findMain doc with
  | Some _ => doc
  | None =>
      match findCoreContent doc with
      | Some coreContent => [coreContent]
      | None => doc
      end
  end.

(** The link fields of a node of domhandler: the node it is a child of and
    its neighbours in that node's child list, [None] for [null]. *)
Inductive parent_ref :=
| TheDocument
| AnElement (e : node).

Record links := {
  parent : option parent_ref;
  prev : option node;
  next : option node
}.

(** What [stripChrome] assigns to the element it isolates:
    [coreContent.parent = doc; coreContent.prev = null;
    coreContent.next = null]. *)
Definition isolated : links :=
  {| parent := Some TheDocument; prev := None; next := None |}.

(** The element whose link fields [stripChrome] writes, with the fields as
    written; [None] when it writes none.  The passes that follow reach the
    element from the document's child list and replace it there, as
    [replaceWithText] does through [parent]. *)
Definition stripChrome_links (doc : document) : option (node * links) :=
  let doc := removeChromeElements doc in
  match findMain doc with
  | Some _ => None
  | None =>
      match findCoreContent doc with
      | Some coreContent => Some (coreContent, isolated)
      | None => None
      end
  end.

(** ** Whitespace passes *)

(** Every maximal run of characters of a class replaced by one space:
    [s.replace(/[c]+/g, " ")]; for the class of the space alone this is
    also [s.replace(/ {2,}/g, " ")]. *)
Fixpoint squeeze (cls : N -> bool) (in_run : bool) (s : string) : string :=
  match s with
  | EmptyString => EmptyString
  | String c r =>
      if cls c then
        if in_run then squeeze cls true r else String 32%N (squeeze cls true r)
      else String c (squeeze cls false r)
  end.

Definition is_tab_nl_cr (c : N) : bool :=
  ((c =? 9) || (c =? 10) || (c =? 13))%N.

Definition is_blank (c : N) : bool := (c =? 32)%N.

Definition collapseText (s : string) : string :=
  squeeze is_blank false (squeeze is_tab_nl_cr false s).

Fixpoint collapseWhitespace (n : node) : node :=
  match n with
  | Text s => Text (collapseText s)
  | Element t a cs => Element t a (map collapseWhitespace cs)
  | _ => n
  end.

Definition cleanText (s : string) : string :=
  if (Str.length (Str.trim s) =? 0)%nat && (1 <? Str.length s)%nat
  then " " else s.

(** What [cleanTextNodes] makes of one child of the node it is called on. *)
Fixpoint cleanTextNode (n : node) : node :=
  match n with
  | Text s => Text (cleanText s)
  | Element t a cs => Element t a (map cleanTextNode cs)
  | _ => n
  end.

(** ** Markdown rewriter *)

Definition nl : string := String 10%N EmptyString.
Definition BACKTICK : string := String 96%N EmptyString.
Definition TRIPLE_BACKTICK : string := BACKTICK +:+ BACKTICK +:+ BACKTICK.

Fixpoint getMdTextContent (n : node) : string :=
  match n with
  | Text s => s
  | Element _ _ cs => Str.concat "" (map getMdTextContent cs)
  | _ => ""
  end.

(** [s.split("\n")] *)
Fixpoint split_nl (s : string) : list string :=
  match s with
  | EmptyString => [EmptyString]
  | String c r =>
      if (c =? 10)%N then EmptyString :: split_nl r
      else match split_nl r with
           | x :: xs => String c x :: xs
           | [] => [String c EmptyString]
           end
  end.

(** ["#".repeat(level)] *)
Fixpoint repeat_hash (level : nat) : string :=
  match level with
  | O => EmptyString
  | S k => String 35%N (repeat_hash k)
  end.

(** [parseInt(tag[1])] on the six heading tags. *)
Definition heading_level (tag : string) : option nat :=
  if Str.eqb tag "h1" then Some 1
  else if Str.eqb tag "h2" then Some 2
  else if Str.eqb tag "h3" then Some 3
  else if Str.eqb tag "h4" then Some 4
  else if Str.eqb tag "h5" then Some 5
  else if Str.eqb tag "h6" then Some 6
  else None.

(** The decimal digits of a number. *)
Fixpoint digits (d : Decimal.uint) : string :=
  match d with
  | Decimal.Nil => EmptyString
  | Decimal.D0 d => String 48 (digits d)
  | Decimal.D1 d => String 49 (digits d)
  | Decimal.D2 d => String 50 (digits d)
  | Decimal.D3 d => String 51 (digits d)
  | Decimal.D4 d => String 52 (digits d)
  | Decimal.D5 d => String 53 (digits d)
  | Decimal.D6 d => String 54 (digits d)
  | Decimal.D7 d => String 55 (digits d)
  | Decimal.D8 d => String 56 (digits d)
  | Decimal.D9 d => String 57 (digits d)
  end.

Definition decimal (n : nat) : string := digits (Nat.to_uint n).

(** [items.map((item, i) => (i + 1) + ". " + trimmed text)] from index [i]. *)
Fixpoint numbered (i : nat) (items : list node) : list string :=
  match items with
  | [] => []
  | item :: r =>
      (decimal (i + 1) +:+ ". " +:+ Str.trim (getMdTextContent item)) :: numbered (S i) r
  end.

Definition fenced (text : string) : string :=
  nl +:+ TRIPLE_BACKTICK +:+ nl +:+ text +:+ nl +:+ TRIPLE_BACKTICK +:+ nl.

(** The [switch (tag)] of [markdownRewrite], on an element whose children
    are rewritten already.  [replaceWithText(el, text)] puts [Text text] at
    the element's place; a tag with no case leaves the element there. *)
Definition rewriteTag (parentIsPre : bool) (el : node) : node :=
  match el with
  | Element t a children =>
      let tag := Str.toLowerCase t in
      if Str.mem tag ["strong"; "b"] then
        Text ("**" +:+ getMdTextContent el +:+ "**")
      else if Str.mem tag ["em"; "i"] then
        Text ("*" +:+ getMdTextContent el +:+ "*")
      else if Str.mem tag ["del"; "s"; "strike"] then
        Text ("~~" +:+ getMdTextContent el +:+ "~~")
      else if Str.eqb tag "a" then
        let href := attr_or_empty a "href" in
        Text ("[" +:+ getMdTextContent el +:+ "](" +:+ href +:+ ")")
      else if Str.eqb tag "img" then
        let src := attr_or_empty a "src" in
        let alt := attr_or_empty a "alt" in
        Text ("![" +:+ alt +:+ "](" +:+ src +:+ ")")
      else if Str.eqb tag "code" then
        if parentIsPre then el
        else Text (BACKTICK +:+ getMdTextContent el +:+ BACKTICK)
      else if Str.eqb tag "pre" then
        let text :=
          match children with
          | [c] => if tag_is "code" c then getMdTextContent c
                   else getMdTextContent el
          | _ => getMdTextContent el
          end in
        Text (fenced text)
      else
        match heading_level tag with
        | Some level =>
            Text (nl +:+ repeat_hash level +:+ " " +:+ getMdTextContent el +:+ nl)
        | None =>
            if Str.eqb tag "blockquote" then
              let text := Str.trim (getMdTextContent el) in
              let lines := split_nl text in
              Text (Str.concat nl (map (fun line => "> " +:+ line) lines))
            else if Str.eqb tag "ul" then
              let items := List.filter (tag_is "li") children in
              let lines :=
                map (fun item => "- " +:+ Str.trim (getMdTextContent item)) items in
              Text (Str.concat nl lines +:+ nl)
            else if Str.eqb tag "ol" then
              let items := List.filter (tag_is "li") children in
              Text (Str.concat nl (numbered 0 items) +:+ nl)
            else if Str.eqb tag "hr" then Text (nl +:+ "---" +:+ nl)
            else if Str.eqb tag "br" then Text nl
            else el
        end
  | _ => el
  end.

(** [markdownRewrite(node)] for a node whose parent is, or is not, a [pre]
    element: the children first, each from the copy of the child list, then
    the node itself. *)
Fixpoint markdownRewrite (parentIsPre : bool) (n : node) : node :=
  match n with
  | Element t a cs =>
      let cs' := map (markdownRewrite (Str.eqb (Str.toLowerCase t) "pre")) cs in
      rewriteTag parentIsPre (Element t a cs')
  | _ => n
  end.

(** ** Frontmatter serializer *)

Fixpoint escape_yaml (s : string) : string :=
  match s with
  | EmptyString => EmptyString
  | String c r =>
      if (c =? 92)%N || (c =? 34)%N
      then String 92%N (String c (escape_yaml r))
      else String c (escape_yaml r)
  end.

Definition DQUOTE : string := String 34%N EmptyString.

Definition yamlEscape (value : string) : string :=
  if existsb (fun p => Str.includes p value)
       [": "; nl; DQUOTE; "'"; "["; "]"; "{"; "}"; "#"; "&"; "*"; "!"; "|";
        ">"; "%"; "@"; BACKTICK]
  then DQUOTE +:+ escape_yaml value +:+ DQUOTE
  else value.

Definition frontmatter_line (key : string) (o : option string) : list string :=
  match o with
  | Some v => if Str.truthy v then [key +:+ ": " +:+ yamlEscape v] else []
  | None => []
  end.

Definition buildFrontmatter (data : FrontmatterData) : string :=
  let lines :=
    frontmatter_line "title" (fm_title data)
    ++ frontmatter_line "description" (fm_description data)
    ++ frontmatter_line "url" (fm_url data)
    ++ frontmatter_line "image" (fm_image data) in
  match lines with
  | [] => ""
  | _ => "---" +:+ nl +:+ Str.concat nl lines +:+ nl +:+ "---"
  end.

(** ** Orchestrator *)

(** The tree [wwwaxe] hands to the serializer, from the tree the parser
    returned. *)
Definition wwwaxe_tree (options : WwwaxeOptions) (doc : document) : document :=
  let markdown := not_false (markdown options) in
  let unwrapTags := getUnwrapTags options in
  let doc := flat_map (processNode options unwrapTags) doc in
  let doc := removeDocumentWrappers doc in
  let doc := if flag (core options) then stripChrome doc else doc in
  let doc := map collapseWhitespace doc in
  let doc := map cleanTextNode doc in
  if markdown then map (markdownRewrite false) doc else doc.

(** The frontmatter block [wwwaxe] puts before the serialized tree. *)
Definition wwwaxe_frontmatter (doc : document) : string :=
  buildFrontmatter (extractFrontmatter doc).

(** ** Serialized text *)

(** The passes [wwwaxe] makes over the text the serializer returns.  A
    global replacement goes through the text from the left; [skip] counts
    the characters still to drop after a match. *)

(** [result.replace(/&gt; /g, "> ")] *)
Fixpoint replaceGt (skip : nat) (s : string) : string :=
  match s with
  | EmptyString => EmptyString
  | String c r =>
      match skip with
      | S k => replaceGt k r
      | O =>
          if Str.startsWith "&gt; " s then String 62%N (String 32%N (replaceGt 4 r))
          else String c (replaceGt 0 r)
      end
  end.

Fixpoint drop_chars (n : nat) (s : string) : string :=
  match n, s with
  | S k, String _ r => drop_chars k r
  | _, _ => s
  end.

(** The index of the first [>]. *)
Fixpoint index_gt (s : string) : option nat :=
  match s with
  | EmptyString => None
  | String c r =>
      if (c =? 62)%N then Some 0%nat else option_map S (index_gt r)
  end.

(** The length of the match of [/<!DOCTYPE[^>]*>/i] at the start of [s]:
    the nine characters in either case, then everything up to the first
    [>]. *)
Definition doctype_match (s : string) : option nat :=
  if Str.startsWith "<!doctype" (Str.asciiLower s)
  then option_map (fun i => 9 + i + 1)%nat (index_gt (drop_chars 9 s))
  else None.

(** [result.replace(/<!DOCTYPE[^>]*>/gi, "")] *)
Fixpoint stripDoctype (skip : nat) (s : string) : string :=
  match s with
  | EmptyString => EmptyString
  | String c r =>
      match skip with
      | S k => stripDoctype k r
      | O =>
          match doctype_match s with
          | Some len => stripDoctype (len - 1) r
          | None => String c (stripDoctype 0 r)
          end
      end
  end.

Definition is_newline (c : N) : bool := (10 =? c)%N.

(** The number of line feeds [s] starts with. *)
Fixpoint newline_run (s : string) : nat :=
  match s with
  | EmptyString => 0
  | String c r => if is_newline c then S (newline_run r) else 0
  end.

(** [result.replace(/\n{3,}/g, "\n")]: a run of three line feeds or more
    is matched whole. *)
Fixpoint collapseNewlines (skip : nat) (s : string) : string :=
  match s with
  | EmptyString => EmptyString
  | String c r =>
      match skip with
      | S k => collapseNewlines k r
      | O =>
          if (3 <=? newline_run s)%nat
          then String 10%N (collapseNewlines (newline_run s - 1) r)
          else String c (collapseNewlines 0 r)
      end
  end.

(** The text between the serializer and the frontmatter. *)
Definition postprocess (markdown : bool) (rendered : string) : string :=
  let result := if markdown then replaceGt 0 rendered else rendered in
  let result := stripDoctype 0 result in
  Str.trim (collapseNewlines 0 result).

(** [wwwaxe(html, options)], over the parser and the serializer it calls. *)
Definition wwwaxe (parseDocument : string -> document) (render : document -> string)
    (options : WwwaxeOptions) (html : string) : string :=
  let doc := parseDocument html in
  let result :=
    postprocess (not_false (markdown options)) (render (wwwaxe_tree options doc)) in
  let frontmatter := wwwaxe_frontmatter doc in
  if Str.truthy frontmatter then frontmatter +:+ nl +:+ result else result.

(** * The vocabulary of the properties *)

(** The elements, by tag and attributes, and the comments of a tree. *)
Inductive atom :=
| AElem (tagName : string) (attribs : gmap string string)
| AComment (data : string).

Fixpoint atoms (n : node) : list atom :=
  match n with
  | Element t a cs => AElem t a :: flat_map atoms cs
  | Comment s => [AComment s]
  | _ => []
  end.

Definition atomsDoc (doc : document) : list atom := flat_map atoms doc.

(** The parser gives no children to a [link] element (it is a void
    element of htmlparser2). *)
Fixpoint link_void (n : node) : bool :=
  match n with
  | Element t _ cs =>
      (if Str.eqb (Str.toLowerCase t) "link"
       then match cs with [] => true | _ => false end
       else true)
      && forallb link_void cs
  | _ => true
  end.

Definition links_void (doc : document) : bool := forallb link_void doc.

(** An element of the result: an element of the input with its attributes
    sanitized, whose tag the pruner does not remove, or a [link] with
    [rel=canonical] or [rel=alternate]. *)
Definition sanitized (options : WwwaxeOptions) (orig : list atom) (x : atom) : Prop :=
  exists t a,
    x = AElem t (stripAttributes a options)
    /\ In (AElem t a) orig
    /\ (has REMOVE_TAGS (Str.toLowerCase t) = false
        \/ (Str.toLowerCase t = "link" /\ isUsefulLink a = true)).




(** [(meta.attribs.name || "").toLowerCase() === "description"] *)
Definition names_description (m : node) : bool :=
  Str.eqb (Str.toLowerCase (attr_or_empty (node_attribs m) "name")) "description".

(** The description as the specification is read when white space counts
    as no content: the trimmed content of the first [meta] named
    description whose content is more than white space. *)
Definition stated_description (doc : document) : option string :=
  match findElementDoc "head" doc with
  | None => None
  | Some head =>
      match
        find (fun m =>
                names_description m
                && Str.truthy (Str.trim (attr_or_empty (node_attribs m) "content")))
          (findElements (tag_is "meta") head)
      with
      | Some m => Some (Str.trim (attr_or_empty (node_attribs m) "content"))
      | None => None
      end
  end.

(** The extracted data with no description. *)
Definition without_description (data : FrontmatterData) : FrontmatterData :=
  {| fm_title := fm_title data; fm_description := None;
     fm_url := fm_url data; fm_image := fm_image data |}.

(** The hidden elements the pruner takes out: all but a [link] whose [rel]
    is canonical or alternate, which [processNode] keeps before it looks at
    visibility. *)
Definition removed_as_hidden (options : WwwaxeOptions) (t : string)
    (a : gmap string string) : bool :=
  isHidden a options
  && negb (Str.eqb (Str.toLowerCase t) "link" && isUsefulLink a).

(** The tree without those elements and what is below them. *)
Fixpoint dropHidden (options : WwwaxeOptions) (n : node) : list node :=
  match n with
  | Element t a cs =>
      if removed_as_hidden options t a then []
      else [Element t a (flat_map (dropHidden options) cs)]
  | _ => [n]
  end.

(** [node.attribs.id === id] *)
Definition id_is (id : string) (n : node) : bool :=
  bool_decide (node_attribs n !! "id" = Some id).

(** The fragment link [link] resolves to [target]: its [href] is [#] and a
    fragment that is not empty, and [target] is the first element with that
    id. *)
Definition resolves (doc : document) (link target : node) : Prop :=
  exists id,
    attr_or_empty (node_attribs link) "href" = String 35%N id
    /\ id <> ""
    /\ head (findElementsDoc (id_is id) doc) = Some target.

(** The fallback as the specification words it: the second step looks at
    the first skip link only. *)
Definition stated_findCoreContent (doc : document) : option node :=
  match findElementDoc "article" doc with
  | Some article => Some article
  | None =>
      match
        match head (findElementsDoc isSkipLink doc) with
        | Some link => skipTarget doc link
        | None => None
        end
      with
      | Some target => Some target
      | None => first_some (fun id => findByIdDoc id doc) WELL_KNOWN_CONTENT_IDS
      end
  end.

(** No character of the string is of the class. *)
Fixpoint free_of (cls : N -> bool) (s : string) : bool :=
  match s with
  | EmptyString => true
  | String c r => negb (cls c) && free_of cls r
  end.

(** The two whitespace passes on one text, in the order of [wwwaxe]. *)
Definition tidyText (s : string) : string := cleanText (collapseText s).

(** A function applied to every text of a tree. *)
Fixpoint mapText (f : string -> string) (n : node) : node :=
  match n with
  | Text s => Text (f s)
  | Element t a cs => Element t a (map (mapText f) cs)
  | _ => n
  end.

(** Some element of the tree satisfies [p]. *)
Fixpoint any_element (p : string -> gmap string string -> bool) (n : node) : bool :=
  match n with
  | Element t a cs => p t a || existsb (any_element p) cs
  | _ => false
  end.

(** A [link] the pruner keeps. *)
Definition kept_link (t : string) (a : gmap string string) : bool :=
  Str.eqb (Str.toLowerCase t) "link" && isUsefulLink a.

(** A property of a node and of every node below it. *)
Inductive deep (P : node -> Prop) : node -> Prop :=
| deep_element t a cs :
    P (Element t a cs) -> Forall (deep P) cs -> deep P (Element t a cs)
| deep_leaf n : isTag n = false -> P n -> deep P n.

(** The pruner leaves the node as it is. *)
Definition fixed (options : WwwaxeOptions) (unwrapTags : gset string) (n : node) : Prop :=
  processNode options unwrapTags n = [n].

(** No element of the tree has the tag. *)
Definition lacks (tagName : string) (n : node) : bool :=
  match findElement tagName n with None => true | Some _ => false end.

Definition wrapper_free (n : node) : bool :=
  lacks "html" n && lacks "head" n && lacks "body" n.

(** A child of the [html] element: a [head], a [body] or something else,
    with no [html], [head] or [body] below it. *)
Definition top_wrappers_only (n : node) : bool :=
  match n with
  | Element t _ cs =>
      negb (Str.eqb (Str.toLowerCase t) "html") && forallb wrapper_free cs
  | _ => true
  end.

(** At most one [html] element, at the top level, with [head] and [body]
    elements among its children only. *)
Fixpoint page_shaped (doc : document) : bool :=
  match doc with
  | [] => true
  | n :: r =>
      if tag_is "html" n
      then forallb top_wrappers_only (getChildren n) && forallb (lacks "html") r
      else lacks "html" n && page_shaped r
  end.

(** Below the [html] element after the first run: the pruner leaves the
    node and all below it as they are, and no wrapper is below it. *)
Definition settled_inside (P : node -> Prop) (c : node) : Prop :=
  deep P c /\ top_wrappers_only c = true.

(** At the top level after the first run. *)
Definition settled (P : node -> Prop) (c : node) : Prop :=
  deep P c /\ lacks "html" c = true.

(** The pruner leaves the node as it is, unless a [link] element is in
    it. *)
Definition fixed_unless_link (options : WwwaxeOptions) (unwrapTags : gset string)
    (n : node) : Prop :=
  lacks "link" n = true -> fixed options unwrapTags n.






(** A node and all the nodes below it, in document order. *)
Fixpoint subtrees (n : node) : list node :=
  n :: match n with
       | Element _ _ cs => flat_map subtrees cs
       | _ => []
       end.

(** What [processNode] has checked of an element it leaves in the tree.  A
    [link] got there by the exception for kept links; any other element
    passed the guards and the two content tests. *)
Definition pruned_shape (options : WwwaxeOptions) (unwrapTags : gset string)
    (n : node) : Prop :=
  match n with
  | Element t a cs =>
      let tag := Str.toLowerCase t in
      tag = "link"
      \/ (has REMOVE_TAGS tag = false
          /\ (tag = "meta" -> isUsefulMeta a = true)
          /\ (has KEEP_TAGS tag = false -> has unwrapTags tag = true ->
              hasContentAttributes a options = true)
          /\ (has KEEP_TAGS tag = false -> hasMeaningfulContent n = true)
          /\ (has voidElements tag = false -> has headElements tag = false ->
              hasMeaningfulContent n = true))
  | _ => True
  end.

(** A text without its tabs, line feeds, carriage returns and spaces. *)
Fixpoint solid (s : string) : string :=
  match s with
  | EmptyString => EmptyString
  | String c r => if is_tab_nl_cr c || is_blank c then solid r else String c (solid r)
  end.

(** The tags [markdownRewrite] has a case for. *)
Definition MARKDOWN_TAGS : list string :=
  ["strong"; "b"; "em"; "i"; "del"; "s"; "strike"; "a"; "img"; "code"; "pre";
   "h1"; "h2"; "h3"; "h4"; "h5"; "h6"; "blockquote"; "ul"; "ol"; "hr"; "br"].

(** No line feed in the text. *)
Fixpoint nl_free (s : string) : bool :=
  match s with
  | EmptyString => true
  | String c r => negb (c =? 10)%N && nl_free r
  end.

(** Reading back what [yamlEscape] wrote: a backslash gives way to the
    character after it. *)
Fixpoint unescape_yaml (s : string) : string :=
  match s with
  | EmptyString => EmptyString
  | String c r =>
      if (c =? 92)%N then
        match r with
        | String c' r' => String c' (unescape_yaml r')
        | EmptyString => String c EmptyString
        end
      else String c (unescape_yaml r)
  end.

Fixpoint drop_last (s : string) : string :=
  match s with
  | EmptyString => EmptyString
  | String c r =>
      match r with
      | EmptyString => EmptyString
      | String _ _ => String c (drop_last r)
      end
  end.

(** The value of a field as a reader of the block takes it: what stands
    between the double quotes, unescaped, or the plain text. *)
Definition yamlDecode (v : string) : string :=
  match v with
  | String c r => if (c =? 34)%N then unescape_yaml (drop_last r) else v
  | EmptyString => EmptyString
  end.

Definition no_markdown_tag (x : atom) : Prop :=
  match x with
  | AElem t _ => Str.mem (Str.toLowerCase t) MARKDOWN_TAGS = false
  | AComment _ => True
  end.

(** Three line feeds in a row. *)
Definition nl3 : string := nl +:+ nl +:+ nl.

(** ** Sample inputs *)

(** Building an attribute object from its entries. *)
Definition attrs (l : list (string * string)) : gmap string string := list_to_map l.

(** A page with scripts, styles, comments, handlers and chrome. *)
Definition sample_page : document :=
  [Directive "!doctype" "!DOCTYPE html";
   Element "html" (attrs [("lang", "en")])
     [Element "head" ∅
        [Element "title" ∅ [Text "Part 1: The Beginning"];
         Element "meta" (attrs [("name", "description"); ("content", " A page ")]) [];
         Element "link" (attrs [("rel", "canonical"); ("href", "/p")]) [];
         Element "style" ∅ [Text "p { color: red }"]];
      Element "body" (attrs [("class", "home"); ("onload", "init()")])
        [Comment " tracking ";
         Element "header" ∅ [Element "nav" ∅ [Element "a" (attrs [("href", "/")]) [Text "Home"]]];
         Element "main" (attrs [("id", "main"); ("data-x", "1"); ("style", "margin:0")])
           [Element "p" (attrs [("class", "lead"); ("onclick", "go()")])
              [Text "Hello "; Element "b" ∅ [Text "world"]];
            Element "link" (attrs [("rel", "alternate"); ("href", "/feed")]) [];
            Element "script" ∅ [Text "alert(1)"];
            Element "div" (attrs [("role", "search")]) [Text "find"]];
         Element "footer" ∅ [Text "bye"]]]].

Definition markup_options : WwwaxeOptions :=
  {| keepDataAttributes := None; keepIds := None; keepClasses := None;
     keepAriaHidden := None; markdown := Some false; core := None |}.

Definition core_options : WwwaxeOptions :=
  {| keepDataAttributes := None; keepIds := None; keepClasses := None;
     keepAriaHidden := None; markdown := Some false; core := Some true |}.

(** No-break spaces around the description. *)
Definition nbsp_description_page : document :=
  [Element "html" ∅
     [Element "head" ∅
        [Element "meta"
           (attrs [("name", "description");
                   ("content", String 160 ("Real" +:+ String 160 ""))]) []];
      Element "body" ∅ [Element "p" ∅ [Text "Hi"]]]].

(** Markup in the description. *)
Definition script_description_page : document :=
  [Element "html" ∅
     [Element "head" ∅
        [Element "meta"
           (attrs [("name", "description");
                   ("content", "<script>alert(1)</script><!-- c -->")]) []];
      Element "body" ∅ [Element "p" ∅ [Text "Hi"]]]].

(** A page of the usual shape with a title, a canonical link in the head
    and an inline wrapper in the text; what a parser reads of the text
    [wwwaxe] returns for it, the frontmatter block as a text node and the
    two texts of the paragraph as one; and a parser and a serializer that
    know these only. *)
Definition usual_page : document :=
  [Directive "!doctype" "!DOCTYPE html";
   Element "html" ∅
     [Element "head" ∅
        [Element "title" ∅ [Text "T"];
         Element "link" (attrs [("rel", "canonical"); ("href", "/p")]) []];
      Element "body" ∅
        [Element "p" (attrs [("id", "x")]) [Text "a"; Element "span" ∅ [Text "b"]]]]].







(** A skip link spelled with the Kelvin sign (U+212A), whose lower case is
    the letter k. *)
Definition kelvin_skip_page : document :=
  [Element "a" (attrs [("href", "#start")]) [Text (String 83 (String 8490 "IP"))];
   Element "div" (attrs [("id", "start")]) [Element "p" ∅ [Text "Body"]];
   Element "div" (attrs [("id", "content")]) [Element "p" ∅ [Text "Other"]]].

Definition blank_description_page : document :=
  [Element "html" ∅
     [Element "head" ∅
        [Element "meta" (attrs [("name", "description"); ("content", "  ")]) [];
         Element "meta" (attrs [("name", "description"); ("content", "Real")]) []];
      Element "body" ∅ [Element "p" ∅ [Text "Hi"]]]].

Definition code_block : node :=
  Element "pre" ∅ [Element "code" (attrs [("class", "language-js")]) [Text "const x = 1;"]].

Definition hidden_canonical : node :=
  Element "link" (attrs [("rel", "canonical"); ("href", "/p"); ("hidden", "")]) [].

Definition hidden_banner : node :=
  Element "div" (attrs [("style", "color:red; display:none")])
    [Element "p" ∅ [Text "Subscribe!"]].

Definition two_skip_links : document :=
  [Element "a" (attrs [("href", "#")]) [Text "Skip"];
   Element "a" (attrs [("href", "#start")]) [Text "Skip to content"];
   Element "div" (attrs [("id", "start")]) [Element "p" ∅ [Text "Body"]];
   Element "div" (attrs [("id", "content")]) [Element "p" ∅ [Text "Other"]]].


Definition plain_page : document :=
  [Directive "!doctype" "!DOCTYPE html";
   Element "html" (attrs [("lang", "en")])
     [Element "head" ∅
        [Element "title" ∅ [Text "T"];
         Element "link" (attrs [("rel", "stylesheet"); ("href", "/s.css")]) []];
      Text "
  ";
      Element "body" (attrs [("class", "home")])
        [Comment "x";
         Element "div" (attrs [("class", "wrap")])
           [Element "h1" (attrs [("id", "top")]) [Text "  Title   here "];
            Element "p" ∅ [Text "a"; Element "span" ∅ [Text "b"]; Text "     "];
            Element "p" ∅ [Text " "]]]]].

(** ** The string tests are the ones of the language *)

Section string_tests.

Lemma string_eqb_refl (s : string) : Str.eqb s s = true.
Proof. induction s as [|c r IH]; simpl; [reflexivity|]. rewrite N.eqb_refl. exact IH. Qed.

Lemma string_eqb_eq (s1 s2 : string) : Str.eqb s1 s2 = true <-> s1 = s2.
Proof.
  split; [|intros ->; apply string_eqb_refl].
  revert s2. induction s1 as [|c r IH]; intros [|d q]; simpl; try discriminate;
    [reflexivity|].
  intros H. apply andb_prop in H as [Hc Hr]. apply N.eqb_eq in Hc.
  rewrite Hc, (IH q Hr). reflexivity.
Qed.

Lemma string_eqb_neq (s1 s2 : string) : Str.eqb s1 s2 = false <-> s1 <> s2.
Proof.
  rewrite <- string_eqb_eq. destruct (Str.eqb s1 s2); split; congruence.
Qed.

Lemma string_eqb_spec (s1 s2 : string) : reflect (s1 = s2) (Str.eqb s1 s2).
Proof.
  destruct (Str.eqb s1 s2) eqn:E; constructor.
  - apply string_eqb_eq, E.
  - apply string_eqb_neq, E.
Qed.

Lemma string_app_cons (c : N) (x y : string) : String c x +:+ y = String c (x +:+ y).
Proof. reflexivity. Qed.







Lemma startsWith_spec (p s : string) :
  Str.startsWith p s = true <-> exists r, s = p +:+ r.
Proof.
  revert s. induction p as [|a p IH]; intros s; simpl.
  - split; [intros _; exists s; reflexivity | reflexivity].
  - destruct s as [|b s]; [split; [discriminate | intros [r [=]]]|].
    split.
    + intros H. apply andb_prop in H as [Hab H]. apply N.eqb_eq in Hab. subst b.
      apply IH in H as [r ->]. exists r. reflexivity.
    + intros [r [= -> ->]]. rewrite N.eqb_refl. apply IH. exists r. reflexivity.
Qed.

Lemma includes_spec (p s : string) :
  Str.includes p s = true <-> exists before after, s = before +:+ p +:+ after.
Proof.
  induction s as [|c s IH]; simpl.
  - rewrite orb_false_r, startsWith_spec. split.
    + intros [r H]. exists "", r. exact H.
    + intros (b & a & H). destruct b; [exists a; exact H | discriminate].
  - split.
    + intros H. apply orb_prop in H as [H|H].
      * apply startsWith_spec in H as [r H]. exists "", r. exact H.
      * apply IH in H as (b & a & ->). exists (String c b), a. reflexivity.
    + intros (b & a & H). apply orb_true_iff. destruct b as [|c' b].
      * left. apply startsWith_spec. exists a. exact H.
      * right. injection H as _ H. apply IH. exists b, a. exact H.
Qed.

Lemma string_app_assoc (x y z : string) : (x +:+ y) +:+ z = x +:+ (y +:+ z).
Proof.
  induction x as [|c r IH]; [reflexivity|]. rewrite !string_app_cons, IH. reflexivity.
Qed.

Lemma includes_prefix (p x w : string) :
  Str.includes p x = true -> Str.includes p (x +:+ w) = true.
Proof.
  rewrite !includes_spec. intros (b & a & ->). exists b, (a +:+ w).
  rewrite !string_app_assoc. reflexivity.
Qed.

End string_tests.

(** * Properties *)

(** ** What a tree contains *)

Section inclusion.

Lemma incl_flat_map_pointwise {A B : Type} (f g : A -> list B) (l : list A) :
  Forall (fun x => incl (f x) (g x)) l -> incl (flat_map f l) (flat_map g l).
Proof.
  induction 1 as [|x r Hx _ IH]; simpl.
  - apply incl_refl.
  - apply incl_app; [apply incl_appl | apply incl_appr]; assumption.
Qed.

Lemma incl_flat_map_member {A B : Type} (f : A -> list B) (l : list A) (x : A) :
  In x l -> incl (f x) (flat_map f l).
Proof.
  intros Hx y Hy. apply in_flat_map. exists x. split; assumption.
Qed.

Lemma atomsDoc_app (d1 d2 : document) :
  atomsDoc (d1 ++ d2) = atomsDoc d1 ++ atomsDoc d2.
Proof. unfold atomsDoc. apply flat_map_app. Qed.

Lemma atoms_children (n : node) : incl (atomsDoc (getChildren n)) (atoms n).
Proof.
  destruct n; simpl; [apply incl_tl, incl_refl | apply incl_nil_l ..].
Qed.

(** A pass that maps each node to a list of nodes. *)
Lemma atomsDoc_flat_map (f : node -> list node) (doc : document) :
  Forall (fun n => incl (atomsDoc (f n)) (atoms n)) doc ->
  incl (atomsDoc (flat_map f doc)) (atomsDoc doc).
Proof.
  induction 1 as [|x r Hx _ IH]; simpl.
  - apply incl_refl.
  - rewrite atomsDoc_app.
    apply incl_app; [apply incl_appl | apply incl_appr]; assumption.
Qed.

(** A pass that maps each node to one node. *)
Lemma atomsDoc_map (f : node -> node) (doc : document) :
  Forall (fun n => incl (atoms (f n)) (atoms n)) doc ->
  incl (atomsDoc (map f doc)) (atomsDoc doc).
Proof.
  intros H. unfold atomsDoc. rewrite flat_map_concat_map, map_map.
  rewrite <- flat_map_concat_map.
  apply incl_flat_map_pointwise. exact H.
Qed.

Lemma first_some_member {A B : Type} (f : A -> option B) (l : list A) (y : B) :
  first_some f l = Some y -> exists x, In x l /\ f x = Some y.
Proof.
  induction l as [|x r IH]; simpl; [discriminate|].
  destruct (f x) as [z|] eqn:E.
  - intros [= <-]. exists x. auto.
  - intros H. destruct (IH H) as (x' & Hin & Hx'). exists x'. auto.
Qed.

Lemma findElement_atoms (tagName : string) (n e : node) :
  findElement tagName n = Some e -> incl (atoms e) (atoms n).
Proof.
  revert e. induction n as [t a cs IH| | |] using node_ind'; simpl; try discriminate.
  intros e. destruct (Str.eqb _ _).
  - intros [= <-]. apply incl_refl.
  - intros H. apply first_some_member in H as (c & Hin & Hc).
    rewrite List.Forall_forall in IH.
    apply incl_tl. eapply incl_tran; [apply (IH c Hin e Hc)|].
    apply (incl_flat_map_member atoms cs c Hin).
Qed.

Lemma findElementDoc_atoms (tagName : string) (doc : document) (e : node) :
  findElementDoc tagName doc = Some e -> incl (atoms e) (atomsDoc doc).
Proof.
  intros H. apply first_some_member in H as (c & Hin & Hc).
  eapply incl_tran; [apply (findElement_atoms _ _ _ Hc)|].
  apply (incl_flat_map_member atoms doc c Hin).
Qed.

Lemma findById_atoms (id : string) (n e : node) :
  findById id n = Some e -> incl (atoms e) (atoms n).
Proof.
  revert e. induction n as [t a cs IH| | |] using node_ind'; simpl; try discriminate.
  intros e. destruct (bool_decide _).
  - intros [= <-]. apply incl_refl.
  - intros H. apply first_some_member in H as (c & Hin & Hc).
    rewrite List.Forall_forall in IH.
    apply incl_tl. eapply incl_tran; [apply (IH c Hin e Hc)|].
    apply (incl_flat_map_member atoms cs c Hin).
Qed.

Lemma findByIdDoc_atoms (id : string) (doc : document) (e : node) :
  findByIdDoc id doc = Some e -> incl (atoms e) (atomsDoc doc).
Proof.
  intros H. apply first_some_member in H as (c & Hin & Hc).
  eapply incl_tran; [apply (findById_atoms _ _ _ Hc)|].
  apply (incl_flat_map_member atoms doc c Hin).
Qed.

End inclusion.

(** ** The passes after the pruner add nothing *)

Section passes.

Lemma removeChrome_atoms (n : node) : incl (atomsDoc (removeChrome n)) (atoms n).
Proof.
  induction n as [t a cs IH| | |] using node_ind';
    try (unfold atomsDoc; simpl; rewrite ?app_nil_r; apply incl_refl).
  simpl. destruct (isChrome t a); simpl; [apply incl_nil_l|].
  rewrite app_nil_r. apply incl_cons; [left; reflexivity|].
  apply incl_tl. apply (atomsDoc_flat_map removeChrome cs IH).
Qed.

Lemma removeChromeElements_atoms (doc : document) :
  incl (atomsDoc (removeChromeElements doc)) (atomsDoc doc).
Proof.
  apply atomsDoc_flat_map, List.Forall_forall. intros n _. apply removeChrome_atoms.
Qed.

Lemma rewrite_first_atoms (g : node -> option (list node)) (l l' : list node) :
  Forall (fun n => forall r, g n = Some r -> incl (atomsDoc r) (atoms n)) l ->
  rewrite_first g l = Some l' -> incl (atomsDoc l') (atomsDoc l).
Proof.
  intros H. revert l'. induction H as [|x r Hx _ IH]; simpl; [discriminate|].
  intros l'. destruct (g x) as [new|] eqn:E.
  - intros [= <-]. rewrite atomsDoc_app.
    apply incl_app; [apply incl_appl, Hx; reflexivity | apply incl_appr, incl_refl].
  - destruct (rewrite_first g r) as [r'|]; [|discriminate].
    intros [= <-]. simpl.
    apply incl_app; [apply incl_appl, incl_refl | apply incl_appr, IH; reflexivity].
Qed.

Lemma replaceFirst_atoms (tagName : string) (f : node -> list node) :
  (forall m, incl (atomsDoc (f m)) (atoms m)) ->
  forall n r, replaceFirst tagName f n = Some r -> incl (atomsDoc r) (atoms n).
Proof.
  intros Hf n.
  induction n as [t a cs IH| | |] using node_ind'; simpl; try discriminate.
  intros r. destruct (Str.eqb _ _).
  - intros [= <-]. apply Hf.
  - destruct (rewrite_first _ cs) as [cs'|] eqn:E; [|discriminate].
    intros [= <-]. simpl. rewrite app_nil_r.
    apply incl_cons; [left; reflexivity|].
    apply incl_tl. exact (rewrite_first_atoms _ cs cs' IH E).
Qed.

Lemma replaceFirstDoc_atoms (tagName : string) (f : node -> list node) (doc : document) :
  (forall m, incl (atomsDoc (f m)) (atoms m)) ->
  incl (atomsDoc (replaceFirstDoc tagName f doc)) (atomsDoc doc).
Proof.
  intros Hf. unfold replaceFirstDoc.
  destruct (rewrite_first _ doc) as [doc'|] eqn:E; simpl; [|apply incl_refl].
  apply (rewrite_first_atoms (replaceFirst tagName f) doc doc'); [|exact E].
  apply List.Forall_forall. intros n _ r. apply replaceFirst_atoms, Hf.
Qed.

Lemma unwrapDocumentBody_atoms (cs : list node) :
  incl (atomsDoc (unwrapDocumentBody cs)) (atomsDoc cs).
Proof.
  unfold unwrapDocumentBody.
  assert (H1 : incl (atomsDoc
              (match first_some (findElement "head") cs with
               | Some _ => replaceFirstDoc "head" (fun _ => []) cs
               | None => cs
               end)) (atomsDoc cs)).
  { destruct (first_some (findElement "head") cs); [|apply incl_refl].
    apply replaceFirstDoc_atoms. intros m. apply incl_nil_l. }
  destruct (first_some (findElement "body") cs); [|exact H1].
  destruct (body_below_head cs); [exact H1|].
  eapply incl_tran; [|exact H1].
  apply replaceFirstDoc_atoms. intros m. apply atoms_children.
Qed.

Lemma removeDocumentWrappers_atoms (doc : document) :
  incl (atomsDoc (removeDocumentWrappers doc)) (atomsDoc doc).
Proof.
  unfold removeDocumentWrappers.
  destruct (findElementDoc "html" doc); [|apply incl_refl].
  apply replaceFirstDoc_atoms. intros m.
  eapply incl_tran; [apply unwrapDocumentBody_atoms | apply atoms_children].
Qed.

Lemma findElements_atoms (p : node -> bool) (n e : node) :
  In e (findElements p n) -> incl (atoms e) (atoms n).
Proof.
  revert e. induction n as [t a cs IH| | |] using node_ind'; simpl; try tauto.
  intros e He. apply in_app_or in He as [He|He].
  - destruct (p _); [|destruct He]. destruct He as [<-|[]]. apply incl_refl.
  - apply in_flat_map in He as (c & Hin & Hc).
    rewrite List.Forall_forall in IH.
    apply incl_tl. eapply incl_tran; [apply (IH c Hin e Hc)|].
    apply (incl_flat_map_member atoms cs c Hin).
Qed.

Lemma findCoreContent_atoms (doc : document) (e : node) :
  findCoreContent doc = Some e -> incl (atoms e) (atomsDoc doc).
Proof.
  unfold findCoreContent.
  destruct (findElementDoc "article" doc) as [art|] eqn:Ea.
  - intros [= <-]. exact (findElementDoc_atoms _ _ _ Ea).
  - destruct (first_some (skipTarget doc) _) as [tgt|] eqn:Es.
    + intros [= <-]. apply first_some_member in Es as (l & _ & Hl).
      unfold skipTarget in Hl. destruct (Str.truthy _); [|discriminate].
      exact (findByIdDoc_atoms _ _ _ Hl).
    + intros H. apply first_some_member in H as (id & _ & Hid).
      exact (findByIdDoc_atoms _ _ _ Hid).
Qed.

Lemma stripChrome_atoms (doc : document) :
  incl (atomsDoc (stripChrome doc)) (atomsDoc (removeChromeElements doc)).
Proof.
  unfold stripChrome.
  destruct (findMain _); [apply incl_refl|].
  destruct (findCoreContent _) as [e|] eqn:E; [|apply incl_refl].
  unfold atomsDoc at 1. simpl. rewrite app_nil_r.
  exact (findCoreContent_atoms _ _ E).
Qed.

Lemma collapseWhitespace_atoms (n : node) : atoms (collapseWhitespace n) = atoms n.
Proof.
  induction n as [t a cs IH| | |] using node_ind'; simpl; try reflexivity.
  f_equal. induction IH as [|x r Hx _ IHr]; simpl; [reflexivity|].
  rewrite Hx, IHr. reflexivity.
Qed.

Lemma cleanTextNode_atoms (n : node) : atoms (cleanTextNode n) = atoms n.
Proof.
  induction n as [t a cs IH| | |] using node_ind'; simpl; try reflexivity.
  f_equal. induction IH as [|x r Hx _ IHr]; simpl; [reflexivity|].
  rewrite Hx, IHr. reflexivity.
Qed.

Lemma rewriteTag_atoms (b : bool) (el : node) : incl (atoms (rewriteTag b el)) (atoms el).
Proof.
  destruct el as [t a cs| | |]; try apply incl_refl.
  unfold rewriteTag.
  repeat match goal with
         | |- context [if ?c then _ else _] => destruct c
         | |- context [match heading_level ?x with _ => _ end] =>
             destruct (heading_level x)
         end;
    first [apply incl_nil_l | apply incl_refl].
Qed.

Lemma markdownRewrite_Element (b : bool) t a cs :
  markdownRewrite b (Element t a cs)
  = rewriteTag b
      (Element t a (map (markdownRewrite (Str.eqb (Str.toLowerCase t) "pre")) cs)).
Proof. reflexivity. Qed.

Lemma markdownRewrite_atoms (b : bool) (n : node) :
  incl (atoms (markdownRewrite b n)) (atoms n).
Proof.
  revert b. induction n as [t a cs IH| | |] using node_ind'; intros b;
    try apply incl_refl.
  rewrite markdownRewrite_Element.
  eapply incl_tran; [apply rewriteTag_atoms|]. simpl.
  apply incl_cons; [left; reflexivity|]. apply incl_tl.
  apply atomsDoc_map. eapply List.Forall_impl; [|exact IH]. intros c Hc. apply Hc.
Qed.

End passes.

(** ** The wrapper remover on examples *)

Example wrappers_of_a_page :
  removeDocumentWrappers
    [Directive "!doctype" "!DOCTYPE html";
     Element "html" ∅
       [Element "head" ∅ [Element "title" ∅ [Text "T"]];
        Element "body" ∅ [Element "p" ∅ [Text "Hi"]; Text "tail"]]]
  = [Directive "!doctype" "!DOCTYPE html"; Element "p" ∅ [Text "Hi"]; Text "tail"].
Proof. vm_compute. reflexivity. Qed.

(** The [head] is looked for at any depth, and inside the [body] too. *)
Example head_inside_body :
  removeDocumentWrappers
    [Element "html" ∅
       [Element "body" ∅ [Element "p" ∅ [Text "Hi"]; Element "head" ∅ [Text "x"]]]]
  = [Element "p" ∅ [Text "Hi"]].
Proof. vm_compute. reflexivity. Qed.

(** The [body] found first lies in the [head]: it goes with the [head], and
    the [body] that follows is not the one that was looked up. *)
Example body_inside_head :
  removeDocumentWrappers
    [Element "html" ∅
       [Element "head" ∅ [Element "body" ∅ [Text "T"]];
        Element "body" ∅ [Element "p" ∅ [Text "Hi"]]]]
  = [Element "body" ∅ [Element "p" ∅ [Text "Hi"]]].
Proof. vm_compute. reflexivity. Qed.

(** A fragment has no [html] element and is left as it is. *)
Example wrappers_of_a_fragment :
  removeDocumentWrappers [Element "body" ∅ [Element "p" ∅ [Text "Hi"]]]
  = [Element "body" ∅ [Element "p" ∅ [Text "Hi"]]].
Proof. vm_compute. reflexivity. Qed.

(** ** What the pruner leaves *)

Section pruner.

Variable options : WwwaxeOptions.
Variable unwrapTags : gset string.

Lemma sanitized_incl (o1 o2 : list atom) (x : atom) :
  incl o1 o2 -> sanitized options o1 x -> sanitized options o2 x.
Proof.
  intros Hi (t & a & -> & Hin & Ht). exists t, a. auto.
Qed.

Lemma processNode_Element t a cs :
  processNode options unwrapTags (Element t a cs)
  = let tag := Str.toLowerCase t in
    if has REMOVE_TAGS tag then
      if Str.eqb tag "link" && isUsefulLink a
      then [Element t (stripAttributes a options) cs]
      else []
    else if isHidden a options then []
    else if Str.eqb tag "meta" && negb (isUsefulMeta a) then []
    else
      let cs' := flat_map (processNode options unwrapTags) cs in
      let a' := stripAttributes a options in
      let node' := Element t a' cs' in
      let sweep :=
        if negb (has voidElements tag) && negb (has headElements tag)
           && negb (hasMeaningfulContent node')
        then []
        else [node'] in
      if negb (has KEEP_TAGS tag) then
        if has unwrapTags tag && negb (hasContentAttributes a' options)
        then cs'
        else if negb (hasMeaningfulContent node') then []
        else sweep
      else sweep.
Proof. reflexivity. Qed.

Lemma processNode_children_sanitized (cs : list node) :
  Forall (fun c => link_void c = true ->
                   forall x, In x (atomsDoc (processNode options unwrapTags c)) ->
                             sanitized options (atoms c) x) cs ->
  forallb link_void cs = true ->
  forall x, In x (atomsDoc (flat_map (processNode options unwrapTags) cs)) ->
            sanitized options (atomsDoc cs) x.
Proof.
  induction 1 as [|c r Hc _ IH]; simpl; [tauto|].
  intros Hv x. apply andb_prop in Hv as [Hv1 Hv2].
  rewrite atomsDoc_app. intros Hx. apply in_app_or in Hx as [Hx|Hx].
  - eapply sanitized_incl; [|apply (Hc Hv1 x Hx)]. apply incl_appl, incl_refl.
  - eapply sanitized_incl; [|apply (IH Hv2 x Hx)]. apply incl_appr, incl_refl.
Qed.

Lemma processNode_sanitized (n : node) :
  link_void n = true ->
  forall x, In x (atomsDoc (processNode options unwrapTags n)) ->
            sanitized options (atoms n) x.
Proof.
  induction n as [t a cs IH| | |] using node_ind'; try (simpl; tauto).
  intros Hv. simpl in Hv. apply andb_prop in Hv as [Hlink Hv].
  pose proof (processNode_children_sanitized cs IH Hv) as Hcs.
  assert (Hkids : forall x,
             In x (atomsDoc (flat_map (processNode options unwrapTags) cs)) ->
             sanitized options (atoms (Element t a cs)) x).
  { intros x Hx. eapply sanitized_incl; [|apply (Hcs x Hx)].
    simpl. apply incl_tl, incl_refl. }
  rewrite processNode_Element. cbv zeta.
  destruct (has REMOVE_TAGS (Str.toLowerCase t)) eqn:Hrem.
  - destruct (Str.eqb (Str.toLowerCase t) "link") eqn:Hl; simpl; [|tauto].
    destruct (isUsefulLink a) eqn:Hu; simpl; [|tauto].
    destruct cs; [|discriminate]. simpl.
    intros x [<-|[]]. exists t, a. split; [reflexivity|]. split; [left; reflexivity|].
    right. split; [apply string_eqb_eq, Hl | exact Hu].
  - assert (Hself : forall x,
               In x (atomsDoc
                       [Element t (stripAttributes a options)
                          (flat_map (processNode options unwrapTags) cs)]) ->
               sanitized options (atoms (Element t a cs)) x).
    { unfold atomsDoc at 1. simpl. rewrite app_nil_r. intros x [<-|Hx].
      - exists t, a. split; [reflexivity|]. split; [left; reflexivity|].
        left. exact Hrem.
      - apply Hkids, Hx. }
    repeat match goal with
           | |- context [if ?c then _ else _] => destruct c
           end;
      first [exact Hself | exact Hkids | simpl; tauto].
Qed.

Lemma prune_children_sanitized (doc : document) :
  links_void doc = true ->
  forall x, In x (atomsDoc (flat_map (processNode options unwrapTags) doc)) ->
            sanitized options (atomsDoc doc) x.
Proof.
  intros Hv. apply processNode_children_sanitized; [|exact Hv].
  apply List.Forall_forall. intros n _. apply processNode_sanitized.
Qed.

End pruner.

(** Every element handed to the serializer is a sanitized element of the
    input; no comment is. *)
Lemma wwwaxe_tree_sanitized (options : WwwaxeOptions) (doc : document) :
  links_void doc = true ->
  forall x, In x (atomsDoc (wwwaxe_tree options doc)) ->
            sanitized options (atomsDoc doc) x.
Proof.
  intros Hv x Hx.
  apply (prune_children_sanitized options (getUnwrapTags options) doc Hv).
  revert x Hx. change (incl (atomsDoc (wwwaxe_tree options doc))
    (atomsDoc (flat_map (processNode options (getUnwrapTags options)) doc))).
  unfold wwwaxe_tree. cbv zeta.
  set (d1 := flat_map _ doc).
  assert (H2 : incl (atomsDoc (removeDocumentWrappers d1)) (atomsDoc d1))
    by apply removeDocumentWrappers_atoms.
  set (d2 := removeDocumentWrappers d1) in *.
  assert (H3 : incl (atomsDoc (if flag (core options) then stripChrome d2 else d2))
                 (atomsDoc d1)).
  { destruct (flag _); [|exact H2].
    eapply incl_tran; [apply stripChrome_atoms|].
    eapply incl_tran; [apply removeChromeElements_atoms | exact H2]. }
  set (d3 := if flag (core options) then _ else _) in *.
  assert (H5 : incl (atomsDoc (map cleanTextNode (map collapseWhitespace d3)))
                 (atomsDoc d1)).
  { eapply incl_tran; [|exact H3].
    eapply incl_tran.
    - apply atomsDoc_map, List.Forall_forall. intros n _.
      rewrite cleanTextNode_atoms. apply incl_refl.
    - apply atomsDoc_map, List.Forall_forall. intros n _.
      rewrite collapseWhitespace_atoms. apply incl_refl. }
  destruct (not_false _); [|exact H5].
  eapply incl_tran; [|exact H5].
  apply atomsDoc_map, List.Forall_forall. intros n _. apply markdownRewrite_atoms.
Qed.

(** ** The sanitizer, attribute by attribute *)

Section sanitizer.

Variable options : WwwaxeOptions.

Lemma stripAttributes_lookup (a : gmap string string) (k : string) :
  stripAttributes a options !! k
  = if keeps_attribute options k then a !! k else None.
Proof.
  unfold stripAttributes.
  destruct (keeps_attribute options k) eqn:E.
  - destruct (a !! k) as [v|] eqn:Ea.
    + apply map_lookup_filter_Some. split; [exact Ea | exact E].
    + apply map_lookup_filter_None. left. exact Ea.
  - apply map_lookup_filter_None. right. intros v _. simpl. rewrite E. discriminate.
Qed.





Lemma keeps_rel (k : string) :
  Str.toLowerCase k = "rel" -> keeps_attribute options k = false.
Proof. intros H. unfold keeps_attribute. rewrite H. vm_compute. reflexivity. Qed.


End sanitizer.


Example sample_page_pruned :
  wwwaxe_tree markup_options sample_page
  = [Directive "!doctype" "!DOCTYPE html";
     Element "header" ∅ [Element "nav" ∅ [Element "a" (attrs [("href", "/")]) [Text "Home"]]];
     Element "main" (attrs [("id", "main")])
       [Element "p" ∅ [Text "Hello "; Text "world"];
        Element "link" (attrs [("href", "/feed")]) [];
        Element "div" (attrs [("role", "search")]) [Text "find"]];
     Element "footer" ∅ [Text "bye"]].
Proof. vm_compute. reflexivity. Qed.

Example sample_page_core :
  wwwaxe_tree core_options sample_page
  = [Directive "!doctype" "!DOCTYPE html";
     Element "main" (attrs [("id", "main")])
       [Element "p" ∅ [Text "Hello "; Text "world"];
        Element "link" (attrs [("href", "/feed")]) []]].
Proof. vm_compute. reflexivity. Qed.

(** White space is that of [trim]: a paragraph that holds a no-break space
    only has no meaningful content and is removed. *)
Example nbsp_paragraph_removed :
  prune default_options [Element "p" ∅ [Text (String 160 "")]; Element "p" ∅ [Text "x"]]
  = [Element "p" ∅ [Text "x"]].
Proof. vm_compute. reflexivity. Qed.

(** ** Removed tags and comments (C1) *)

(** The frontmatter block copies the description as it stands: markup
    and comment text in it reach the returned text, whatever the
    serializer makes of the tree. *)
Lemma C1_counterexample :
  links_void script_description_page = true
  /\ forall render options html,
      Str.includes "<script>alert(1)</script><!-- c -->"
        (wwwaxe (fun _ => script_description_page) render options html) = true.
Proof.
  split; [reflexivity|]. intros render options html. unfold wwwaxe. cbv zeta.
  set (fm := wwwaxe_frontmatter script_description_page).
  assert (Ht : Str.truthy fm = true) by (vm_compute; reflexivity).
  assert (Hi : Str.includes "<script>alert(1)</script><!-- c -->" fm = true)
    by (vm_compute; reflexivity).
  rewrite Ht. apply includes_prefix. exact Hi.
Qed.

(** C1, amended.  Whatever the configuration, the pruner puts nothing at
    the place of a [script], [style], [noscript], [svg], [iframe] or
    [template] element, which goes with all that is below it, nor at the
    place of a comment; the tree handed to the serializer holds no such
    element and no comment node, at any depth; and the text [wwwaxe]
    returns is the serialization of that tree after the passes over the
    text, with the frontmatter block before it when there is one.  The
    input is a tree of the parser, in which a [link] element has no
    children. *)
Theorem C1_no_removed_tag_no_comment :
  (forall options unwrapTags t a cs,
      In (Str.toLowerCase t)
        ["script"; "style"; "noscript"; "svg"; "iframe"; "template"] ->
      processNode options unwrapTags (Element t a cs) = [])
  /\ (forall options unwrapTags s, processNode options unwrapTags (Comment s) = [])
  /\ (forall options doc,
         links_void doc = true ->
         List.Forall
           (fun x =>
              match x with
              | AElem t _ =>
                  ~ In (Str.toLowerCase t)
                      ["script"; "style"; "noscript"; "svg"; "iframe"; "template"]
              | AComment _ => False
              end)
           (atomsDoc (wwwaxe_tree options doc)))
  /\ (forall parseDocument render options html,
         links_void (parseDocument html) = true ->
         exists tree,
           List.Forall
             (fun x =>
                match x with
                | AElem t _ =>
                    ~ In (Str.toLowerCase t)
                        ["script"; "style"; "noscript"; "svg"; "iframe"; "template"]
                | AComment _ => False
                end)
             (atomsDoc tree)
           /\ wwwaxe parseDocument render options html
              = let body := postprocess (not_false (markdown options)) (render tree) in
                let frontmatter := wwwaxe_frontmatter (parseDocument html) in
                if Str.truthy frontmatter then frontmatter +:+ nl +:+ body else body).
Proof.
  assert (Htree : forall options doc,
             links_void doc = true ->
             List.Forall
               (fun x =>
                  match x with
                  | AElem t _ =>
                      ~ In (Str.toLowerCase t)
                          ["script"; "style"; "noscript"; "svg"; "iframe"; "template"]
                  | AComment _ => False
                  end)
               (atomsDoc (wwwaxe_tree options doc))).
  { intros options doc Hv. apply List.Forall_forall. intros x Hx.
    destruct (wwwaxe_tree_sanitized options doc Hv x Hx) as (t & a & -> & _ & Ht).
    intros Hin. destruct Ht as [Ht|[Ht _]].
    + simpl in Hin.
      repeat (destruct Hin as [Hin|Hin];
              [rewrite <- Hin in Ht; vm_compute in Ht; discriminate|]).
      exact Hin.
    + rewrite Ht in Hin. simpl in Hin.
      repeat (destruct Hin as [Hin|Hin]; [discriminate|]). exact Hin. }
  split; [|split; [|split]].
  - intros options unwrapTags t a cs Hin. rewrite processNode_Element. cbv zeta.
    simpl in Hin.
    repeat (destruct Hin as [Hin|Hin]; [rewrite <- Hin; reflexivity|]).
    destruct Hin.
  - reflexivity.
  - exact Htree.
  - intros parseDocument render options html Hv.
    exists (wwwaxe_tree options (parseDocument html)).
    split; [exact (Htree options (parseDocument html) Hv) | reflexivity].
Qed.

Lemma C1_witness :
  links_void sample_page = true
  /\ List.Forall
       (fun x =>
          match x with
          | AElem t _ =>
              ~ In (Str.toLowerCase t)
                  ["script"; "style"; "noscript"; "svg"; "iframe"; "template"]
          | AComment _ => False
          end)
       (atomsDoc (wwwaxe_tree default_options sample_page)).
Proof.
  split; [reflexivity|].
  apply (proj1 (proj2 (proj2 C1_no_removed_tag_no_comment)) default_options sample_page).
  reflexivity.
Defined.

(** ** Event handlers and style (C6) *)



(** ** class, id and data attributes (C5) *)



(** ** The rel attribute of kept links (C10) *)



(** ** Chrome (C2) *)








(** ** The description field (C7) *)

(** A [meta] named description whose content is white space determines the
    field, as the empty string, and the next one is not looked at. *)
Lemma C7_counterexample :
  fm_description (extractFrontmatter blank_description_page) = Some ""
  /\ stated_description blank_description_page = Some "Real".
Proof. split; vm_compute; reflexivity. Qed.

Lemma first_trimmed_description_found (before after : list node) (m : node) (c : string) :
  names_description m = true ->
  node_attribs m !! "content" = Some c ->
  c <> "" ->
  (forall m', In m' before -> names_description m' = true ->
              attr_truthy (node_attribs m') "content" = false) ->
  first_trimmed "name" "description" "content" (before ++ m :: after)
  = Some (Str.trim c).
Proof.
  intros Hn Hc Hne Hbefore. unfold first_trimmed.
  induction before as [|m' r IH]; simpl.
  - fold (names_description m). rewrite Hn. unfold attr_truthy, attr_or_empty.
    rewrite Hc. destruct c; [congruence|]. simpl. rewrite Hc. reflexivity.
  - fold (names_description m').
    destruct (names_description m') eqn:E; simpl.
    + rewrite (Hbefore m' (or_introl eq_refl) E).
      apply IH. intros x Hx. apply Hbefore. right. exact Hx.
    + apply IH. intros x Hx. apply Hbefore. right. exact Hx.
Qed.

Lemma first_trimmed_description_none (ms : list node) :
  (forall m, In m ms -> names_description m = true ->
             attr_truthy (node_attribs m) "content" = false) ->
  first_trimmed "name" "description" "content" ms = None.
Proof.
  intros H. unfold first_trimmed.
  induction ms as [|m r IH]; simpl; [reflexivity|].
  fold (names_description m).
  destruct (names_description m) eqn:E; simpl.
  - rewrite (H m (or_introl eq_refl) E). apply IH. intros x Hx. apply H. right. exact Hx.
  - apply IH. intros x Hx. apply H. right. exact Hx.
Qed.

Lemma trim_all_space (s : string) : Str.all_space s = true -> Str.trim s = "".
Proof.
  intros H. unfold Str.trim.
  assert (Ht : Str.trimStart s = "").
  { induction s as [|c r IH]; [reflexivity|]. simpl in *.
    destruct (Str.is_space c); [exact (IH H) | discriminate]. }
  rewrite Ht. reflexivity.
Qed.

(** The white space [trim] strips is that of the language: a no-break
    space counts. *)
Example nbsp_description :
  fm_description (extractFrontmatter nbsp_description_page) = Some "Real".
Proof. vm_compute. reflexivity. Qed.

(** C7, amended.  With [head] the first head element and the [meta]
    elements below it taken in document order, the description field is the
    trimmed [content] of the first [meta] named description (in any case)
    whose [content] attribute is present and not the empty string, white
    space included: that one determines the field even when trimming leaves
    nothing, and then the field is the empty string, for which
    [buildFrontmatter] writes no description line.  A [meta] named
    description with no [content] or an empty one is passed over, and when
    there is no other the field is absent. *)
Theorem C7_description_first_raw_nonempty (doc : document) (head : node) :
  findElementDoc "head" doc = Some head ->
  (forall before m after c,
      findElements (tag_is "meta") head = before ++ m :: after ->
      names_description m = true ->
      node_attribs m !! "content" = Some c ->
      c <> "" ->
      (forall m', In m' before -> names_description m' = true ->
                  attr_truthy (node_attribs m') "content" = false) ->
      fm_description (extractFrontmatter doc) = Some (Str.trim c)
      /\ (Str.all_space c = true ->
          fm_description (extractFrontmatter doc) = Some ""
          /\ wwwaxe_frontmatter doc
             = buildFrontmatter (without_description (extractFrontmatter doc))))
  /\ ((forall m, In m (findElements (tag_is "meta") head) ->
                 names_description m = true ->
                 attr_truthy (node_attribs m) "content" = false) ->
      fm_description (extractFrontmatter doc) = None).
Proof.
  intros Hhead. split.
  - intros before m after c Hms Hn Hc Hne Hb.
    assert (Hd : fm_description (extractFrontmatter doc) = Some (Str.trim c)).
    { unfold extractFrontmatter. rewrite Hhead. cbv zeta. simpl fm_description.
      rewrite Hms. apply first_trimmed_description_found; assumption. }
    split; [exact Hd|]. intros Hsp. rewrite (trim_all_space c Hsp) in Hd.
    split; [exact Hd|]. unfold wwwaxe_frontmatter, buildFrontmatter. cbv zeta.
    rewrite Hd. reflexivity.
  - unfold extractFrontmatter. rewrite Hhead. cbv zeta. simpl fm_description.
    apply first_trimmed_description_none.
Qed.

Lemma C7_witness :
  fm_description (extractFrontmatter blank_description_page) = Some (Str.trim "  ")
  /\ (Str.all_space "  " = true ->
      fm_description (extractFrontmatter blank_description_page) = Some ""
      /\ wwwaxe_frontmatter blank_description_page
         = buildFrontmatter (without_description (extractFrontmatter blank_description_page))).
Proof.
  refine (proj1 (C7_description_first_raw_nonempty blank_description_page
                   (Element "head" ∅
                      [Element "meta" (attrs [("name", "description"); ("content", "  ")]) [];
                       Element "meta" (attrs [("name", "description"); ("content", "Real")]) []])
                   _)
            [] (Element "meta" (attrs [("name", "description"); ("content", "  ")]) [])
            [Element "meta" (attrs [("name", "description"); ("content", "Real")]) []]
            "  " _ _ _ _ _).
  - vm_compute. reflexivity.
  - vm_compute. reflexivity.
  - vm_compute. reflexivity.
  - vm_compute. reflexivity.
  - discriminate.
  - intros m' [].
Defined.

(** ** Preformatted blocks (C8) *)

Lemma rewriteTag_pre (b : bool) t a cs :
  Str.toLowerCase t = "pre" ->
  rewriteTag b (Element t a cs)
  = Text (fenced
            match cs with
            | [c] => if tag_is "code" c then getMdTextContent c
                     else getMdTextContent (Element t a cs)
            | _ => getMdTextContent (Element t a cs)
            end).
Proof. intros H. unfold rewriteTag. rewrite H. reflexivity. Qed.

Lemma rewriteTag_code_in_pre t a cs :
  Str.toLowerCase t = "code" ->
  rewriteTag true (Element t a cs) = Element t a cs.
Proof. intros H. unfold rewriteTag. rewrite H. reflexivity. Qed.

Lemma rewriteTag_keeps_tag (b : bool) t a cs :
  rewriteTag b (Element t a cs) = Element t a cs
  \/ exists s, rewriteTag b (Element t a cs) = Text s.
Proof.
  unfold rewriteTag.
  repeat match goal with
         | |- context [if ?c then _ else _] => destruct c
         | |- context [match heading_level ?x with _ => _ end] =>
             destruct (heading_level x)
         end;
    first [left; reflexivity | right; eexists; reflexivity].
Qed.

Lemma markdownRewrite_tag_is (b : bool) (tagName : string) (n : node) :
  tag_is tagName (markdownRewrite b n) = true -> tag_is tagName n = true.
Proof.
  destruct n as [t a cs| | |]; try (simpl; congruence).
  rewrite markdownRewrite_Element.
  destruct (rewriteTag_keeps_tag b t a
              (map (markdownRewrite (Str.eqb (Str.toLowerCase t) "pre")) cs))
    as [->|[s ->]]; simpl; congruence.
Qed.

Lemma markdownRewrite_no_pre (b : bool) (n : node) :
  List.Forall
    (fun x => match x with
              | AElem t _ => Str.toLowerCase t <> "pre"
              | AComment _ => True
              end)
    (atoms (markdownRewrite b n)).
Proof.
  revert b. induction n as [t a cs IH| | |] using node_ind'; intros b;
    try solve [simpl; repeat constructor].
  rewrite markdownRewrite_Element.
  destruct (string_eqb_spec (Str.toLowerCase t) "pre") as [E|E].
  - rewrite (rewriteTag_pre _ _ _ _ E). constructor.
  - destruct (rewriteTag_keeps_tag b t a (map (markdownRewrite false) cs))
      as [->|[s ->]]; [|constructor].
    simpl. constructor; [exact E|].
    clear E. induction IH as [|c r Hc _ IHr]; simpl; [constructor|].
    apply List.Forall_app. split; [apply Hc | exact IHr].
Qed.

(** C8.  The markdown rewriter puts, at the place of a [pre] element, the
    one text node made of a line feed, three backticks, a line feed, the
    text, a line feed, three backticks and a line feed.  The text is that
    of the [code] child, as the bottom-up pass left it, when this is the
    only child; otherwise it is the concatenated text of the [pre]
    element's children, as the pass left them.  A [code] element whose
    parent is a [pre] is left in place by its own rule, its children
    rewritten.  No [pre] element is left anywhere in the result. *)
Theorem C8_pre_becomes_fenced_text :
  (forall b t a cs,
      Str.toLowerCase t = "pre" ->
      (forall c, cs = [c] -> tag_is "code" c = true ->
                 markdownRewrite b (Element t a cs)
                 = Text (nl +:+ TRIPLE_BACKTICK +:+ nl
                         +:+ getMdTextContent (markdownRewrite true c)
                         +:+ nl +:+ TRIPLE_BACKTICK +:+ nl))
      /\ ((forall c, cs = [c] -> tag_is "code" c = false) ->
          markdownRewrite b (Element t a cs)
          = Text (nl +:+ TRIPLE_BACKTICK +:+ nl
                  +:+ Str.concat ""
                        (map getMdTextContent (map (markdownRewrite true) cs))
                  +:+ nl +:+ TRIPLE_BACKTICK +:+ nl)))
  /\ (forall t a cs,
         Str.toLowerCase t = "code" ->
         markdownRewrite true (Element t a cs)
         = Element t a (map (markdownRewrite false) cs))
  /\ (forall doc,
         List.Forall
           (fun x => match x with
                     | AElem t _ => Str.toLowerCase t <> "pre"
                     | AComment _ => True
                     end)
           (atomsDoc (map (markdownRewrite false) doc))).
Proof.
  split; [|split].
  - intros b t a cs Hpre. rewrite markdownRewrite_Element, Hpre.
    change (Str.eqb "pre" "pre") with true.
    rewrite (rewriteTag_pre _ _ _ _ Hpre). split.
    + intros c -> Hcode. simpl map. cbv beta iota.
      destruct (tag_is "code" (markdownRewrite true c)) eqn:E; [reflexivity|].
      exfalso. destruct c as [ct ca ccs| | |]; try discriminate.
      simpl in Hcode. apply string_eqb_eq in Hcode.
      rewrite markdownRewrite_Element, (rewriteTag_code_in_pre _ _ _ Hcode) in E.
      simpl in E. rewrite Hcode in E. discriminate.
    + intros Hnot. destruct cs as [|c [|c' r]]; try reflexivity.
      simpl map. cbv beta iota.
      destruct (tag_is "code" (markdownRewrite true c)) eqn:E; [|reflexivity].
      apply markdownRewrite_tag_is in E. rewrite (Hnot c eq_refl) in E. discriminate.
  - intros t a cs Hcode. rewrite markdownRewrite_Element, Hcode.
    change (Str.eqb "code" "pre") with false.
    apply (rewriteTag_code_in_pre _ _ _ Hcode).
  - intros doc. induction doc as [|n r IH]; simpl; [constructor|].
    apply List.Forall_app. split; [apply markdownRewrite_no_pre | exact IH].
Qed.

Lemma C8_witness :
  markdownRewrite false code_block
  = Text (nl +:+ TRIPLE_BACKTICK +:+ nl +:+ "const x = 1;" +:+ nl +:+ TRIPLE_BACKTICK +:+ nl).
Proof.
  exact (proj1 (proj1 C8_pre_becomes_fenced_text false "pre" ∅
                  [Element "code" (attrs [("class", "language-js")]) [Text "const x = 1;"]]
                  eq_refl)
           (Element "code" (attrs [("class", "language-js")]) [Text "const x = 1;"])
           eq_refl eq_refl).
Defined.

(** ** Hidden elements (C9) *)

(** A hidden [link rel=canonical] stays. *)
Lemma C9_counterexample :
  isHidden (node_attribs hidden_canonical) default_options = true
  /\ processNode default_options (getUnwrapTags default_options) hidden_canonical
     = [Element "link" (attrs [("href", "/p")]) []].
Proof. split; vm_compute; reflexivity. Qed.

Lemma isHidden_iff (a : gmap string string) (options : WwwaxeOptions) :
  isHidden a options = true
  <-> (is_Some (a !! "hidden")
       \/ (flag (keepAriaHidden options) = false /\ a !! "aria-hidden" = Some "true")
       \/ exists style,
           a !! "style" = Some style
           /\ (Str.includes "display:none" style = true
               \/ Str.includes "display: none" style = true
               \/ Str.includes "visibility:hidden" style = true
               \/ Str.includes "visibility: hidden" style = true)).
Proof.
  unfold isHidden, attr_defined, attr_or_empty.
  destruct (a !! "hidden") as [h|] eqn:Eh.
  { split; [intros _; left; eexists; reflexivity | reflexivity]. }
  destruct (flag (keepAriaHidden options)) eqn:Ef; simpl negb; cbv iota; simpl andb.
  - destruct (a !! "style") as [style|] eqn:Es; simpl default.
    + split.
      * intros H. right. right. exists style. split; [reflexivity|].
        destruct (Str.includes "display:none" style); [auto|].
        destruct (Str.includes "display: none" style); [auto|].
        destruct (Str.includes "visibility:hidden" style); [auto|].
        destruct (Str.includes "visibility: hidden" style); [auto|].
        discriminate.
      * intros [[x Hx]|[[Hx _]|(s & Hs & Hx)]]; try discriminate.
        injection Hs as <-.
        destruct Hx as [ -> | [ -> | [ -> | -> ] ] ]; rewrite ?orb_true_r; simpl;
          try reflexivity; destruct (_ || _); reflexivity.
    + split; [discriminate|].
      intros [[x Hx]|[[Hx _]|(s & Hs & _)]]; discriminate.
  - destruct (bool_decide (a !! "aria-hidden" = Some "true")) eqn:Ea.
    + apply bool_decide_eq_true in Ea. split; [intros _; right; left; auto | reflexivity].
    + apply bool_decide_eq_false in Ea.
      destruct (a !! "style") as [style|] eqn:Es; simpl default.
      * split.
        -- intros H. right. right. exists style. split; [reflexivity|].
           destruct (Str.includes "display:none" style); [auto|].
           destruct (Str.includes "display: none" style); [auto|].
           destruct (Str.includes "visibility:hidden" style); [auto|].
           destruct (Str.includes "visibility: hidden" style); [auto|].
           discriminate.
        -- intros [[x Hx]|[[_ Hx]|(s & Hs & Hx)]]; [discriminate|contradiction|].
           injection Hs as <-.
           destruct Hx as [ -> | [ -> | [ -> | -> ] ] ]; rewrite ?orb_true_r; simpl;
          try reflexivity; destruct (_ || _); reflexivity.
      * split; [discriminate|].
        intros [[x Hx]|[[_ Hx]|(s & Hs & _)]]; [discriminate|contradiction|discriminate].
Qed.

Lemma flat_map_flat_map {A B C : Type} (f : B -> list C) (g : A -> list B) (l : list A) :
  flat_map f (flat_map g l) = flat_map (fun x => flat_map f (g x)) l.
Proof.
  induction l as [|x r IH]; simpl; [reflexivity|].
  rewrite flat_map_app, IH. reflexivity.
Qed.

Lemma processNode_dropHidden (options : WwwaxeOptions) (unwrapTags : gset string)
    (n : node) :
  link_void n = true ->
  flat_map (processNode options unwrapTags) (dropHidden options n)
  = processNode options unwrapTags n.
Proof.
  induction n as [t a cs IH| | |] using node_ind'; try reflexivity.
  intros Hv. simpl in Hv. apply andb_prop in Hv as [Hlink Hv].
  assert (Hcs : flat_map (processNode options unwrapTags)
                  (flat_map (dropHidden options) cs)
                = flat_map (processNode options unwrapTags) cs).
  { rewrite flat_map_flat_map. clear Hlink.
    induction IH as [|c r Hc _ IHr]; simpl; [reflexivity|].
    simpl in Hv. apply andb_prop in Hv as [Hv1 Hv2].
    rewrite (Hc Hv1), (IHr Hv2). reflexivity. }
  simpl dropHidden. unfold removed_as_hidden.
  destruct (string_eqb_spec (Str.toLowerCase t) "link") as [El|El].
  - destruct cs; [|discriminate].
    destruct (isHidden a options) eqn:Eh; destruct (isUsefulLink a) eqn:Eu;
      cbn [andb negb flat_map app]; rewrite ?app_nil_r; try reflexivity.
    rewrite processNode_Element. cbv zeta. rewrite El, Eu. reflexivity.
  - cbn [andb negb]. rewrite andb_true_r.
    destruct (isHidden a options) eqn:Eh; cbn [flat_map app].
    + rewrite processNode_Element. cbv zeta. rewrite Eh.
      destruct (has REMOVE_TAGS (Str.toLowerCase t)); [|reflexivity].
      apply string_eqb_neq in El. rewrite El. reflexivity.
    + rewrite app_nil_r, !processNode_Element. cbv zeta. rewrite Hcs.
      apply string_eqb_neq in El. rewrite El. reflexivity.
Qed.

(** C9, amended.  An element is hidden if and only if it carries a
    [hidden] attribute, whatever its value, or its [aria-hidden] attribute
    is ["true"] while [keepAriaHidden] is not set, or its [style] attribute
    contains one of [display:none], [display: none], [visibility:hidden],
    [visibility: hidden].  The pruner removes every hidden element with all
    that is below it, except a [link] element whose [rel] is canonical or
    alternate: nothing stands at the place of such an element afterwards,
    and on a tree of the parser, in which a [link] element has no children,
    the result is the same as on the tree from which the hidden elements
    were taken out beforehand. *)
Theorem C9_hidden_removed_but_kept_links :
  (forall a options,
      isHidden a options = true
      <-> (is_Some (a !! "hidden")
           \/ (flag (keepAriaHidden options) = false
               /\ a !! "aria-hidden" = Some "true")
           \/ exists style,
               a !! "style" = Some style
               /\ (Str.includes "display:none" style = true
                   \/ Str.includes "display: none" style = true
                   \/ Str.includes "visibility:hidden" style = true
                   \/ Str.includes "visibility: hidden" style = true)))
  /\ (forall options unwrapTags t a cs,
         isHidden a options = true ->
         ~ (Str.toLowerCase t = "link" /\ isUsefulLink a = true) ->
         processNode options unwrapTags (Element t a cs) = [])
  /\ (forall options doc,
         links_void doc = true ->
         prune options (flat_map (dropHidden options) doc) = prune options doc).
Proof.
  split; [exact isHidden_iff|]. split.
  - intros options unwrapTags t a cs Hh Hnot.
    rewrite processNode_Element. cbv zeta. rewrite Hh.
    destruct (has REMOVE_TAGS (Str.toLowerCase t)); [|reflexivity].
    destruct (string_eqb_spec (Str.toLowerCase t) "link") as [El|El]; [|reflexivity].
    destruct (isUsefulLink a) eqn:Eu; [|reflexivity].
    exfalso. apply Hnot. auto.
  - intros options doc Hv. unfold prune. rewrite flat_map_flat_map.
    induction doc as [|n r IH]; simpl; [reflexivity|].
    simpl in Hv. apply andb_prop in Hv as [Hv1 Hv2].
    rewrite (processNode_dropHidden _ _ _ Hv1), (IH Hv2). reflexivity.
Qed.

Lemma C9_witness :
  processNode default_options (getUnwrapTags default_options) hidden_banner = []
  /\ prune default_options (flat_map (dropHidden default_options) sample_page)
     = prune default_options sample_page.
Proof.
  split.
  - apply (proj1 (proj2 C9_hidden_removed_but_kept_links)).
    + vm_compute. reflexivity.
    + intros [H _]. vm_compute in H. discriminate.
  - apply (proj2 (proj2 C9_hidden_removed_but_kept_links)). reflexivity.
Defined.

(** ** The content fallback (C3) *)

(** [findElements] lists the elements that satisfy a predicate in document
    order; the searches of the chrome stripper return the first of such a
    list. *)
Lemma first_some_head (f : node -> option node) (g : node -> list node) (l : list node) :
  Forall (fun c => f c = head (g c)) l ->
  first_some f l = head (flat_map g l).
Proof.
  induction 1 as [|c r Hc _ IH]; simpl; [reflexivity|].
  rewrite Hc, IH. destruct (g c); reflexivity.
Qed.

Lemma findElement_head (tagName : string) (n : node) :
  findElement tagName n = head (findElements (tag_is tagName) n).
Proof.
  induction n as [t a cs IH| | |] using node_ind'; simpl; try reflexivity.
  destruct (Str.eqb _ _); simpl; [reflexivity|].
  apply first_some_head, IH.
Qed.

Lemma findElementDoc_head (tagName : string) (doc : document) :
  findElementDoc tagName doc = head (findElementsDoc (tag_is tagName) doc).
Proof.
  apply first_some_head, List.Forall_forall. intros n _. apply findElement_head.
Qed.

Lemma findById_head (id : string) (n : node) :
  findById id n = head (findElements (id_is id) n).
Proof.
  induction n as [t a cs IH| | |] using node_ind'; simpl; try reflexivity.
  unfold id_is at 1. simpl node_attribs.
  destruct (bool_decide _); simpl; [reflexivity|].
  apply first_some_head, IH.
Qed.

Lemma findByIdDoc_head (id : string) (doc : document) :
  findByIdDoc id doc = head (findElementsDoc (id_is id) doc).
Proof.
  apply first_some_head, List.Forall_forall. intros n _. apply findById_head.
Qed.

Lemma skipTarget_resolves (doc : document) (link target : node) :
  Str.startsWith "#" (attr_or_empty (node_attribs link) "href") = true ->
  skipTarget doc link = Some target <-> resolves doc link target.
Proof.
  intros Hs. unfold skipTarget, resolves.
  destruct (attr_or_empty (node_attribs link) "href") as [|c id]; [discriminate|].
  cbn [Str.startsWith] in Hs. apply andb_prop in Hs as [Hc _].
  apply N.eqb_eq in Hc. subst c. cbn [Str.slice1].
  rewrite findByIdDoc_head. split.
  - destruct id; [discriminate|]. intros H. eexists. split; [reflexivity|].
    split; [discriminate | exact H].
  - intros (id' & [= <-] & Hne & H). destruct id; [congruence|]. exact H.
Qed.

Lemma isSkipLink_fragment (l : node) :
  isSkipLink l = true ->
  Str.startsWith "#" (attr_or_empty (node_attribs l) "href") = true.
Proof.
  destruct l as [t a cs| | |]; try discriminate.
  unfold isSkipLink. cbn [node_attribs].
  destruct (Str.eqb (Str.toLowerCase t) "a"); [|discriminate]. cbn [negb].
  destruct (Str.startsWith "#" (attr_or_empty a "href")); [reflexivity | discriminate].
Qed.

Lemma findElements_satisfy (p : node -> bool) (n e : node) :
  In e (findElements p n) -> p e = true.
Proof.
  revert e. induction n as [t a cs IH| | |] using node_ind'; simpl; try tauto.
  intros e He. apply in_app_or in He as [He|He].
  - destruct (p (Element t a cs)) eqn:E; [|destruct He].
    destruct He as [<-|[]]. exact E.
  - apply in_flat_map in He as (c & Hin & Hc).
    rewrite List.Forall_forall in IH. exact (IH c Hin e Hc).
Qed.

Lemma findElementsDoc_satisfy (p : node -> bool) (doc : document) (e : node) :
  In e (findElementsDoc p doc) -> p e = true.
Proof.
  intros He. apply in_flat_map in He as (c & _ & Hc).
  exact (findElements_satisfy p c e Hc).
Qed.

Lemma first_some_skip {A B : Type} (f : A -> option B) (before after : list A)
    (x : A) :
  (forall l, In l before -> f l = None) ->
  first_some f (before ++ x :: after)
  = match f x with Some y => Some y | None => first_some f after end.
Proof.
  induction before as [|b r IH]; intros H; simpl; [reflexivity|].
  rewrite (H b (or_introl eq_refl)). apply IH. intros l Hl. apply H. right. exact Hl.
Qed.

Lemma first_some_none {A B : Type} (f : A -> option B) (l : list A) :
  (forall x, In x l -> f x = None) -> first_some f l = None.
Proof.
  induction l as [|x r IH]; intros H; simpl; [reflexivity|].
  rewrite (H x (or_introl eq_refl)). apply IH. intros y Hy. apply H. right. exact Hy.
Qed.

(** The case of a text is that of [toLowerCase]: the Kelvin sign counts as
    a k. *)
Example kelvin_skip_link :
  stripChrome kelvin_skip_page
  = [Element "div" (attrs [("id", "start")]) [Element "p" ∅ [Text "Body"]]].
Proof. vm_compute. reflexivity. Qed.

(** The first skip link names no target; the code goes on to the second
    one, where the specification goes on to the well-known ids. *)
Lemma C3_counterexample :
  removeChromeElements two_skip_links = two_skip_links
  /\ stripChrome two_skip_links
     = [Element "div" (attrs [("id", "start")]) [Element "p" ∅ [Text "Body"]]]
  /\ stated_findCoreContent two_skip_links
     = Some (Element "div" (attrs [("id", "content")]) [Element "p" ∅ [Text "Other"]]).
Proof. repeat split; vm_compute; reflexivity. Qed.

(** C3, amended.  After chrome removal, a [main] element or an element with
    [role=main] anywhere leaves the tree as it is.  Otherwise the first
    match of the following, in this order, becomes the only child of the
    document, with the document as its parent and no previous and no next
    sibling: (1) the first [article] in document order; (2) the target of
    the first fragment link, in document order, whose text contains "skip"
    in any case and whose fragment is not empty and is the id of an
    element, links that name no such element being passed over; (3) the
    first element whose id is the first of main-content, content, main,
    page-content, site-content borne by any element.  When nothing matches
    the chrome-stripped tree is left as it is and no link field is
    written. *)
Theorem C3_fallback_first_resolving (doc : document) :
  let d := removeChromeElements doc in
  ((findElementsDoc (tag_is "main") d <> [] \/ findElementsDoc hasRoleMain d <> []) ->
   stripChrome doc = d /\ stripChrome_links doc = None)
  /\ (findElementsDoc (tag_is "main") d = [] ->
      findElementsDoc hasRoleMain d = [] ->
      (forall article,
          head (findElementsDoc (tag_is "article") d) = Some article ->
          stripChrome doc = [article]
          /\ stripChrome_links doc = Some (article, isolated))
      /\ (findElementsDoc (tag_is "article") d = [] ->
          (forall before link after target,
              findElementsDoc isSkipLink d = before ++ link :: after ->
              (forall l t, In l before -> ~ resolves d l t) ->
              resolves d link target ->
              stripChrome doc = [target]
              /\ stripChrome_links doc = Some (target, isolated))
          /\ ((forall l t, In l (findElementsDoc isSkipLink d) -> ~ resolves d l t) ->
              (forall pre id post el,
                  WELL_KNOWN_CONTENT_IDS = pre ++ id :: post ->
                  (forall i, In i pre -> findElementsDoc (id_is i) d = []) ->
                  head (findElementsDoc (id_is id) d) = Some el ->
                  stripChrome doc = [el]
                  /\ stripChrome_links doc = Some (el, isolated))
              /\ ((forall i, In i WELL_KNOWN_CONTENT_IDS ->
                              findElementsDoc (id_is i) d = []) ->
                  stripChrome doc = d /\ stripChrome_links doc = None)))).
Proof.
  intros d. unfold stripChrome, stripChrome_links. cbv zeta. fold d. unfold findMain.
  rewrite findElementDoc_head. split.
  - intros [H|H].
    + destruct (findElementsDoc (tag_is "main") d); [congruence | split; reflexivity].
    + destruct (head (findElementsDoc (tag_is "main") d)); [split; reflexivity|].
      destruct (findElementsDoc hasRoleMain d); [congruence | split; reflexivity].
  - intros -> ->. cbn [head]. unfold findCoreContent.
    rewrite findElementDoc_head. split.
    + intros article ->. split; reflexivity.
    + intros ->. cbn [head].
      assert (Hunres : forall ls,
                 (forall l, In l ls -> isSkipLink l = true) ->
                 (forall l t, In l ls -> ~ resolves d l t) ->
                 forall l, In l ls -> skipTarget d l = None).
      { intros ls Hskip Hno l Hl. destruct (skipTarget d l) as [t|] eqn:E; [|reflexivity].
        exfalso. apply (Hno l t Hl).
        apply skipTarget_resolves; [apply isSkipLink_fragment, Hskip, Hl | exact E]. }
      split.
      * intros before link after target Hlist Hbefore Hlink.
        assert (Hall : forall l, In l (before ++ link :: after) -> isSkipLink l = true).
        { intros l Hl. rewrite <- Hlist in Hl.
          exact (findElementsDoc_satisfy _ _ _ Hl). }
        rewrite Hlist, first_some_skip.
        -- apply skipTarget_resolves in Hlink.
           ++ rewrite Hlink. split; reflexivity.
           ++ apply isSkipLink_fragment, Hall, in_elt.
        -- apply (Hunres before); [|exact Hbefore].
           intros l Hl. apply Hall, in_or_app. left. exact Hl.
      * intros Hnone.
        rewrite (first_some_none (skipTarget d) (findElementsDoc isSkipLink d)).
        2:{ apply (Hunres (findElementsDoc isSkipLink d)); [|exact Hnone].
            intros l Hl. exact (findElementsDoc_satisfy _ _ _ Hl). }
        split.
        -- intros pre id post el -> Hpre Hid. rewrite first_some_skip.
           ++ rewrite findByIdDoc_head, Hid. split; reflexivity.
           ++ intros i Hi. rewrite findByIdDoc_head, (Hpre i Hi). reflexivity.
        -- intros Hids. rewrite first_some_none; [split; reflexivity|].
           intros i Hi. rewrite findByIdDoc_head, (Hids i Hi). reflexivity.
Qed.

Lemma C3_witness :
  stripChrome two_skip_links
  = [Element "div" (attrs [("id", "start")]) [Element "p" ∅ [Text "Body"]]]
  /\ stripChrome_links two_skip_links
     = Some (Element "div" (attrs [("id", "start")]) [Element "p" ∅ [Text "Body"]],
             isolated).
Proof.
  refine (proj1 (proj2 (proj2 (C3_fallback_first_resolving two_skip_links) _ _) _)
            [Element "a" (attrs [("href", "#")]) [Text "Skip"]]
            (Element "a" (attrs [("href", "#start")]) [Text "Skip to content"])
            []
            (Element "div" (attrs [("id", "start")]) [Element "p" ∅ [Text "Body"]])
            _ _ _).
  - vm_compute. reflexivity.
  - vm_compute. reflexivity.
  - vm_compute. reflexivity.
  - vm_compute. reflexivity.
  - intros l t [<-|[]] (id & Hhref & Hne & _).
    vm_compute in Hhref. injection Hhref as <-. apply Hne. reflexivity.
  - exists "start". split; [vm_compute; reflexivity|]. split; [discriminate|].
    vm_compute. reflexivity.
Defined.

(** ** Running the pipeline twice (C4) *)

(** *** White space *)

Section whitespace.

Lemma all_space_rev_append (s acc : string) :
  Str.all_space (Str.rev_append s acc) = Str.all_space s && Str.all_space acc.
Proof.
  revert acc. induction s as [|c r IH]; intros acc; simpl; [reflexivity|].
  rewrite IH. simpl. destruct (Str.is_space c), (Str.all_space r); reflexivity.
Qed.

Lemma all_space_rev (s : string) : Str.all_space (Str.rev s) = Str.all_space s.
Proof. unfold Str.rev. rewrite all_space_rev_append. simpl. apply andb_true_r. Qed.

Lemma trimStart_all_space (s : string) :
  Str.all_space s = true -> Str.trimStart s = "".
Proof.
  induction s as [|c r IH]; simpl; [reflexivity|].
  destruct (Str.is_space c); [exact IH | discriminate].
Qed.

Lemma all_space_trimStart (s : string) :
  Str.all_space (Str.trimStart s) = Str.all_space s.
Proof.
  induction s as [|c r IH]; simpl; [reflexivity|].
  destruct (Str.is_space c) eqn:E; simpl; [exact IH|]. rewrite E. reflexivity.
Qed.

Lemma all_space_empty (s : string) :
  Str.all_space s = false -> s <> "".
Proof. destruct s; [discriminate|]. intros _. discriminate. Qed.

Lemma rev_append_nonempty (s acc : string) :
  acc <> "" -> Str.rev_append s acc <> "".
Proof.
  revert acc. induction s as [|c r IH]; intros acc H; simpl; [exact H|].
  apply IH. discriminate.
Qed.

Lemma rev_nonempty (s : string) : s <> "" -> Str.rev s <> "".
Proof.
  destruct s as [|c r]; [congruence|]. intros _. unfold Str.rev. simpl.
  apply rev_append_nonempty. discriminate.
Qed.

Lemma trimStart_not_all_space (s : string) :
  Str.all_space s = false -> Str.all_space (Str.trimStart s) = false.
Proof. intros H. rewrite all_space_trimStart. exact H. Qed.

(** [s.trim()] is empty exactly when [s] is white space throughout. *)
Lemma trim_length_all_space (s : string) :
  (0 <? Str.length (Str.trim s))%nat = negb (Str.all_space s).
Proof.
  unfold Str.trim, Str.trimEnd.
  destruct (Str.all_space s) eqn:E.
  - rewrite (trimStart_all_space s E). reflexivity.
  - assert (H : Str.rev (Str.trimStart (Str.rev (Str.trimStart s))) <> "").
    { apply rev_nonempty, all_space_empty.
      rewrite all_space_trimStart, all_space_rev, all_space_trimStart. exact E. }
    destruct (Str.rev _); [congruence|]. reflexivity.
Qed.

Lemma all_space_squeeze (cls : N -> bool) (b : bool) (s : string) :
  (forall c, cls c = true -> Str.is_space c = true) ->
  Str.all_space (squeeze cls b s) = Str.all_space s.
Proof.
  intros Hcls. revert b. induction s as [|c r IH]; intros b; simpl; [reflexivity|].
  destruct (cls c) eqn:E.
  - rewrite (Hcls c E). simpl. destruct b; simpl; apply IH.
  - simpl. rewrite IH. reflexivity.
Qed.

Lemma is_tab_nl_cr_space (c : N) : is_tab_nl_cr c = true -> Str.is_space c = true.
Proof.
  unfold is_tab_nl_cr, Str.is_space. intros H.
  apply orb_prop in H as [H|H]; [apply orb_prop in H as [H|H]|];
    apply N.eqb_eq in H; rewrite H; reflexivity.
Qed.

Lemma is_blank_space (c : N) : is_blank c = true -> Str.is_space c = true.
Proof.
  unfold is_blank, Str.is_space. intros H. apply N.eqb_eq in H. rewrite H. reflexivity.
Qed.

Lemma all_space_collapseText (s : string) :
  Str.all_space (collapseText s) = Str.all_space s.
Proof.
  unfold collapseText.
  rewrite all_space_squeeze; [|exact is_blank_space].
  apply all_space_squeeze. exact is_tab_nl_cr_space.
Qed.

Lemma all_space_cleanText (s : string) :
  Str.all_space (cleanText s) = Str.all_space s.
Proof.
  unfold cleanText.
  destruct (Str.length (Str.trim s) =? 0)%nat eqn:E; simpl; [|reflexivity].
  destruct (1 <? Str.length s)%nat; [|reflexivity].
  pose proof (trim_length_all_space s) as H.
  apply Nat.eqb_eq in E. rewrite E in H. simpl in H.
  destruct (Str.all_space s); [reflexivity | discriminate].
Qed.

Lemma squeeze_free_of (cls : N -> bool) (b : bool) (s : string) :
  free_of cls s = true -> squeeze cls b s = s.
Proof.
  revert b. induction s as [|c r IH]; intros b; simpl; [reflexivity|].
  destruct (cls c); simpl; [discriminate|]. intros H. rewrite (IH false H). reflexivity.
Qed.

Lemma free_of_squeeze_self (cls : N -> bool) (b : bool) (s : string) :
  cls 32%N = false -> free_of cls (squeeze cls b s) = true.
Proof.
  intros Hsp. revert b. induction s as [|c r IH]; intros b; simpl; [reflexivity|].
  destruct (cls c) eqn:E.
  - destruct b; simpl; [apply IH|]. rewrite Hsp. simpl. apply IH.
  - simpl. rewrite E. simpl. apply IH.
Qed.

Lemma free_of_squeeze_other (cls cls' : N -> bool) (b : bool) (s : string) :
  cls 32%N = false -> free_of cls s = true ->
  free_of cls (squeeze cls' b s) = true.
Proof.
  intros Hsp. revert b. induction s as [|c r IH]; intros b; simpl; [reflexivity|].
  intros H. apply andb_prop in H as [Hc Hr].
  destruct (cls' c).
  - destruct b; simpl; [apply IH, Hr|]. rewrite Hsp. simpl. apply IH, Hr.
  - simpl. rewrite Hc. simpl. apply IH, Hr.
Qed.

Lemma squeeze_squeeze (cls : N -> bool) (s : string) :
  cls 32%N = true ->
  squeeze cls false (squeeze cls false s) = squeeze cls false s
  /\ squeeze cls true (squeeze cls true s) = squeeze cls true s
  /\ squeeze cls false (squeeze cls true s) = squeeze cls true s.
Proof.
  intros Hsp. induction s as [|c r (IH1 & IH2 & IH3)]; simpl; [auto|].
  destruct (cls c) eqn:E; simpl.
  - rewrite Hsp, IH2. auto.
  - rewrite E, IH1. auto.
Qed.

Lemma collapseText_idempotent (s : string) :
  collapseText (collapseText s) = collapseText s.
Proof.
  unfold collapseText.
  rewrite (squeeze_free_of is_tab_nl_cr false (squeeze is_blank false _)).
  - apply squeeze_squeeze. reflexivity.
  - apply free_of_squeeze_other; [reflexivity|].
    apply free_of_squeeze_self. reflexivity.
Qed.

Lemma tidyText_idempotent (s : string) : tidyText (tidyText s) = tidyText s.
Proof.
  unfold tidyText.
  assert (H : cleanText (collapseText s)
              = if (Str.length (Str.trim (collapseText s)) =? 0)%nat
                   && (1 <? Str.length (collapseText s))%nat
                then " " else collapseText s) by reflexivity.
  rewrite H.
  destruct ((Str.length (Str.trim (collapseText s)) =? 0)%nat
            && (1 <? Str.length (collapseText s))%nat) eqn:E.
  - reflexivity.
  - rewrite collapseText_idempotent. exact H.
Qed.

Lemma all_space_tidyText (s : string) : Str.all_space (tidyText s) = Str.all_space s.
Proof. unfold tidyText. rewrite all_space_cleanText. apply all_space_collapseText. Qed.

End whitespace.

(** *** The pruner on its own result *)

Lemma map_ext_Forall {A B : Type} (f g : A -> B) (l : list A) :
  Forall (fun x => f x = g x) l -> map f l = map g l.
Proof. induction 1 as [|x r Hx _ IH]; simpl; [reflexivity|]. rewrite Hx, IH. reflexivity. Qed.

Lemma tidy_mapText (n : node) :
  cleanTextNode (collapseWhitespace n) = mapText tidyText n.
Proof.
  induction n as [t a cs IH| | |] using node_ind'; simpl; try reflexivity.
  rewrite map_map. f_equal. apply map_ext_Forall, IH.
Qed.

Lemma mapText_mapText (f g : string -> string) (n : node) :
  mapText f (mapText g n) = mapText (fun s => f (g s)) n.
Proof.
  induction n as [t a cs IH| | |] using node_ind'; simpl; try reflexivity.
  rewrite map_map. f_equal. apply map_ext_Forall, IH.
Qed.

Lemma mapText_ext (f g : string -> string) (n : node) :
  (forall s, f s = g s) -> mapText f n = mapText g n.
Proof.
  intros H. induction n as [t a cs IH| | |] using node_ind'; simpl; try reflexivity.
  - f_equal. apply map_ext_Forall, IH.
  - rewrite H. reflexivity.
Qed.

Section text_map.

Variable f : string -> string.
Hypothesis f_keeps_space : forall s, Str.all_space (f s) = Str.all_space s.

Lemma hasMeaningfulContent_mapText (n : node) :
  hasMeaningfulContent (mapText f n) = hasMeaningfulContent n.
Proof.
  induction n as [t a cs IH| | |] using node_ind'; simpl; try reflexivity.
  - match goal with |- context [if ?c then _ else _] => destruct c end; [reflexivity|].
    induction IH as [|c r Hc _ IHr]; simpl; [reflexivity|]. rewrite Hc, IHr. reflexivity.
  - rewrite !trim_length_all_space, f_keeps_space. reflexivity.
Qed.

Lemma flat_map_map_commute (g : node -> list node) (cs : list node) :
  Forall (fun c => g (mapText f c) = map (mapText f) (g c)) cs ->
  flat_map g (map (mapText f) cs) = map (mapText f) (flat_map g cs).
Proof.
  induction 1 as [|c r Hc _ IH]; simpl; [reflexivity|].
  rewrite Hc, IH, map_app. reflexivity.
Qed.

Lemma processNode_mapText (options : WwwaxeOptions) (unwrapTags : gset string)
    (n : node) :
  processNode options unwrapTags (mapText f n)
  = map (mapText f) (processNode options unwrapTags n).
Proof.
  induction n as [t a cs IH| | |] using node_ind'; try reflexivity.
  cbn [mapText]. rewrite !processNode_Element. cbv zeta.
  rewrite (flat_map_map_commute _ cs IH).
  change (Element t (stripAttributes a options)
            (map (mapText f) (flat_map (processNode options unwrapTags) cs)))
    with (mapText f (Element t (stripAttributes a options)
                       (flat_map (processNode options unwrapTags) cs))).
  rewrite hasMeaningfulContent_mapText.
  repeat match goal with
         | |- context [if ?c then _ else _] => destruct c
         end; reflexivity.
Qed.

End text_map.

Lemma deep_here (P : node -> Prop) (n : node) : deep P n -> P n.
Proof. destruct 1; assumption. Qed.

Lemma deep_children (P : node -> Prop) (n : node) :
  deep P n -> Forall (deep P) (getChildren n).
Proof.
  destruct 1 as [t a cs _ H|n Hn _]; [exact H|].
  destruct n; [discriminate | constructor ..].
Qed.

Section second_run.

Variable options : WwwaxeOptions.
Variable unwrapTags : gset string.

Lemma keeps_visibility_attributes :
  keeps_attribute options "hidden" = false
  /\ keeps_attribute options "aria-hidden" = false
  /\ keeps_attribute options "style" = false.
Proof. repeat split; reflexivity. Qed.

Lemma keeps_meta_attributes :
  keeps_attribute options "name" = true
  /\ keeps_attribute options "property" = true
  /\ keeps_attribute options "http-equiv" = true
  /\ keeps_attribute options "charset" = true.
Proof. repeat split; vm_compute; reflexivity. Qed.

Lemma isHidden_stripAttributes (a : gmap string string) :
  isHidden (stripAttributes a options) options = false.
Proof.
  destruct keeps_visibility_attributes as (H1 & H2 & H3).
  unfold isHidden, attr_defined, attr_or_empty.
  rewrite !stripAttributes_lookup, H1, H2, H3.
  destruct (flag (keepAriaHidden options)); reflexivity.
Qed.

Lemma isUsefulMeta_stripAttributes (a : gmap string string) :
  isUsefulMeta (stripAttributes a options) = isUsefulMeta a.
Proof.
  destruct keeps_meta_attributes as (H1 & H2 & H3 & H4).
  unfold isUsefulMeta, attr_truthy, attr_or_empty.
  rewrite !stripAttributes_lookup, H1, H2, H3, H4. reflexivity.
Qed.

Lemma stripAttributes_idempotent (a : gmap string string) :
  stripAttributes (stripAttributes a options) options = stripAttributes a options.
Proof.
  apply map_eq. intros k. rewrite !stripAttributes_lookup.
  destruct (keeps_attribute options k); reflexivity.
Qed.

Lemma flat_map_fixed (l : list node) :
  Forall (fixed options unwrapTags) l -> flat_map (processNode options unwrapTags) l = l.
Proof.
  induction 1 as [|x r Hx _ IH]; simpl; [reflexivity|]. rewrite Hx, IH. reflexivity.
Qed.

Lemma processNode_fixed (n : node) :
  any_element kept_link n = false ->
  Forall (deep (fixed options unwrapTags)) (processNode options unwrapTags n).
Proof.
  induction n as [t a cs IH| | |] using node_ind'; intros Hno;
    try solve [simpl; repeat constructor; apply deep_leaf; reflexivity].
  simpl in Hno. apply orb_false_elim in Hno as [Hlink Hno].
  assert (Hdeep : Forall (deep (fixed options unwrapTags)) (flat_map (processNode options unwrapTags) cs)).
  { clear Hlink. induction IH as [|c r Hc _ IHr]; simpl; [constructor|].
    simpl in Hno. apply orb_false_elim in Hno as [Hc1 Hr1].
    apply List.Forall_app. split; [apply Hc, Hc1 | apply IHr, Hr1]. }
  assert (Hcs : Forall (fixed options unwrapTags) (flat_map (processNode options unwrapTags) cs)).
  { eapply List.Forall_impl; [|exact Hdeep]. apply deep_here. }
  rewrite processNode_Element. cbv zeta. unfold kept_link in Hlink.
  destruct (has REMOVE_TAGS (Str.toLowerCase t)) eqn:Hrem.
  { rewrite Hlink. constructor. }
  destruct (isHidden a options) eqn:Hhid; [constructor|].
  destruct (Str.eqb (Str.toLowerCase t) "meta" && negb (isUsefulMeta a)) eqn:Hmeta;
    [constructor|].
  set (cs' := flat_map (processNode options unwrapTags) cs) in *.
  set (a' := stripAttributes a options).
  assert (Hagain : processNode options unwrapTags (Element t a' cs')
                   = let node' := Element t a' cs' in
                     let sweep :=
                       if negb (has voidElements (Str.toLowerCase t))
                          && negb (has headElements (Str.toLowerCase t))
                          && negb (hasMeaningfulContent node')
                       then [] else [node'] in
                     if negb (has KEEP_TAGS (Str.toLowerCase t)) then
                       if has unwrapTags (Str.toLowerCase t)
                          && negb (hasContentAttributes a' options)
                       then cs'
                       else if negb (hasMeaningfulContent node') then []
                       else sweep
                     else sweep).
  { rewrite processNode_Element. cbv zeta. rewrite Hrem. unfold a'.
    rewrite isHidden_stripAttributes, isUsefulMeta_stripAttributes, Hmeta.
    rewrite stripAttributes_idempotent. fold cs'.
    rewrite (flat_map_fixed cs' Hcs). reflexivity. }
  cbv zeta in Hagain.
  repeat match goal with
         | |- context [if ?c then _ else _] => destruct c eqn:?
         end;
    first [ exact Hdeep
          | solve [constructor]
          | constructor; [apply deep_element; [exact Hagain | exact Hdeep] | constructor] ].
Qed.

Lemma prune_fixed (doc : document) :
  existsb (any_element kept_link) doc = false ->
  flat_map (processNode options unwrapTags)
    (flat_map (processNode options unwrapTags) doc)
  = flat_map (processNode options unwrapTags) doc.
Proof.
  intros Hno. apply flat_map_fixed.
  induction doc as [|n r IH]; simpl; [constructor|].
  simpl in Hno. apply orb_false_elim in Hno as [Hn Hr].
  apply List.Forall_app. split; [|apply IH, Hr].
  eapply List.Forall_impl; [|apply processNode_fixed, Hn]. apply deep_here.
Qed.

Lemma first_some_app_none {A B : Type} (g : A -> option B) (l1 l2 : list A) :
  first_some g l1 = None -> first_some g l2 = None -> first_some g (l1 ++ l2) = None.
Proof.
  induction l1 as [|x r IH]; simpl; [auto|].
  destruct (g x); [discriminate|]. exact IH.
Qed.

(** The pruner makes no element of a tag the input does not have. *)
Lemma processNode_no_tag (tagName : string) (n : node) :
  findElement tagName n = None ->
  first_some (findElement tagName) (processNode options unwrapTags n) = None.
Proof.
  induction n as [t a cs IH| | |] using node_ind'; intros Hno; try (simpl; rewrite ?Hno; reflexivity).
  simpl in Hno.
  destruct (Str.eqb (Str.toLowerCase t) tagName) eqn:Et; [discriminate|].
  assert (Hcs : first_some (findElement tagName)
                  (flat_map (processNode options unwrapTags) cs) = None).
  { induction IH as [|c r Hc _ IHr]; simpl; [reflexivity|].
    simpl in Hno. destruct (findElement tagName c); [discriminate|].
    apply first_some_app_none; [apply Hc; reflexivity | apply IHr, Hno]. }
  rewrite processNode_Element. cbv zeta.
  repeat match goal with
         | |- context [if ?c then _ else _] => destruct c
         end;
    first [ reflexivity | exact Hcs
          | simpl; rewrite Et, ?Hno, ?Hcs; reflexivity ].
Qed.

Lemma prune_no_tag (tagName : string) (doc : document) :
  findElementDoc tagName doc = None ->
  findElementDoc tagName (flat_map (processNode options unwrapTags) doc) = None.
Proof.
  unfold findElementDoc. induction doc as [|n r IH]; simpl; [reflexivity|].
  destruct (findElement tagName n) eqn:E; [discriminate|]. intros Hr.
  apply first_some_app_none; [apply processNode_no_tag, E | apply IH, Hr].
Qed.

End second_run.

Lemma mapText_no_tag (f : string -> string) (tagName : string) (n : node) :
  findElement tagName n = None -> findElement tagName (mapText f n) = None.
Proof.
  induction n as [t a cs IH| | |] using node_ind'; simpl; try reflexivity.
  destruct (Str.eqb _ _); [discriminate|].
  induction IH as [|c r Hc _ IHr]; simpl; [reflexivity|].
  destruct (findElement tagName c); [discriminate|]. intros H.
  rewrite Hc by reflexivity. apply IHr, H.
Qed.

Lemma mapTextDoc_no_tag (f : string -> string) (tagName : string) (doc : document) :
  findElementDoc tagName doc = None ->
  findElementDoc tagName (map (mapText f) doc) = None.
Proof.
  unfold findElementDoc. induction doc as [|n r IH]; simpl; [reflexivity|].
  destruct (findElement tagName n) eqn:E; [discriminate|]. intros H.
  rewrite (mapText_no_tag f tagName n E). apply IH, H.
Qed.

(** *** The second run *)

Lemma removeDocumentWrappers_no_html (doc : document) :
  findElementDoc "html" doc = None -> removeDocumentWrappers doc = doc.
Proof. intros H. unfold removeDocumentWrappers. rewrite H. reflexivity. Qed.

Lemma tidyDoc_mapText (doc : document) :
  map cleanTextNode (map collapseWhitespace doc) = map (mapText tidyText) doc.
Proof.
  rewrite map_map. apply map_ext_Forall, List.Forall_forall. intros n _.
  apply tidy_mapText.
Qed.

(** With markdown off and [core] unset the pipeline is the pruner, the
    wrapper remover and the two whitespace passes. *)
Lemma wwwaxe_tree_markup (options : WwwaxeOptions) (doc : document) :
  markdown options = Some false ->
  flag (core options) = false ->
  wwwaxe_tree options doc
  = map (mapText tidyText) (removeDocumentWrappers (prune options doc)).
Proof.
  intros Hm Hc. unfold wwwaxe_tree. cbv zeta. rewrite Hm, Hc. simpl not_false.
  cbv iota. apply tidyDoc_mapText.
Qed.

(** *** Pages of the usual shape *)

Lemma lacks_iff (tagName : string) (n : node) :
  lacks tagName n = true <-> findElement tagName n = None.
Proof. unfold lacks. destruct (findElement tagName n); split; congruence. Qed.

Lemma first_some_none_inv {A B : Type} (g : A -> option B) (l : list A) :
  first_some g l = None -> forall x, In x l -> g x = None.
Proof.
  induction l as [|y r IH]; simpl; [tauto|].
  destruct (g y) eqn:E; [discriminate|]. intros H x [<-|Hx]; [exact E | exact (IH H x Hx)].
Qed.

Lemma lacks_children (tagName : string) (n : node) :
  lacks tagName n = true -> forallb (lacks tagName) (getChildren n) = true.
Proof.
  destruct n as [t a cs| | |]; try reflexivity. rewrite lacks_iff. simpl.
  destruct (Str.eqb _ _); [discriminate|]. intros H.
  apply forallb_forall. intros c Hc. apply lacks_iff.
  exact (first_some_none_inv _ _ H c Hc).
Qed.

Lemma lacks_not_tag (tagName : string) (n : node) :
  lacks tagName n = true -> tag_is tagName n = false.
Proof.
  destruct n as [t a cs| | |]; try reflexivity. rewrite lacks_iff. simpl.
  destruct (Str.eqb _ _); [discriminate | reflexivity].
Qed.

Lemma lacks_element (tagName t : string) a cs :
  Str.eqb (Str.toLowerCase t) tagName = false ->
  forallb (lacks tagName) cs = true ->
  lacks tagName (Element t a cs) = true.
Proof.
  intros Ht Hcs. apply lacks_iff. simpl. rewrite Ht. apply first_some_none.
  intros c Hc. apply lacks_iff. rewrite forallb_forall in Hcs. exact (Hcs c Hc).
Qed.

Lemma wrapper_free_top (n : node) : wrapper_free n = true -> top_wrappers_only n = true.
Proof.
  unfold wrapper_free. intros H.
  apply andb_prop in H as [H Hb]. apply andb_prop in H as [Hh Hd].
  destruct n as [t a cs| | |]; try reflexivity. simpl.
  pose proof (lacks_not_tag _ _ Hh) as Ht. simpl in Ht. rewrite Ht. simpl.
  apply forallb_forall. intros c Hc. unfold wrapper_free.
  pose proof (lacks_children _ _ Hh) as H1.
  pose proof (lacks_children _ _ Hd) as H2.
  pose proof (lacks_children _ _ Hb) as H3.
  simpl in H1, H2, H3. rewrite forallb_forall in H1, H2, H3.
  rewrite (H1 c Hc), (H2 c Hc), (H3 c Hc). reflexivity.
Qed.

Lemma top_wrappers_only_lacks_html (n : node) :
  top_wrappers_only n = true -> lacks "html" n = true.
Proof.
  destruct n as [t a cs| | |]; try reflexivity. simpl. intros H.
  apply andb_prop in H as [Ht Hcs]. apply negb_true_iff in Ht.
  apply lacks_element; [exact Ht|].
  apply forallb_forall. intros c Hc. rewrite forallb_forall in Hcs.
  specialize (Hcs c Hc). unfold wrapper_free in Hcs.
  apply andb_prop in Hcs as [Hcs _]. apply andb_prop in Hcs as [Hcs _]. exact Hcs.
Qed.

Section pages.

Variable options : WwwaxeOptions.
Variable unwrapTags : gset string.

Lemma processNode_lacks (tagName : string) (n : node) :
  lacks tagName n = true ->
  forallb (lacks tagName) (processNode options unwrapTags n) = true.
Proof.
  intros H. apply forallb_forall. intros x Hx. apply lacks_iff.
  apply lacks_iff in H.
  exact (first_some_none_inv _ _ (processNode_no_tag options unwrapTags tagName n H) x Hx).
Qed.

Lemma processNode_wrapper_free (n : node) :
  wrapper_free n = true ->
  forallb wrapper_free (processNode options unwrapTags n) = true.
Proof.
  unfold wrapper_free. intros H.
  apply andb_prop in H as [H Hb]. apply andb_prop in H as [Hh Hd].
  apply forallb_forall. intros x Hx.
  pose proof (processNode_lacks "html" n Hh) as H1.
  pose proof (processNode_lacks "head" n Hd) as H2.
  pose proof (processNode_lacks "body" n Hb) as H3.
  rewrite forallb_forall in H1, H2, H3.
  rewrite (H1 x Hx), (H2 x Hx), (H3 x Hx). reflexivity.
Qed.

Lemma forallb_flat_map (q : node -> bool) (g : node -> list node) (l : list node) :
  (forall c, In c l -> forallb q (g c) = true) ->
  forallb q (flat_map g l) = true.
Proof.
  intros H. apply forallb_forall. intros x Hx.
  apply in_flat_map in Hx as (c & Hc & Hx).
  specialize (H c Hc). rewrite forallb_forall in H. exact (H x Hx).
Qed.

Lemma processNode_top_wrappers_only (n : node) :
  top_wrappers_only n = true ->
  forallb top_wrappers_only (processNode options unwrapTags n) = true.
Proof.
  destruct n as [t a cs| | |]; try reflexivity.
  intros H. simpl in H. apply andb_prop in H as [Ht Hcs].
  assert (Hkids : forallb wrapper_free (flat_map (processNode options unwrapTags) cs)
                  = true).
  { apply forallb_flat_map. intros c Hc. apply processNode_wrapper_free.
    rewrite forallb_forall in Hcs. exact (Hcs c Hc). }
  assert (Hkids' : forallb top_wrappers_only
                     (flat_map (processNode options unwrapTags) cs) = true).
  { apply forallb_forall. intros x Hx. apply wrapper_free_top.
    rewrite forallb_forall in Hkids. exact (Hkids x Hx). }
  rewrite processNode_Element. cbv zeta.
  repeat match goal with
         | |- context [if ?c then _ else _] => destruct c
         end;
    first [ reflexivity | exact Hkids'
          | simpl; rewrite Ht, ?Hcs, ?Hkids; reflexivity ].
Qed.

End pages.

Section wrappers.

Lemma rewrite_first_none {A : Type} (g : A -> option (list A)) (l : list A) :
  (forall x, In x l -> g x = None) -> rewrite_first g l = None.
Proof.
  induction l as [|x r IH]; intros H; simpl; [reflexivity|].
  rewrite (H x (or_introl eq_refl)), IH; [reflexivity|].
  intros y Hy. apply H. right. exact Hy.
Qed.

Lemma lacks_replaceFirst (tagName : string) (f : node -> list node) (n : node) :
  lacks tagName n = true -> replaceFirst tagName f n = None.
Proof.
  rewrite lacks_iff.
  induction n as [t a cs IH| | |] using node_ind'; simpl; try reflexivity.
  destruct (Str.eqb _ _); [discriminate|]. intros H.
  rewrite rewrite_first_none; [reflexivity|].
  intros c Hc. rewrite List.Forall_forall in IH. apply (IH c Hc).
  exact (first_some_none_inv _ _ H c Hc).
Qed.

Lemma rewrite_first_Forall (Q : node -> Prop) (g : node -> option (list node))
    (l l' : list node) :
  Forall Q l ->
  (forall c r, Q c -> g c = Some r -> Forall Q r) ->
  rewrite_first g l = Some l' -> Forall Q l'.
Proof.
  intros Hl Hg. revert l'. induction Hl as [|x r Hx Hr IH]; simpl; [discriminate|].
  intros l'. destruct (g x) as [new|] eqn:E.
  - intros [= <-]. apply List.Forall_app. split; [exact (Hg x new Hx E) | exact Hr].
  - destruct (rewrite_first g r) as [r'|]; [|discriminate].
    intros [= <-]. constructor; [exact Hx | apply IH; reflexivity].
Qed.

Lemma replaceFirstDoc_Forall (Q : node -> Prop) (tagName : string)
    (f : node -> list node) (l : list node) :
  Forall Q l ->
  (forall c r, Q c -> replaceFirst tagName f c = Some r -> Forall Q r) ->
  Forall Q (replaceFirstDoc tagName f l).
Proof.
  intros Hl Hg. unfold replaceFirstDoc.
  destruct (rewrite_first _ l) as [l'|] eqn:E; simpl; [|exact Hl].
  exact (rewrite_first_Forall Q _ l l' Hl Hg E).
Qed.

(** Below the [html] element the first [head] and the first [body] are
    children of it. *)
Lemma replaceFirst_top (tagName : string) (f : node -> list node) (c : node)
    (r : list node) :
  (forall x, wrapper_free x = true -> lacks tagName x = true) ->
  top_wrappers_only c = true ->
  replaceFirst tagName f c = Some r -> r = f c.
Proof.
  intros Hw Hc. destruct c as [t a cs| | |]; try discriminate. simpl.
  destruct (Str.eqb _ _); [congruence|].
  rewrite rewrite_first_none; [discriminate|].
  intros x Hx. apply lacks_replaceFirst, Hw.
  simpl in Hc. apply andb_prop in Hc as [_ Hc].
  rewrite forallb_forall in Hc. exact (Hc x Hx).
Qed.

Lemma wrapper_free_lacks_head (x : node) : wrapper_free x = true -> lacks "head" x = true.
Proof.
  unfold wrapper_free. intros H. apply andb_prop in H as [H _].
  apply andb_prop in H as [_ H]. exact H.
Qed.

Lemma wrapper_free_lacks_body (x : node) : wrapper_free x = true -> lacks "body" x = true.
Proof. unfold wrapper_free. intros H. apply andb_prop in H as [_ H]. exact H. Qed.

Variable fixed' : node -> Prop.

Lemma settled_inside_children (c : node) :
  (settled_inside fixed') c -> Forall (settled_inside fixed') (getChildren c).
Proof.
  intros [Hd Ht]. pose proof (deep_children _ _ Hd) as Hk.
  destruct c as [t a cs| | |]; try constructor. simpl in *.
  apply andb_prop in Ht as [_ Ht]. rewrite forallb_forall in Ht.
  rewrite List.Forall_forall in Hk. apply List.Forall_forall. intros x Hx. split.
  - exact (Hk x Hx).
  - apply wrapper_free_top, Ht, Hx.
Qed.

Lemma unwrapDocumentBody_settled (cs : list node) :
  Forall (settled_inside fixed') cs -> Forall (settled_inside fixed') (unwrapDocumentBody cs).
Proof.
  intros Hcs. unfold unwrapDocumentBody.
  assert (H1 : Forall (settled_inside fixed')
                 (match first_some (findElement "head") cs with
                  | Some _ => replaceFirstDoc "head" (fun _ => []) cs
                  | None => cs
                  end)).
  { destruct (first_some (findElement "head") cs); [|exact Hcs].
    apply replaceFirstDoc_Forall; [exact Hcs|].
    intros c r [_ Hc] Hr.
    rewrite (replaceFirst_top "head" _ c r wrapper_free_lacks_head Hc Hr). constructor. }
  destruct (first_some (findElement "body") cs); [|exact H1].
  destruct (body_below_head cs); [exact H1|].
  apply replaceFirstDoc_Forall; [exact H1|].
  intros c r Hc Hr.
  rewrite (replaceFirst_top "body" _ c r wrapper_free_lacks_body (proj2 Hc) Hr).
  apply settled_inside_children, Hc.
Qed.

Lemma settled_inside_settled (c : node) : (settled_inside fixed') c -> (settled fixed') c.
Proof. intros [Hd Ht]. split; [exact Hd | apply top_wrappers_only_lacks_html, Ht]. Qed.

Lemma first_some_app_skip {A B : Type} (g : A -> option B) (l1 l2 : list A) :
  (forall x, In x l1 -> g x = None) -> first_some g (l1 ++ l2) = first_some g l2.
Proof.
  induction l1 as [|x r IH]; intros H; simpl; [reflexivity|].
  rewrite (H x (or_introl eq_refl)). apply IH. intros y Hy. apply H. right. exact Hy.
Qed.

Lemma rewrite_first_app_skip {A : Type} (g : A -> option (list A)) (l1 l2 : list A) :
  (forall x, In x l1 -> g x = None) ->
  rewrite_first g (l1 ++ l2)
  = match rewrite_first g l2 with Some l' => Some (l1 ++ l') | None => None end.
Proof.
  induction l1 as [|x r IH]; intros H; simpl.
  - destruct (rewrite_first g l2); reflexivity.
  - rewrite (H x (or_introl eq_refl)), IH by (intros y Hy; apply H; right; exact Hy).
    destruct (rewrite_first g l2); reflexivity.
Qed.

Lemma removeDocumentWrappers_app (out rest : document) :
  forallb (lacks "html") out = true ->
  removeDocumentWrappers (out ++ rest) = out ++ removeDocumentWrappers rest.
Proof.
  intros Hout. rewrite forallb_forall in Hout.
  unfold removeDocumentWrappers, findElementDoc, replaceFirstDoc.
  rewrite first_some_app_skip by (intros x Hx; apply lacks_iff, Hout, Hx).
  destruct (first_some (findElement "html") rest); [|reflexivity].
  rewrite rewrite_first_app_skip by (intros x Hx; apply lacks_replaceFirst, Hout, Hx).
  destruct (rewrite_first _ rest); reflexivity.
Qed.

Lemma removeDocumentWrappers_html (h : node) (rest : document) :
  tag_is "html" h = true ->
  removeDocumentWrappers (h :: rest) = unwrapDocumentBody (getChildren h) ++ rest.
Proof.
  destruct h as [t a cs| | |]; try discriminate. simpl. intros Ht.
  unfold removeDocumentWrappers, findElementDoc, replaceFirstDoc. simpl.
  rewrite Ht. reflexivity.
Qed.

End wrappers.

(** *** The kept links of the head *)

Section unless_link.

Variable options : WwwaxeOptions.
Variable unwrapTags : gset string.

Lemma lacks_self (t : string) a cs : lacks (Str.toLowerCase t) (Element t a cs) = false.
Proof. unfold lacks. simpl. rewrite string_eqb_refl. reflexivity. Qed.

Lemma processNode_fixed_unless_link (n : node) :
  link_void n = true ->
  Forall (deep (fixed_unless_link options unwrapTags)) (processNode options unwrapTags n).
Proof.
  induction n as [t a cs IH| | |] using node_ind'; intros Hv;
    try solve [simpl;
               repeat first [ apply List.Forall_nil | apply List.Forall_cons
                            | apply deep_leaf | reflexivity | intros _; reflexivity ]].
  cbn [link_void] in Hv. apply andb_prop in Hv as [Hlink Hv].
  assert (Hdeep : Forall (deep (fixed_unless_link options unwrapTags))
                    (flat_map (processNode options unwrapTags) cs)).
  { clear Hlink. induction IH as [|c r Hc _ IHr]; simpl; [constructor|].
    simpl in Hv. apply andb_prop in Hv as [Hc1 Hr1].
    apply List.Forall_app. split; [apply Hc, Hc1 | apply IHr, Hr1]. }
  rewrite processNode_Element. cbv zeta.
  destruct (has REMOVE_TAGS (Str.toLowerCase t)) eqn:Hrem.
  { destruct (Str.eqb (Str.toLowerCase t) "link" && isUsefulLink a) eqn:Hk; [|constructor].
    apply andb_prop in Hk as [Ht _]. rewrite Ht in Hlink.
    destruct cs; [|discriminate]. constructor; [|constructor].
    apply deep_element; [|constructor].
    intros Hl. apply string_eqb_eq in Ht. rewrite <- Ht in Hl.
    rewrite lacks_self in Hl. discriminate. }
  destruct (isHidden a options) eqn:Hhid; [constructor|].
  destruct (Str.eqb (Str.toLowerCase t) "meta" && negb (isUsefulMeta a)) eqn:Hmeta;
    [constructor|].
  set (cs' := flat_map (processNode options unwrapTags) cs) in *.
  set (a' := stripAttributes a options).
  assert (Hagain : lacks "link" (Element t a' cs') = true ->
                   processNode options unwrapTags (Element t a' cs')
                   = let node' := Element t a' cs' in
                     let sweep :=
                       if negb (has voidElements (Str.toLowerCase t))
                          && negb (has headElements (Str.toLowerCase t))
                          && negb (hasMeaningfulContent node')
                       then [] else [node'] in
                     if negb (has KEEP_TAGS (Str.toLowerCase t)) then
                       if has unwrapTags (Str.toLowerCase t)
                          && negb (hasContentAttributes a' options)
                       then cs'
                       else if negb (hasMeaningfulContent node') then []
                       else sweep
                     else sweep).
  { intros Hl. apply lacks_children in Hl. cbn [getChildren] in Hl.
    assert (Hcs : Forall (fixed options unwrapTags) cs').
    { rewrite forallb_forall in Hl. rewrite List.Forall_forall in Hdeep.
      apply List.Forall_forall. intros x Hx.
      exact (deep_here _ _ (Hdeep x Hx) (Hl x Hx)). }
    rewrite processNode_Element. cbv zeta. rewrite Hrem. unfold a'.
    rewrite isHidden_stripAttributes, isUsefulMeta_stripAttributes, Hmeta.
    rewrite stripAttributes_idempotent. fold cs'.
    rewrite (flat_map_fixed _ _ cs' Hcs). reflexivity. }
  cbv zeta in Hagain.
  repeat match goal with
         | |- context [if ?c then _ else _] => destruct c eqn:?
         end;
    first [ exact Hdeep
          | solve [constructor]
          | constructor; [apply deep_element; [exact Hagain | exact Hdeep] | constructor] ].
Qed.

Lemma deep_unless_link (n : node) :
  deep (fixed_unless_link options unwrapTags) n ->
  lacks "link" n = true ->
  deep (fixed options unwrapTags) n.
Proof.
  induction n as [t a cs IH| | |] using node_ind'; intros Hd Hl;
    try solve [apply deep_leaf; [reflexivity | exact (deep_here _ _ Hd Hl)]].
  apply deep_element; [exact (deep_here _ _ Hd Hl)|].
  pose proof (deep_children _ _ Hd) as Hk. cbn [getChildren] in Hk.
  pose proof (lacks_children _ _ Hl) as Hc. cbn [getChildren] in Hc.
  rewrite forallb_forall in Hc.
  rewrite List.Forall_forall in IH, Hk. apply List.Forall_forall. intros x Hx.
  exact (IH x Hx (Hk x Hx) (Hc x Hx)).
Qed.

End unless_link.

Section first_run_links.

Variable options : WwwaxeOptions.

Lemma settled_lacks_html' (P : node -> Prop) (l : list node) :
  Forall (settled P) l -> forallb (lacks "html") l = true.
Proof.
  intros H. apply forallb_forall. intros x Hx.
  rewrite List.Forall_forall in H. exact (proj2 (H x Hx)).
Qed.

Lemma settled_no_html' (P : node -> Prop) (l : list node) :
  Forall (settled P) l -> findElementDoc "html" l = None.
Proof.
  intros H. apply first_some_none. intros x Hx. apply lacks_iff.
  rewrite List.Forall_forall in H. exact (proj2 (H x Hx)).
Qed.

Lemma processNode_settled_unless (n : node) :
  link_void n = true ->
  lacks "html" n = true ->
  Forall (settled (fixed_unless_link options (getUnwrapTags options)))
    (processNode options (getUnwrapTags options) n).
Proof.
  intros Hv Hl.
  pose proof (processNode_fixed_unless_link options (getUnwrapTags options) n Hv) as Hf.
  pose proof (processNode_lacks options (getUnwrapTags options) "html" n Hl) as Hh.
  rewrite forallb_forall in Hh. rewrite List.Forall_forall in Hf.
  apply List.Forall_forall. intros x Hx. split; [exact (Hf x Hx) | exact (Hh x Hx)].
Qed.

Lemma prune_settled_unless (doc : document) :
  links_void doc = true ->
  forallb (lacks "html") doc = true ->
  Forall (settled (fixed_unless_link options (getUnwrapTags options)))
    (flat_map (processNode options (getUnwrapTags options)) doc).
Proof.
  unfold links_void. induction doc as [|n r IH]; simpl; [constructor|]. intros Hv Hl.
  apply andb_prop in Hv as [Hn Hr]. apply andb_prop in Hl as [Hln Hlr].
  apply List.Forall_app. split; [apply processNode_settled_unless; assumption | apply IH; assumption].
Qed.

Lemma prune_settled_inside_unless (cs : list node) :
  forallb link_void cs = true ->
  forallb top_wrappers_only cs = true ->
  Forall (settled_inside (fixed_unless_link options (getUnwrapTags options)))
    (flat_map (processNode options (getUnwrapTags options)) cs).
Proof.
  induction cs as [|n r IH]; simpl; [constructor|]. intros Hv Hl.
  apply andb_prop in Hv as [Hn Hr]. apply andb_prop in Hl as [Hln Hlr].
  apply List.Forall_app. split; [|apply IH; assumption].
  pose proof (processNode_fixed_unless_link options (getUnwrapTags options) n Hn) as Hf.
  pose proof (processNode_top_wrappers_only options (getUnwrapTags options) n Hln) as Ht.
  rewrite forallb_forall in Ht. rewrite List.Forall_forall in Hf.
  apply List.Forall_forall. intros x Hx. split; [exact (Hf x Hx) | exact (Ht x Hx)].
Qed.

(** The first run on a page of the usual shape, up to the whitespace
    passes: what is left of the kept links apart, the pruner would leave
    every node as it is. *)
Lemma first_run_settled_unless (doc : document) :
  links_void doc = true ->
  page_shaped doc = true ->
  Forall (settled (fixed_unless_link options (getUnwrapTags options)))
    (removeDocumentWrappers (flat_map (processNode options (getUnwrapTags options)) doc)).
Proof.
  unfold links_void. induction doc as [|n r IH]; [constructor|].
  intros Hv Hp. cbn [flat_map].
  cbn [forallb] in Hv. apply andb_prop in Hv as [Hn Hr].
  cbn [page_shaped] in Hp. destruct (tag_is "html" n) eqn:Et.
  - apply andb_prop in Hp as [Hkids Hrest].
    pose proof (prune_settled_unless r Hr Hrest) as Hsr.
    destruct n as [t a hcs| | |]; try discriminate.
    cbn [tag_is] in Et. apply string_eqb_eq in Et.
    cbn [getChildren] in Hkids.
    cbn [link_void] in Hn. apply andb_prop in Hn as [_ Hn].
    rewrite processNode_Element. cbv zeta. rewrite Et.
    change (has REMOVE_TAGS "html") with false.
    change (Str.eqb "html" "meta") with false.
    change (has KEEP_TAGS "html") with true.
    change (has headElements "html") with true.
    cbn [negb andb]. rewrite andb_false_r. cbn [andb].
    destruct (isHidden a options).
    + cbn [app]. rewrite removeDocumentWrappers_no_html; [exact Hsr|].
      apply (settled_no_html' _ _ Hsr).
    + cbn [app]. rewrite removeDocumentWrappers_html by (simpl; rewrite Et; reflexivity).
      cbn [getChildren]. apply List.Forall_app. split; [|exact Hsr].
      eapply List.Forall_impl; [apply settled_inside_settled|].
      apply unwrapDocumentBody_settled, prune_settled_inside_unless; assumption.
  - apply andb_prop in Hp as [Hl Hp].
    pose proof (processNode_settled_unless n Hn Hl) as Hsn.
    rewrite removeDocumentWrappers_app by (apply (settled_lacks_html' _ _ Hsn)).
    apply List.Forall_app. split; [exact Hsn | apply IH; assumption].
Qed.

End first_run_links.

(** *** The first output read again *)

Section reread_trees.

Variable options : WwwaxeOptions.
Variable unwrapTags : gset string.







End reread_trees.


Lemma findElement_mapText (f : string -> string) (tagName : string) (n : node) :
  findElement tagName (mapText f n) = option_map (mapText f) (findElement tagName n).
Proof.
  induction n as [t a cs IH| | |] using node_ind'; try reflexivity.
  cbn [mapText findElement]. destruct (Str.eqb (Str.toLowerCase t) tagName); [reflexivity|].
  induction IH as [|c r Hc _ IHr]; [reflexivity|].
  cbn [map first_some]. rewrite Hc.
  destruct (findElement tagName c); [reflexivity | exact IHr].
Qed.

Lemma lacks_mapText (f : string -> string) (tagName : string) (n : node) :
  lacks tagName (mapText f n) = lacks tagName n.
Proof.
  unfold lacks. rewrite findElement_mapText. destruct (findElement tagName n); reflexivity.
Qed.

Lemma forallb_lacks_mapText (f : string -> string) (tagName : string) (l : list node) :
  forallb (lacks tagName) (map (mapText f) l) = forallb (lacks tagName) l.
Proof.
  induction l as [|n r IH]; [reflexivity|]. cbn [map forallb].
  rewrite lacks_mapText, IH. reflexivity.
Qed.

Lemma deep_fixed_mapText (options : WwwaxeOptions) (unwrapTags : gset string)
    (f : string -> string) (n : node) :
  (forall s, Str.all_space (f s) = Str.all_space s) ->
  deep (fixed options unwrapTags) n ->
  deep (fixed options unwrapTags) (mapText f n).
Proof.
  intros Hf. induction n as [t a cs IH|s|s|d s] using node_ind'; intros Hd;
    try exact Hd.
  - assert (Hn : fixed options unwrapTags (mapText f (Element t a cs))).
    { unfold fixed. rewrite (processNode_mapText f Hf), (deep_here _ _ Hd). reflexivity. }
    cbn [mapText] in *. apply deep_element; [exact Hn|].
    pose proof (deep_children _ _ Hd) as Hk. cbn [getChildren] in Hk.
    rewrite List.Forall_forall in IH, Hk. apply List.Forall_forall. intros x Hx.
    apply in_map_iff in Hx as (c & <- & Hc). exact (IH c Hc (Hk c Hc)).
  - apply deep_leaf; reflexivity.
Qed.




(** The tree of the first run on a page of the usual shape with no [link]
    left in it: the pruner would leave every node as it is, and no [html]
    element is in it. *)
Lemma first_tree_fixed (options : WwwaxeOptions) (doc : document) :
  markdown options = Some false ->
  flag (core options) = false ->
  links_void doc = true ->
  page_shaped doc = true ->
  forallb (lacks "link") (wwwaxe_tree options doc) = true ->
  Forall (deep (fixed options (getUnwrapTags options))) (wwwaxe_tree options doc)
  /\ forallb (lacks "html") (wwwaxe_tree options doc) = true.
Proof.
  intros Hm Hc Hv Hp Hlink.
  rewrite (wwwaxe_tree_markup options doc Hm Hc) in *.
  pose proof (first_run_settled_unless options doc Hv Hp) as Hs.
  fold (prune options doc) in Hs.
  set (F := removeDocumentWrappers (prune options doc)) in *.
  rewrite forallb_lacks_mapText in Hlink. rewrite forallb_forall in Hlink.
  split.
  - rewrite List.Forall_forall in Hs. apply List.Forall_forall. intros x Hx.
    apply in_map_iff in Hx as (c & <- & Hc').
    apply deep_fixed_mapText; [exact all_space_tidyText|].
    exact (deep_unless_link _ _ c (proj1 (Hs c Hc')) (Hlink c Hc')).
  - rewrite forallb_lacks_mapText. exact (settled_lacks_html' _ _ Hs).
Qed.

(** A tree of nodes the pruner leaves as they are, with no [html] element,
    goes through the pipeline with its white space tidied and nothing
    else changed. *)
Lemma fixed_tree_tidied (options : WwwaxeOptions) (t : document) :
  markdown options = Some false ->
  flag (core options) = false ->
  Forall (deep (fixed options (getUnwrapTags options))) t ->
  forallb (lacks "html") t = true ->
  wwwaxe_tree options t = map (mapText tidyText) t.
Proof.
  intros Hm Hc Hd Hhtml. rewrite (wwwaxe_tree_markup options t Hm Hc).
  assert (Hprune : prune options t = t).
  { unfold prune. apply flat_map_fixed.
    eapply List.Forall_impl; [|exact Hd]. apply deep_here. }
  rewrite Hprune, removeDocumentWrappers_no_html; [reflexivity|].
  apply first_some_none. intros x Hx. apply lacks_iff.
  rewrite forallb_forall in Hhtml. exact (Hhtml x Hx).
Qed.




Example plain_page_result :
  wwwaxe_tree markup_options plain_page
  = [Directive "!doctype" "!DOCTYPE html";
     Text " ";
     Element "h1" (attrs [("id", "top")]) [Text " Title here "];
     Element "p" ∅ [Text "a"; Text "b"; Text " "]].
Proof. vm_compute. reflexivity. Qed.

(** * Further properties of the code *)

(** ** Searching the tree *)

Lemma first_some_none_iff {A B : Type} (g : A -> option B) (l : list A) :
  first_some g l = None <-> forall x, In x l -> g x = None.
Proof. split; [apply first_some_none_inv | apply first_some_none]. Qed.

Lemma findElements_are_elements (p : node -> bool) (n e : node) :
  In e (findElements p n) -> isTag e = true.
Proof.
  revert e. induction n as [t a cs IH| | |] using node_ind'; simpl; try tauto.
  intros e He. apply in_app_or in He as [He|He].
  - destruct (p (Element t a cs)); [|destruct He]. destruct He as [<-|[]]. reflexivity.
  - apply in_flat_map in He as (c & Hin & Hc).
    rewrite List.Forall_forall in IH. exact (IH c Hin e Hc).
Qed.

(** X1.  [findElement] returns the first element, in document order, of
    those [findElements] lists for the tag, and nothing exactly when there
    is none; what it returns is an element with that tag, in lower case,
    taken from the tree. *)
Theorem X1_findElement_first_in_document_order (tagName : string) (n : node) :
  findElement tagName n = head (findElements (tag_is tagName) n)
  /\ (findElement tagName n = None <-> findElements (tag_is tagName) n = [])
  /\ (forall e, findElement tagName n = Some e ->
                tag_is tagName e = true /\ incl (atoms e) (atoms n)).
Proof.
  split; [apply findElement_head|]. split.
  - rewrite findElement_head. destruct (findElements _ n); simpl; split; congruence.
  - intros e He. split; [|exact (findElement_atoms _ _ _ He)].
    rewrite findElement_head in He.
    apply (findElements_satisfy (tag_is tagName) n e).
    destruct (findElements _ n); [discriminate|]. injection He as ->. left. reflexivity.
Qed.

(** X2.  [findById] returns the first element, in document order, whose
    [id] attribute is exactly the id asked for, and nothing exactly when no
    element bears it; the comparison is on the value as it stands, case
    included. *)
Theorem X2_findById_first_with_id (id : string) (n : node) :
  findById id n = head (findElements (id_is id) n)
  /\ (findById id n = None <-> findElements (id_is id) n = [])
  /\ (forall e, findById id n = Some e ->
                isTag e = true
                /\ node_attribs e !! "id" = Some id
                /\ incl (atoms e) (atoms n)).
Proof.
  split; [apply findById_head|]. split.
  - rewrite findById_head. destruct (findElements _ n); simpl; split; congruence.
  - intros e He. pose proof (findById_atoms _ _ _ He) as Hin.
    rewrite findById_head in He.
    assert (Hmem : In e (findElements (id_is id) n)).
    { destruct (findElements _ n); [discriminate|]. injection He as ->. left. reflexivity. }
    split; [exact (findElements_are_elements _ _ _ Hmem)|]. split; [|exact Hin].
    apply findElements_satisfy in Hmem. unfold id_is in Hmem.
    apply bool_decide_eq_true in Hmem. exact Hmem.
Qed.

Lemma X2_witness :
  isTag (Element "div" (attrs [("id", "start")]) [Element "p" ∅ [Text "Body"]]) = true
  /\ node_attribs (Element "div" (attrs [("id", "start")]) [Element "p" ∅ [Text "Body"]])
     !! "id" = Some "start"
  /\ incl (atoms (Element "div" (attrs [("id", "start")]) [Element "p" ∅ [Text "Body"]]))
       (atoms (Element "main" ∅ two_skip_links)).
Proof.
  apply (proj2 (proj2 (X2_findById_first_with_id "start" (Element "main" ∅ two_skip_links)))).
  vm_compute. reflexivity.
Defined.

Lemma X1_witness :
  tag_is "p" (Element "p" ∅ [Text "Body"]) = true
  /\ incl (atoms (Element "p" ∅ [Text "Body"])) (atoms (Element "main" ∅ two_skip_links)).
Proof.
  apply (proj2 (proj2 (X1_findElement_first_in_document_order "p"
                         (Element "main" ∅ two_skip_links)))).
  vm_compute. reflexivity.
Defined.

(** ** The sanitizer and the tests that read attributes *)

Lemma isEventAttribute_not_data (s : string) :
  isEventAttribute s = true -> isDataAttribute s = false.
Proof.
  unfold isEventAttribute, isDataAttribute.
  destruct s as [|c r]; [discriminate|]. cbn [Str.startsWith].
  intros H. apply andb_prop in H as [H _]. apply andb_prop in H as [H _].
  apply N.eqb_eq in H. subst c. reflexivity.
Qed.

Lemma keeps_attribute_content_worthy (options : WwwaxeOptions) (k : string) :
  keeps_attribute options k = content_worthy options k.
Proof.
  unfold keeps_attribute, content_worthy. cbv zeta.
  destruct (has CONTENT_ATTRIBUTES (Str.toLowerCase k)) eqn:E.
  - unfold has in E. apply bool_decide_eq_true in E.
    unfold CONTENT_ATTRIBUTES in E. rewrite elem_of_list_to_set in E.
    repeat (apply elem_of_cons in E as [E|E]; [rewrite E; reflexivity|]).
    apply elem_of_nil in E. destruct E.
  - destruct (string_eqb_spec (Str.toLowerCase k) "style") as [->|_]; [reflexivity|].
    destruct (string_eqb_spec (Str.toLowerCase k) "class") as [->|_];
      [destruct (flag (keepClasses options)); reflexivity|].
    destruct (string_eqb_spec (Str.toLowerCase k) "id") as [->|_];
      [destruct (not_false (keepIds options)); reflexivity|].
    destruct (isEventAttribute (Str.toLowerCase k)) eqn:Ev.
    + rewrite (isEventAttribute_not_data _ Ev). reflexivity.
    + destruct (isDataAttribute (Str.toLowerCase k));
        destruct (flag (keepDataAttributes options)); reflexivity.
Qed.

(** X3.  [stripAttributes] only takes attributes away: what it leaves has
    the value it had, and sanitizing a second time changes nothing. *)
Theorem X3_stripAttributes_submap_idempotent (a : gmap string string)
    (options : WwwaxeOptions) :
  stripAttributes a options ⊆ a
  /\ stripAttributes (stripAttributes a options) options = stripAttributes a options.
Proof.
  split; [apply map_filter_subseteq | apply stripAttributes_idempotent].
Qed.

(** X4.  The sanitizer and [hasContentAttributes] agree on every name: an
    attribute is kept exactly when it counts as content-worthy.  So on a
    sanitized element [hasContentAttributes] holds exactly when some
    attribute is left, and a presentational wrapper is unwrapped exactly
    when the sanitizer has left it bare. *)
Theorem X4_kept_attributes_are_the_content_worthy (a : gmap string string)
    (options : WwwaxeOptions) :
  (forall k, keeps_attribute options k = content_worthy options k)
  /\ (hasContentAttributes (stripAttributes a options) options = true
      <-> stripAttributes a options <> ∅).
Proof.
  split; [apply keeps_attribute_content_worthy|].
  unfold hasContentAttributes. rewrite existsb_exists. split.
  - intros ([k v] & Hin & _) Hempty. rewrite Hempty in Hin.
    rewrite map_to_list_empty in Hin. destruct Hin.
  - intros Hne. apply map_choose in Hne as (k & v & Hk).
    exists (k, v). split.
    + apply list_elem_of_In, elem_of_map_to_list. exact Hk.
    + simpl. rewrite <- keeps_attribute_content_worthy.
      rewrite stripAttributes_lookup in Hk.
      destruct (keeps_attribute options k); [reflexivity | discriminate].
Qed.

(** X5.  The sanitizer takes away every attribute the visibility filter
    and the link exception read, and none the meta filter reads: a
    sanitized element is never hidden, a sanitized [link] is never a kept
    one, and a [meta] is useful after sanitizing exactly when it was. *)
Theorem X5_sanitized_read_by_the_guards (a : gmap string string)
    (options : WwwaxeOptions) :
  isHidden (stripAttributes a options) options = false
  /\ isUsefulLink (stripAttributes a options) = false
  /\ isUsefulMeta (stripAttributes a options) = isUsefulMeta a.
Proof.
  split; [apply isHidden_stripAttributes|]. split; [|apply isUsefulMeta_stripAttributes].
  unfold isUsefulLink, attr_or_empty.
  rewrite stripAttributes_lookup, (keeps_rel options "rel" eq_refl). reflexivity.
Qed.

(** ** The shape of a pruned tree *)

Lemma deep_subtrees (P : node -> Prop) (n : node) :
  deep P n -> Forall P (subtrees n).
Proof.
  induction n as [t a cs IH| | |] using node_ind'; intros H;
    try (constructor; [apply (deep_here _ _ H) | constructor]).
  simpl. constructor; [apply (deep_here _ _ H)|].
  pose proof (deep_children _ _ H) as Hk. simpl in Hk. clear H.
  induction IH as [|c r Hc _ IHr]; simpl; [constructor|].
  apply List.Forall_cons_iff in Hk as [Hk1 Hk2].
  apply List.Forall_app. split; [apply Hc, Hk1 | apply IHr, Hk2].
Qed.

Lemma Forall_deep_subtrees (P : node -> Prop) (l : list node) :
  Forall (deep P) l -> Forall P (flat_map subtrees l).
Proof.
  induction 1 as [|x r Hx _ IH]; simpl; [constructor|].
  apply List.Forall_app. split; [apply deep_subtrees, Hx | exact IH].
Qed.

Section shape.

Variable options : WwwaxeOptions.
Variable unwrapTags : gset string.

Lemma processNode_shape (n : node) :
  link_void n = true ->
  Forall (deep (pruned_shape options unwrapTags)) (processNode options unwrapTags n).
Proof.
  induction n as [t a cs IH| | |] using node_ind'; intros Hv;
    try solve [simpl;
               repeat first [ apply List.Forall_nil | apply List.Forall_cons
                            | apply deep_leaf | reflexivity | exact I ]].
  simpl in Hv. apply andb_prop in Hv as [Hlink Hv].
  assert (Hdeep : Forall (deep (pruned_shape options unwrapTags))
                    (flat_map (processNode options unwrapTags) cs)).
  { clear Hlink. induction IH as [|c r Hc _ IHr]; simpl; [constructor|].
    simpl in Hv. apply andb_prop in Hv as [Hc1 Hr1].
    apply List.Forall_app. split; [apply Hc, Hc1 | apply IHr, Hr1]. }
  rewrite processNode_Element. cbv zeta.
  destruct (has REMOVE_TAGS (Str.toLowerCase t)) eqn:Hrem.
  { destruct (string_eqb_spec (Str.toLowerCase t) "link") as [El|El]; [|constructor].
    destruct (isUsefulLink a); [|constructor]. simpl.
    destruct cs; [|discriminate].
    constructor; [|constructor]. apply deep_element; [|constructor].
    left. exact El. }
  destruct (isHidden a options) eqn:Hhid; [constructor|].
  destruct (Str.eqb (Str.toLowerCase t) "meta" && negb (isUsefulMeta a)) eqn:Hmeta;
    [constructor|].
  set (cs' := flat_map (processNode options unwrapTags) cs) in *.
  set (a' := stripAttributes a options).
  assert (Hme : Str.toLowerCase t = "meta" -> isUsefulMeta a' = true).
  { intros Et. unfold a'. rewrite isUsefulMeta_stripAttributes.
    rewrite Et in Hmeta. simpl in Hmeta. apply negb_false_iff in Hmeta. exact Hmeta. }
  destruct (has KEEP_TAGS (Str.toLowerCase t)) eqn:Hkeep; cbn [negb].
  - destruct (negb (has voidElements (Str.toLowerCase t))
              && negb (has headElements (Str.toLowerCase t))
              && negb (hasMeaningfulContent (Element t a' cs'))) eqn:Hsw; [constructor|].
    constructor; [|constructor]. apply deep_element; [|exact Hdeep].
    right. cbv zeta. split; [exact Hrem|]. split; [exact Hme|].
    split; [intros; congruence|]. split; [intros; congruence|].
    intros Hvo Hhe. rewrite Hvo, Hhe in Hsw. simpl in Hsw.
    apply negb_false_iff in Hsw. exact Hsw.
  - destruct (has unwrapTags (Str.toLowerCase t)
              && negb (hasContentAttributes a' options)) eqn:Hun; [exact Hdeep|].
    destruct (hasMeaningfulContent (Element t a' cs')) eqn:Hmc; cbn [negb]; [|constructor].
    rewrite andb_false_r.
    constructor; [|constructor]. apply deep_element; [|exact Hdeep].
    right. cbv zeta. split; [exact Hrem|]. split; [exact Hme|].
    split; [|split; intros; exact Hmc].
    intros _ Hu. rewrite Hu in Hun. simpl in Hun. apply negb_false_iff in Hun. exact Hun.
Qed.

Lemma prune_shape (doc : document) :
  links_void doc = true ->
  Forall (pruned_shape options unwrapTags)
    (flat_map subtrees (flat_map (processNode options unwrapTags) doc)).
Proof.
  intros Hv. apply Forall_deep_subtrees.
  induction doc as [|n r IH]; simpl; [constructor|].
  simpl in Hv. apply andb_prop in Hv as [Hn Hr].
  apply List.Forall_app. split; [apply processNode_shape, Hn | apply IH, Hr].
Qed.

End shape.

Lemma unwrap_tags_not_kept (x : string) :
  has UNWRAP_TAGS x = true -> has KEEP_TAGS x = false.
Proof.
  unfold has at 1. intros E. apply bool_decide_eq_true in E.
  unfold UNWRAP_TAGS in E. rewrite elem_of_list_to_set in E.
  repeat (apply elem_of_cons in E as [E|E]; [rewrite E; reflexivity|]).
  apply elem_of_nil in E. destruct E.
Qed.

Lemma getUnwrapTags_subset (options : WwwaxeOptions) (x : string) :
  has (getUnwrapTags options) x = true -> has UNWRAP_TAGS x = true.
Proof.
  unfold getUnwrapTags, has. destruct (not_false (markdown options)); [|auto].
  intros H. apply bool_decide_eq_true in H. apply bool_decide_eq_true.
  apply elem_of_difference in H as [H _]. exact H.
Qed.

(** X6.  The pruner leaves no empty element behind: every element of the
    pruned tree, at any depth, has meaningful content, unless its tag is
    [link], one of the void tags br, hr, img, input, meta, source, track,
    col, base, or one of head, html, body, title.  The input is a tree of
    the parser, in which a [link] element has no children. *)
Theorem X6_pruned_elements_have_content (options : WwwaxeOptions) (doc : document) :
  links_void doc = true ->
  List.Forall
    (fun n =>
       match n with
       | Element t _ _ =>
           Str.toLowerCase t = "link"
           \/ In (Str.toLowerCase t)
                ["br"; "hr"; "img"; "input"; "meta"; "source"; "track"; "col"; "base";
                 "head"; "html"; "body"; "title"]
           \/ hasMeaningfulContent n = true
       | _ => True
       end)
    (flat_map subtrees (prune options doc)).
Proof.
  intros Hv. eapply List.Forall_impl; [|apply (prune_shape options _ doc Hv)].
  intros [t a cs| | |]; try trivial. simpl.
  intros [Hl|(_ & _ & _ & _ & Hc)]; [left; exact Hl|]. right.
  destruct (has voidElements (Str.toLowerCase t)) eqn:Hvo.
  { left. unfold has in Hvo. apply bool_decide_eq_true in Hvo.
    unfold voidElements in Hvo. rewrite elem_of_list_to_set in Hvo.
    repeat (apply elem_of_cons in Hvo as [Hvo|Hvo]; [rewrite Hvo; simpl; tauto|]).
    apply elem_of_nil in Hvo. destruct Hvo. }
  destruct (has headElements (Str.toLowerCase t)) eqn:Hhe.
  { left. unfold has in Hhe. apply bool_decide_eq_true in Hhe.
    unfold headElements in Hhe. rewrite elem_of_list_to_set in Hhe.
    repeat (apply elem_of_cons in Hhe as [Hhe|Hhe]; [rewrite Hhe; simpl; tauto|]).
    apply elem_of_nil in Hhe. destruct Hhe. }
  right. apply Hc; reflexivity.
Qed.

Lemma X6_witness :
  links_void sample_page = true
  /\ List.Forall
       (fun n =>
          match n with
          | Element t _ _ =>
              Str.toLowerCase t = "link"
              \/ In (Str.toLowerCase t)
                   ["br"; "hr"; "img"; "input"; "meta"; "source"; "track"; "col"; "base";
                    "head"; "html"; "body"; "title"]
              \/ hasMeaningfulContent n = true
          | _ => True
          end)
       (flat_map subtrees (prune default_options sample_page)).
Proof.
  split; [reflexivity|].
  apply (X6_pruned_elements_have_content default_options sample_page). reflexivity.
Defined.

(** X7.  The pruner leaves no bare presentational wrapper behind: every
    element of the pruned tree whose tag is in the effective unwrap set
    (span, div, ... and, with markdown off, also strong, b, em, i, code,
    del, s, strike) carries at least one attribute.  The input is a tree of
    the parser, in which a [link] element has no children. *)
Theorem X7_pruned_wrappers_carry_attributes (options : WwwaxeOptions) (doc : document) :
  links_void doc = true ->
  List.Forall
    (fun n =>
       match n with
       | Element t a _ =>
           has (getUnwrapTags options) (Str.toLowerCase t) = true -> a <> ∅
       | _ => True
       end)
    (flat_map subtrees (prune options doc)).
Proof.
  intros Hv. eapply List.Forall_impl; [|apply (prune_shape options _ doc Hv)].
  intros [t a cs| | |]; try trivial. simpl.
  intros Hs Hu. pose proof (getUnwrapTags_subset _ _ Hu) as Hu'.
  destruct Hs as [Hl|(_ & _ & Hc & _)].
  - rewrite Hl in Hu'. vm_compute in Hu'. discriminate.
  - specialize (Hc (unwrap_tags_not_kept _ Hu') Hu).
    intros ->. unfold hasContentAttributes in Hc.
    rewrite map_to_list_empty in Hc. discriminate.
Qed.

Lemma X7_witness :
  links_void sample_page = true
  /\ List.Forall
       (fun n =>
          match n with
          | Element t a _ =>
              has (getUnwrapTags markup_options) (Str.toLowerCase t) = true -> a <> ∅
          | _ => True
          end)
       (flat_map subtrees (prune markup_options sample_page)).
Proof.
  split; [reflexivity|].
  apply (X7_pruned_wrappers_carry_attributes markup_options sample_page). reflexivity.
Defined.

(** X8.  Every [meta] element of the pruned tree is a useful one: its
    [name] is description, author, keywords, robots or viewport or starts
    with twitter:, or its [property] starts with og:, or it has a non-empty
    [charset], or its [http-equiv] is content-type.  The input is a tree of
    the parser, in which a [link] element has no children. *)
Theorem X8_pruned_metas_are_useful (options : WwwaxeOptions) (doc : document) :
  links_void doc = true ->
  List.Forall
    (fun n =>
       match n with
       | Element t a _ => Str.toLowerCase t = "meta" -> isUsefulMeta a = true
       | _ => True
       end)
    (flat_map subtrees (prune options doc)).
Proof.
  intros Hv. eapply List.Forall_impl; [|apply (prune_shape options _ doc Hv)].
  intros [t a cs| | |]; try trivial. simpl.
  intros [Hl|(_ & Hm & _)] Hmeta; [congruence | exact (Hm Hmeta)].
Qed.

Lemma X8_witness :
  links_void sample_page = true
  /\ List.Forall
       (fun n =>
          match n with
          | Element t a _ => Str.toLowerCase t = "meta" -> isUsefulMeta a = true
          | _ => True
          end)
       (flat_map subtrees (prune default_options sample_page)).
Proof.
  split; [reflexivity|].
  apply (X8_pruned_metas_are_useful default_options sample_page). reflexivity.
Defined.

(** X9.  Whatever the configuration, pruning a pruned tree changes
    nothing, provided the input has no [link] element whose [rel] is
    canonical or alternate. *)
Theorem X9_prune_idempotent (options : WwwaxeOptions) (doc : document) :
  existsb (any_element kept_link) doc = false ->
  prune options (prune options doc) = prune options doc.
Proof. intros H. unfold prune. apply prune_fixed, H. Qed.

Lemma X9_witness :
  prune default_options (prune default_options plain_page)
  = prune default_options plain_page.
Proof. apply (X9_prune_idempotent default_options plain_page). reflexivity. Defined.

(** X10.  The pruner and the two whitespace passes commute: collapsing
    white space and cleaning text nodes before pruning gives the tree that
    pruning first gives.  The pruner reads of a text only whether it is
    white space throughout, which the two passes do not change. *)
Theorem X10_prune_commutes_with_whitespace (options : WwwaxeOptions) (doc : document) :
  prune options (map cleanTextNode (map collapseWhitespace doc))
  = map cleanTextNode (map collapseWhitespace (prune options doc)).
Proof.
  rewrite !tidyDoc_mapText. unfold prune. apply flat_map_map_commute.
  apply List.Forall_forall. intros n _. apply processNode_mapText, all_space_tidyText.
Qed.

(** ** The whitespace passes *)

Lemma solid_squeeze (cls : N -> bool) (b : bool) (s : string) :
  (forall c, cls c = true -> is_tab_nl_cr c || is_blank c = true) ->
  solid (squeeze cls b s) = solid s.
Proof.
  intros Hcls. revert b. induction s as [|c r IH]; intros b; simpl; [reflexivity|].
  destruct (cls c) eqn:E.
  - rewrite (Hcls c E). destruct b; simpl; apply IH.
  - simpl. rewrite IH. reflexivity.
Qed.

Lemma is_blank_eqb (c : N) : is_blank c = false -> (32%N =? c)%N = false.
Proof.
  intros H. destruct (N.eqb_spec 32%N c) as [<-|]; [discriminate | reflexivity].
Qed.

Lemma squeeze_blank_no_double (b : bool) (s : string) :
  Str.includes "  " (squeeze is_blank b s) = false
  /\ (b = true -> Str.startsWith " " (squeeze is_blank b s) = false).
Proof.
  revert b. induction s as [|c r IH]; intros b.
  - split; [reflexivity | intros _; reflexivity].
  - cbn [squeeze]. destruct (is_blank c) eqn:E.
    + destruct b.
      * apply IH.
      * split; [|discriminate].
        destruct (IH true) as [H1 H2]. specialize (H2 eq_refl).
        cbn [Str.includes Str.startsWith]. rewrite H1.
        change ((32%N =? 32%N)%N) with true. cbn [andb].
        cbn [Str.startsWith] in H2.
        destruct (squeeze is_blank true r) as [|c' r'] eqn:Er; [reflexivity|].
        cbn [Str.startsWith] in *. rewrite andb_true_r in *. rewrite H2. reflexivity.
    + destruct (IH false) as [H1 _]. split.
      * cbn [Str.includes Str.startsWith]. rewrite H1, (is_blank_eqb c E). reflexivity.
      * intros _. cbn [Str.startsWith]. rewrite (is_blank_eqb c E). reflexivity.
Qed.

(** X11.  [collapseWhitespace] on one text: the result holds no tab, line
    feed or carriage return and no two spaces in a row, a second pass
    changes nothing, and apart from those four characters the text is what
    it was. *)
Theorem X11_collapseText_normal_form (s : string) :
  free_of is_tab_nl_cr (collapseText s) = true
  /\ Str.includes "  " (collapseText s) = false
  /\ collapseText (collapseText s) = collapseText s
  /\ solid (collapseText s) = solid s.
Proof.
  split; [|split; [|split]].
  - unfold collapseText. apply free_of_squeeze_other; [reflexivity|].
    apply free_of_squeeze_self. reflexivity.
  - unfold collapseText. apply squeeze_blank_no_double.
  - apply collapseText_idempotent.
  - unfold collapseText. rewrite !solid_squeeze; [reflexivity| |].
    + intros c H. rewrite H. reflexivity.
    + intros c H. rewrite H. apply orb_true_r.
Qed.

(** X12.  The two whitespace passes on one text, in the order of the
    pipeline: a text that is white space throughout ends at most one
    character long (a single space when it was longer), and a text with
    anything else in it is left by [cleanTextNodes] as [collapseWhitespace]
    made it.  Whether a text is white space throughout is not changed. *)
Theorem X12_blank_texts_shrink_to_one (s : string) :
  (Str.all_space s = true ->
   (Str.length (cleanText (collapseText s)) <= 1)%nat
   /\ ((1 < Str.length (collapseText s))%nat -> cleanText (collapseText s) = " "))
  /\ (Str.all_space s = false -> cleanText (collapseText s) = collapseText s)
  /\ Str.all_space (cleanText (collapseText s)) = Str.all_space s.
Proof.
  pose proof (trim_length_all_space (collapseText s)) as Ht.
  rewrite all_space_collapseText in Ht.
  split; [|split].
  - intros Hs. rewrite Hs in Ht. simpl in Ht. apply Nat.ltb_ge in Ht.
    assert (H0 : (Str.length (Str.trim (collapseText s)) =? 0)%nat = true)
      by (apply Nat.eqb_eq; lia).
    unfold cleanText. rewrite H0. cbn [andb].
    destruct (1 <? Str.length (collapseText s))%nat eqn:E.
    + split; [simpl; lia | reflexivity].
    + apply Nat.ltb_ge in E. split; [exact E | lia].
  - intros Hs. rewrite Hs in Ht. simpl in Ht. apply Nat.ltb_lt in Ht.
    unfold cleanText.
    destruct (Str.length (Str.trim (collapseText s)) =? 0)%nat eqn:E;
      [apply Nat.eqb_eq in E; lia | reflexivity].
  - apply all_space_tidyText.
Qed.

Lemma X12_witness :
  (Str.length (cleanText (collapseText "
      ")) <= 1)%nat
  /\ ((1 < Str.length (collapseText "
      "))%nat -> cleanText (collapseText "
      ") = " ").
Proof.
  apply (proj1 (X12_blank_texts_shrink_to_one "
      ")). reflexivity.
Defined.

(** ** The wrapper remover and the chrome remover *)

Lemma deep_trivial (n : node) : deep (fun _ => True) n.
Proof.
  induction n as [t a cs IH| | |] using node_ind';
    [apply deep_element; [exact I | exact IH] | apply deep_leaf; [reflexivity | exact I] ..].
Qed.

Lemma removeDocumentWrappers_page (doc : document) :
  page_shaped doc = true ->
  forallb (lacks "html") (removeDocumentWrappers doc) = true.
Proof.
  induction doc as [|n r IH]; [reflexivity|].
  cbn [page_shaped]. destruct (tag_is "html" n) eqn:Et; intros Hp.
  - apply andb_prop in Hp as [Hkids Hrest].
    rewrite (removeDocumentWrappers_html n r Et), forallb_app, Hrest, andb_true_r.
    assert (Hs : Forall (settled_inside (fun _ => True))
                   (unwrapDocumentBody (getChildren n))).
    { apply unwrapDocumentBody_settled. apply List.Forall_forall. intros c Hc.
      split; [apply deep_trivial|]. rewrite forallb_forall in Hkids. exact (Hkids c Hc). }
    apply forallb_forall. intros c Hc. rewrite List.Forall_forall in Hs.
    apply top_wrappers_only_lacks_html. exact (proj2 (Hs c Hc)).
  - apply andb_prop in Hp as [Hl Hp].
    change (n :: r) with ([n] ++ r).
    rewrite removeDocumentWrappers_app by (simpl; rewrite Hl; reflexivity).
    simpl. rewrite Hl. exact (IH Hp).
Qed.

(** X13.  [removeDocumentWrappers] leaves a tree without [html] element as
    it is, never adds an element or a comment, and on a page of the usual
    shape (one [html] element at the top level, [head] and [body] among its
    children only) leaves no [html] element at all. *)
Theorem X13_wrappers_removed (doc : document) :
  (findElementDoc "html" doc = None -> removeDocumentWrappers doc = doc)
  /\ incl (atomsDoc (removeDocumentWrappers doc)) (atomsDoc doc)
  /\ (page_shaped doc = true ->
      findElementDoc "html" (removeDocumentWrappers doc) = None).
Proof.
  split; [apply removeDocumentWrappers_no_html|].
  split; [apply removeDocumentWrappers_atoms|].
  intros Hp. apply first_some_none. intros x Hx. apply lacks_iff.
  pose proof (removeDocumentWrappers_page doc Hp) as H.
  rewrite forallb_forall in H. exact (H x Hx).
Qed.

Lemma X13_witness :
  findElementDoc "html" (removeDocumentWrappers sample_page) = None.
Proof. apply (proj2 (proj2 (X13_wrappers_removed sample_page))). reflexivity. Defined.

Lemma removeChrome_settles (n : node) :
  Forall (fun m => removeChrome m = [m]) (removeChrome n).
Proof.
  induction n as [t a cs IH| | |] using node_ind';
    try (constructor; [reflexivity | constructor]).
  simpl. destruct (isChrome t a) eqn:E; [constructor|].
  constructor; [|constructor]. simpl. rewrite E. do 2 f_equal.
  induction IH as [|c r Hc _ IHr]; simpl; [reflexivity|].
  rewrite flat_map_app, IHr. f_equal.
  clear IHr. induction Hc as [|x l Hx _ IHl]; simpl; [reflexivity|].
  rewrite Hx, IHl. reflexivity.
Qed.

Lemma removeChrome_chrome_free_id (n : node) :
  any_element isChrome n = false -> removeChrome n = [n].
Proof.
  induction n as [t a cs IH| | |] using node_ind'; try reflexivity.
  simpl. intros H. apply orb_false_elim in H as [Ht Hcs]. rewrite Ht. do 2 f_equal.
  induction IH as [|c r Hc _ IHr]; simpl; [reflexivity|].
  simpl in Hcs. apply orb_false_elim in Hcs as [H1 H2].
  rewrite (Hc H1), (IHr H2). reflexivity.
Qed.

(** X14.  [removeChromeElements] leaves a tree with no chrome element as it
    is, and its result is such a tree: a second pass changes nothing. *)
Theorem X14_removeChromeElements_settles (doc : document) :
  (existsb (any_element isChrome) doc = false -> removeChromeElements doc = doc)
  /\ removeChromeElements (removeChromeElements doc) = removeChromeElements doc.
Proof.
  unfold removeChromeElements. split.
  - induction doc as [|n r IH]; simpl; [reflexivity|]. intros H.
    apply orb_false_elim in H as [H1 H2].
    rewrite (removeChrome_chrome_free_id n H1), (IH H2). reflexivity.
  - induction doc as [|n r IH]; simpl; [reflexivity|].
    rewrite flat_map_app, IH. f_equal.
    pose proof (removeChrome_settles n) as H.
    induction H as [|x l Hx _ IHl]; simpl; [reflexivity|]. rewrite Hx, IHl. reflexivity.
Qed.

Lemma X14_witness : removeChromeElements two_skip_links = two_skip_links.
Proof. apply (proj1 (X14_removeChromeElements_settles two_skip_links)). reflexivity. Defined.

(** ** The markdown rewriter *)

Lemma rewriteTag_markdown_tag (b : bool) t a cs :
  Str.mem (Str.toLowerCase t) MARKDOWN_TAGS = true ->
  (b = true /\ Str.toLowerCase t = "code")
  \/ exists s, rewriteTag b (Element t a cs) = Text s.
Proof.
  unfold Str.mem, MARKDOWN_TAGS. cbn [existsb]. intros H.
  repeat (apply orb_prop in H as [H|H];
          [apply string_eqb_eq in H;
           first [ right; unfold rewriteTag; rewrite H; eexists; reflexivity
                 | destruct b;
                   [ left; split; [reflexivity | exact H]
                   | right; unfold rewriteTag; rewrite H; eexists; reflexivity ] ]
          |]).
  discriminate.
Qed.

Lemma rewriteTag_other_tag (b : bool) t a cs :
  Str.mem (Str.toLowerCase t) MARKDOWN_TAGS = false ->
  rewriteTag b (Element t a cs) = Element t a cs.
Proof.
  unfold Str.mem, MARKDOWN_TAGS. cbn [existsb]. intros H.
  repeat (apply orb_false_elim in H as [?E H]).
  unfold rewriteTag, heading_level, Str.mem. cbn [existsb].
  rewrite E, E0, E1, E2, E3, E4, E5, E6, E7, E8, E9, E10, E11, E12, E13, E14, E15,
    E16, E17, E18, E19, E20.
  reflexivity.
Qed.

Lemma markdownRewrite_no_markdown_tag (n : node) :
  List.Forall no_markdown_tag (atoms (markdownRewrite false n)).
Proof.
  induction n as [t a cs IH| | |] using node_ind'; try solve [simpl; repeat constructor].
  rewrite markdownRewrite_Element.
  destruct (string_eqb_spec (Str.toLowerCase t) "pre") as [E|E].
  { rewrite (rewriteTag_pre _ _ _ _ E). constructor. }
  destruct (Str.mem (Str.toLowerCase t) MARKDOWN_TAGS) eqn:Em.
  - destruct (rewriteTag_markdown_tag false t a (map (markdownRewrite false) cs) Em)
      as [[Hb _]|[s ->]]; [discriminate | constructor].
  - rewrite (rewriteTag_other_tag _ _ _ _ Em). simpl. constructor; [exact Em|].
    clear E Em. induction IH as [|c r Hc _ IHr]; simpl; [constructor|].
    apply List.Forall_app. split; assumption.
Qed.

Lemma markdownRewrite_nothing_to_do (b : bool) (n : node) :
  List.Forall no_markdown_tag (atoms n) -> markdownRewrite b n = n.
Proof.
  revert b. induction n as [t a cs IH| | |] using node_ind'; intros b H; try reflexivity.
  rewrite markdownRewrite_Element. simpl in H.
  apply List.Forall_cons_iff in H as [Ht Hcs]. simpl in Ht.
  assert (Hmap : map (markdownRewrite (Str.eqb (Str.toLowerCase t) "pre")) cs = cs).
  { induction IH as [|c r Hc _ IHr]; simpl; [reflexivity|].
    simpl in Hcs. apply List.Forall_app in Hcs as [H1 H2].
    rewrite (Hc _ H1), (IHr H2). reflexivity. }
  rewrite Hmap. apply rewriteTag_other_tag, Ht.
Qed.

(** X15.  After the markdown rewriter no element is left, at any depth,
    whose tag it has a case for: strong, b, em, i, del, s, strike, a, img,
    code, pre, h1 to h6, blockquote, ul, ol, hr, br.  A [code] directly
    under a [pre] is kept by its own case, and goes with the [pre]. *)
Theorem X15_markdown_leaves_no_convertible_tag (doc : document) :
  List.Forall
    (fun x =>
       match x with
       | AElem t _ =>
           ~ In (Str.toLowerCase t)
               ["strong"; "b"; "em"; "i"; "del"; "s"; "strike"; "a"; "img"; "code";
                "pre"; "h1"; "h2"; "h3"; "h4"; "h5"; "h6"; "blockquote"; "ul"; "ol";
                "hr"; "br"]
       | AComment _ => True
       end)
    (atomsDoc (map (markdownRewrite false) doc)).
Proof.
  induction doc as [|n r IH]; simpl; [constructor|].
  apply List.Forall_app. split; [|exact IH].
  eapply List.Forall_impl; [|apply markdownRewrite_no_markdown_tag].
  intros [t a|s]; [|trivial]. intros Hm Hin.
  change (existsb (Str.eqb (Str.toLowerCase t)) MARKDOWN_TAGS = false) in Hm.
  assert (Ht : existsb (Str.eqb (Str.toLowerCase t)) MARKDOWN_TAGS = true).
  { apply existsb_exists. exists (Str.toLowerCase t).
    split; [exact Hin | apply string_eqb_refl]. }
  congruence.
Qed.

(** X16.  The markdown rewriter leaves a tree with no such element as it
    is, so running it on its own result changes nothing. *)
Theorem X16_markdown_idempotent (doc : document) :
  (List.Forall no_markdown_tag (atomsDoc doc) -> map (markdownRewrite false) doc = doc)
  /\ map (markdownRewrite false) (map (markdownRewrite false) doc)
     = map (markdownRewrite false) doc.
Proof.
  split.
  - induction doc as [|n r IH]; simpl; [reflexivity|]. intros H.
    apply List.Forall_app in H as [H1 H2].
    rewrite (markdownRewrite_nothing_to_do false n H1), (IH H2). reflexivity.
  - rewrite map_map. apply map_ext_Forall, List.Forall_forall. intros n _.
    apply markdownRewrite_nothing_to_do, markdownRewrite_no_markdown_tag.
Qed.

Lemma X16_witness :
  map (markdownRewrite false) [Element "p" ∅ [Text "Body"]; Text "tail"]
  = [Element "p" ∅ [Text "Body"]; Text "tail"].
Proof.
  apply (proj1 (X16_markdown_idempotent [Element "p" ∅ [Text "Body"]; Text "tail"])).
  repeat constructor.
Defined.

Lemma split_nl_nonempty (s : string) : split_nl s <> [].
Proof.
  induction s as [|c r IH]; simpl; [discriminate|].
  destruct (c =? 10)%N; [discriminate|].
  destruct (split_nl r); discriminate.
Qed.

Lemma split_nl_lines_nl_free (s : string) : forallb nl_free (split_nl s) = true.
Proof.
  induction s as [|c r IH]; simpl; [reflexivity|].
  destruct (c =? 10)%N eqn:E; [exact IH|].
  destruct (split_nl r) as [|x xs]; simpl in *; [rewrite E; reflexivity|].
  rewrite E. exact IH.
Qed.

Lemma split_nl_line (x y : string) :
  nl_free x = true -> split_nl (x +:+ nl +:+ y) = x :: split_nl y.
Proof.
  induction x as [|c r IH]; simpl; [reflexivity|].
  intros H. apply andb_prop in H as [Hc Hr]. apply negb_true_iff in Hc.
  rewrite Hc. change (r +:+ String 10%N y) with (r +:+ nl +:+ y).
  rewrite (IH Hr). reflexivity.
Qed.

Lemma split_nl_last (x : string) : nl_free x = true -> split_nl x = [x].
Proof.
  induction x as [|c r IH]; simpl; [reflexivity|].
  intros H. apply andb_prop in H as [Hc Hr]. apply negb_true_iff in Hc.
  rewrite Hc, (IH Hr). reflexivity.
Qed.

Lemma split_nl_concat (ls : list string) :
  ls <> [] -> forallb nl_free ls = true -> split_nl (Str.concat nl ls) = ls.
Proof.
  induction ls as [|x r IH]; [congruence|]. intros _ H.
  simpl in H. apply andb_prop in H as [Hx Hr].
  destruct r as [|y r']; simpl.
  - apply split_nl_last, Hx.
  - change (split_nl (x +:+ nl +:+ Str.concat nl (y :: r')) = x :: y :: r').
    rewrite (split_nl_line _ _ Hx), IH; [reflexivity | discriminate | exact Hr].
Qed.

Lemma concat_split_nl (s : string) : Str.concat nl (split_nl s) = s.
Proof.
  induction s as [|c r IH]; simpl; [reflexivity|].
  destruct (c =? 10)%N eqn:E.
  - apply N.eqb_eq in E. subst c. pose proof (split_nl_nonempty r) as Hne.
    destruct (split_nl r) as [|x xs]; [congruence|].
    change (Str.concat nl ("" :: x :: xs)) with ("" +:+ nl +:+ Str.concat nl (x :: xs)).
    rewrite IH. reflexivity.
  - pose proof (split_nl_nonempty r) as Hne.
    destruct (split_nl r) as [|x xs]; [congruence|].
    destruct xs as [|y ys]; simpl in *; rewrite <- IH; reflexivity.
Qed.

(** X17.  A [blockquote] becomes one text whose lines are those of the
    trimmed text of the element, in order and in number, each after the
    marker ["> "]; joining the lines of the trimmed text gives it back, so
    nothing of it is lost. *)
Theorem X17_blockquote_line_by_line (b : bool) t a cs :
  Str.toLowerCase t = "blockquote" ->
  let text :=
    Str.trim (Str.concat "" (map getMdTextContent (map (markdownRewrite false) cs))) in
  exists out,
    markdownRewrite b (Element t a cs) = Text out
    /\ split_nl out = map (fun line => "> " +:+ line) (split_nl text)
    /\ Str.concat nl (split_nl text) = text.
Proof.
  intros Ht text. rewrite markdownRewrite_Element, Ht.
  change (Str.eqb "blockquote" "pre") with false.
  eexists. split; [|split].
  - unfold rewriteTag. rewrite Ht. reflexivity.
  - fold text. apply split_nl_concat.
    + pose proof (split_nl_nonempty text). destruct (split_nl text); [congruence|discriminate].
    + pose proof (split_nl_lines_nl_free text) as H.
      induction (split_nl text) as [|x r IH]; [reflexivity|].
      cbn [forallb map] in *. apply andb_prop in H as [Hx Hr].
      change (nl_free ("> " +:+ x)) with (nl_free x). rewrite Hx, (IH Hr). reflexivity.
  - apply concat_split_nl.
Qed.

Lemma X17_witness :
  exists out,
    markdownRewrite false
      (Element "blockquote" ∅ [Text " a"; Element "br" ∅ []; Text "b "]) = Text out
    /\ split_nl out
       = map (fun line => "> " +:+ line)
           (split_nl
              (Str.trim
                 (Str.concat ""
                    (map getMdTextContent
                       (map (markdownRewrite false)
                          [Text " a"; Element "br" ∅ []; Text "b "])))))
    /\ Str.concat nl
         (split_nl
            (Str.trim
               (Str.concat ""
                  (map getMdTextContent
                     (map (markdownRewrite false)
                        [Text " a"; Element "br" ∅ []; Text "b "])))))
       = Str.trim
           (Str.concat ""
              (map getMdTextContent
                 (map (markdownRewrite false)
                    [Text " a"; Element "br" ∅ []; Text "b "]))).
Proof.
  exact (X17_blockquote_line_by_line false "blockquote" ∅
           [Text " a"; Element "br" ∅ []; Text "b "] eq_refl).
Defined.

(** ** Trimming *)

Section trimming.

Lemma string_app_length (x y : string) :
  Str.length (x +:+ y) = (Str.length x + Str.length y)%nat.
Proof.
  induction x as [|c r IH]; [reflexivity|]. rewrite string_app_cons. simpl. rewrite IH.
  reflexivity.
Qed.

Lemma rev_append_app (s acc : string) : Str.rev_append s acc = Str.rev s +:+ acc.
Proof.
  unfold Str.rev. revert acc. induction s as [|c r IH]; intros acc; [reflexivity|].
  cbn [Str.rev_append].
  rewrite (IH (String c acc)), (IH (String c "")), string_app_assoc. reflexivity.
Qed.

Lemma rev_cons (c : N) (r : string) : Str.rev (String c r) = Str.rev r +:+ String c "".
Proof. unfold Str.rev at 1. simpl. apply rev_append_app. Qed.

Lemma rev_snoc (x : string) (c : N) : Str.rev (x +:+ String c "") = String c (Str.rev x).
Proof.
  induction x as [|d r IH]; [reflexivity|].
  rewrite string_app_cons, !rev_cons, IH. reflexivity.
Qed.

Lemma rev_involutive (s : string) : Str.rev (Str.rev s) = s.
Proof.
  induction s as [|c r IH]; [reflexivity|]. rewrite rev_cons, rev_snoc, IH. reflexivity.
Qed.

Lemma trimStart_idempotent (s : string) : Str.trimStart (Str.trimStart s) = Str.trimStart s.
Proof.
  induction s as [|c r IH]; simpl; [reflexivity|].
  destruct (Str.is_space c) eqn:E; [exact IH|]. simpl. rewrite E. reflexivity.
Qed.

Lemma trimStart_snoc (x : string) (c : N) :
  Str.is_space c = false ->
  Str.trimStart (x +:+ String c "") = Str.trimStart x +:+ String c "".
Proof.
  intros Hc. induction x as [|d r IH].
  - change ("" +:+ String c "") with (String c ""). cbn [Str.trimStart]. rewrite Hc.
    reflexivity.
  - rewrite string_app_cons. cbn [Str.trimStart].
    destruct (Str.is_space d); [exact IH | rewrite string_app_cons; reflexivity].
Qed.

Lemma trimEnd_idempotent (s : string) : Str.trimEnd (Str.trimEnd s) = Str.trimEnd s.
Proof. unfold Str.trimEnd. rewrite rev_involutive, trimStart_idempotent. reflexivity. Qed.

Lemma trimEnd_cons (c : N) (r : string) :
  Str.is_space c = false -> Str.trimEnd (String c r) = String c (Str.trimEnd r).
Proof.
  intros Hc. unfold Str.trimEnd. rewrite rev_cons, (trimStart_snoc _ _ Hc), rev_snoc.
  reflexivity.
Qed.

(** A trimmed text has no white space at either end: trimming it again, and
    so either end alone, changes nothing. *)
Lemma trim_idempotent (s : string) : Str.trim (Str.trim s) = Str.trim s.
Proof.
  unfold Str.trim.
  destruct (Str.trimStart s) as [|c r] eqn:E; [reflexivity|].
  assert (Hc : Str.is_space c = false).
  { clear -E. induction s as [|d s IH]; simpl in E; [discriminate|].
    destruct (Str.is_space d) eqn:Ed; [exact (IH E)|]. injection E as <- _. exact Ed. }
  rewrite (trimEnd_cons c r Hc). cbn [Str.trimStart]. rewrite Hc.
  rewrite <- (trimEnd_cons c r Hc). apply trimEnd_idempotent.
Qed.

End trimming.

(** ** The frontmatter *)

Lemma unescape_escape_yaml (s : string) : unescape_yaml (escape_yaml s) = s.
Proof.
  induction s as [|c r IH]; [reflexivity|]. cbn [escape_yaml].
  destruct ((c =? 92)%N || (c =? 34)%N) eqn:E.
  - cbn [unescape_yaml]. change (92 =? 92)%N with true.
    cbv iota. rewrite IH. reflexivity.
  - apply orb_false_elim in E as [E _]. cbn [unescape_yaml]. rewrite E, IH. reflexivity.
Qed.

Lemma drop_last_snoc (s : string) (c : N) : drop_last (s +:+ String c "") = s.
Proof.
  induction s as [|d r IH]; [reflexivity|].
  rewrite string_app_cons. cbn [drop_last]. rewrite IH. destruct r; reflexivity.
Qed.

(** X18.  [yamlEscape] loses nothing: undoing the backslash escapes
    between the double quotes it puts, or taking the text as it is when it
    puts none, gives the value back.  A value it leaves plain holds none of
    the characters that make it quote, the double quote among them. *)
Theorem X18_yamlEscape_reads_back (value : string) :
  yamlDecode (yamlEscape value) = value
  /\ ((yamlEscape value = value /\ Str.includes DQUOTE value = false)
      \/ (yamlEscape value = DQUOTE +:+ escape_yaml value +:+ DQUOTE
          /\ yamlEscape value <> value)).
Proof.
  unfold yamlEscape.
  destruct (existsb (fun p => Str.includes p value) _) eqn:E.
  - split; [|right; split; [reflexivity|]].
    + unfold DQUOTE. rewrite string_app_cons. cbn [yamlDecode].
      change (34 =? 34)%N with true. cbv iota.
      change ("" +:+ escape_yaml value +:+ String 34%N "")
        with (escape_yaml value +:+ String 34%N "").
      rewrite drop_last_snoc. apply unescape_escape_yaml.
    + intros H. clear E.
      assert (Hl : Str.length (DQUOTE +:+ escape_yaml value +:+ DQUOTE)
                   = Str.length value) by (rewrite H; reflexivity).
      assert (Hge : forall s, (Str.length s <= Str.length (escape_yaml s))%nat).
      { induction s as [|c r IH]; simpl; [lia|].
        destruct (_ || _); simpl; lia. }
      rewrite !string_app_length in Hl. pose proof (Hge value). simpl in Hl. lia.
  - assert (Hq : Str.includes DQUOTE value = false).
    { cbn [existsb] in E. repeat (apply orb_false_elim in E as [?E0 E]). assumption. }
    split; [|left; split; [reflexivity | exact Hq]].
    destruct value as [|c r]; [reflexivity|]. cbn [yamlDecode].
    destruct (c =? 34)%N eqn:Ec; [|reflexivity].
    exfalso. apply N.eqb_eq in Ec. subst c. cbn [Str.includes Str.startsWith DQUOTE] in Hq.
    rewrite N.eqb_refl in Hq. discriminate.
Qed.

Lemma frontmatter_line_empty (key : string) (o : option string) :
  frontmatter_line key o = [] <-> unset_or_empty o = true.
Proof.
  unfold frontmatter_line, unset_or_empty.
  destruct o as [v|]; [|split; reflexivity].
  destruct (Str.truthy v); split; discriminate || reflexivity.
Qed.

(** X19.  [buildFrontmatter] gives the empty text exactly when none of the
    four fields holds a text that is not empty; otherwise the block starts
    with a line of three dashes and ends with one. *)
Theorem X19_frontmatter_block_or_nothing (data : FrontmatterData) :
  (buildFrontmatter data = ""
   <-> unset_or_empty (fm_title data) = true
       /\ unset_or_empty (fm_description data) = true
       /\ unset_or_empty (fm_url data) = true
       /\ unset_or_empty (fm_image data) = true)
  /\ (buildFrontmatter data = ""
      \/ exists lines,
          buildFrontmatter data = "---" +:+ nl +:+ lines +:+ nl +:+ "---").
Proof.
  unfold buildFrontmatter. cbv zeta.
  rewrite <- (frontmatter_line_empty "title" (fm_title data)),
    <- (frontmatter_line_empty "description" (fm_description data)),
    <- (frontmatter_line_empty "url" (fm_url data)),
    <- (frontmatter_line_empty "image" (fm_image data)).
  destruct (frontmatter_line "title" (fm_title data)) as [|l1 r1];
    destruct (frontmatter_line "description" (fm_description data)) as [|l2 r2];
    destruct (frontmatter_line "url" (fm_url data)) as [|l3 r3];
    destruct (frontmatter_line "image" (fm_image data)) as [|l4 r4];
    cbn [app];
    (split;
     [ split; [ try discriminate; tauto | intros (H1 & H2 & H3 & H4); try discriminate; reflexivity ]
     | first [ left; reflexivity | right; eexists; reflexivity ] ]).
Qed.

Lemma first_trimmed_trimmed (key v field : string) (ms : list node) (x : string) :
  first_trimmed key v field ms = Some x -> Str.trim x = x.
Proof.
  unfold first_trimmed. destruct (find _ ms); [|discriminate].
  intros [= <-]. apply trim_idempotent.
Qed.

(** X20.  What the frontmatter extractor returns is trimmed: no field has
    white space at either end, and the title, unlike the others, is never
    the empty text.  Without a [head] element nothing is extracted, whatever
    [title] or [meta] elements the tree holds elsewhere, and no block is
    written. *)
Theorem X20_frontmatter_fields_trimmed (doc : document) :
  (forall x, fm_title (extractFrontmatter doc) = Some x -> Str.trim x = x /\ x <> "")
  /\ (forall x, fm_description (extractFrontmatter doc) = Some x -> Str.trim x = x)
  /\ (forall x, fm_url (extractFrontmatter doc) = Some x -> Str.trim x = x)
  /\ (forall x, fm_image (extractFrontmatter doc) = Some x -> Str.trim x = x)
  /\ (findElementDoc "head" doc = None ->
      extractFrontmatter doc = empty_frontmatter /\ wwwaxe_frontmatter doc = "").
Proof.
  unfold wwwaxe_frontmatter, extractFrontmatter.
  destruct (findElementDoc "head" doc) as [head|];
    [|repeat split; try discriminate; reflexivity].
  cbv zeta. cbn [fm_title fm_description fm_url fm_image].
  split; [|split; [|split; [|split]]].
  - intros x. destruct (findElement "title" head); [|discriminate].
    destruct (Str.truthy (Str.trim (textContent n))) eqn:E; [|discriminate].
    intros [= <-]. split; [apply trim_idempotent|]. intros H. rewrite H in E. discriminate.
  - intros x. apply first_trimmed_trimmed.
  - intros x.
    destruct (unset_or_empty (first_trimmed "rel" "canonical" "href" _)).
    + destruct (first_trimmed "property" "og:url" "content" _) eqn:E.
      * intros [= <-]. exact (first_trimmed_trimmed _ _ _ _ _ E).
      * apply first_trimmed_trimmed.
    + apply first_trimmed_trimmed.
  - intros x. apply first_trimmed_trimmed.
  - discriminate.
Qed.

Lemma X20_witness :
  Str.trim "Part 1: The Beginning" = "Part 1: The Beginning"
  /\ "Part 1: The Beginning" <> "".
Proof.
  apply (proj1 (X20_frontmatter_fields_trimmed sample_page)). vm_compute. reflexivity.
Defined.



(** ** The serialized text *)

Section serialized.

Lemma newline_run_cons (c : N) (r : string) :
  newline_run (String c r) = if is_newline c then S (newline_run r) else 0%nat.
Proof. reflexivity. Qed.

Lemma collapseNewlines_cons (c : N) (r : string) :
  collapseNewlines 0 (String c r)
  = if (3 <=? newline_run (String c r))%nat
    then String 10%N (collapseNewlines (newline_run (String c r) - 1) r)
    else String c (collapseNewlines 0 r).
Proof. reflexivity. Qed.

Lemma collapseNewlines_skip (k : nat) (s : string) :
  collapseNewlines k s = collapseNewlines 0 (drop_chars k s).
Proof.
  revert k. induction s as [|c r IH]; intros [|k]; try reflexivity.
  cbn [collapseNewlines drop_chars]. apply IH.
Qed.

Lemma newline_run_drop (s : string) : newline_run (drop_chars (newline_run s) s) = 0%nat.
Proof.
  induction s as [|c r IH]; [reflexivity|]. rewrite newline_run_cons.
  destruct (is_newline c) eqn:E.
  - cbn [drop_chars]. exact IH.
  - cbn [drop_chars]. rewrite newline_run_cons, E. reflexivity.
Qed.

Lemma drop_chars_length (k : nat) (s : string) :
  (Str.length (drop_chars k s) <= Str.length s)%nat.
Proof.
  revert k. induction s as [|c r IH]; intros [|k]; cbn [drop_chars]; try lia.
  specialize (IH k). simpl. lia.
Qed.

Lemma startsWith_cons (a b : N) (p s : string) :
  Str.startsWith (String a p) (String b s) = (a =? b)%N && Str.startsWith p s.
Proof. reflexivity. Qed.

Lemma startsWith_nl3 (o : string) : Str.startsWith nl3 o = (3 <=? newline_run o)%nat.
Proof.
  unfold nl3, nl.
  change (String 10%N "" +:+ String 10%N ""
          +:+ String 10%N "")
    with (String 10%N (String 10%N (String 10%N ""))).
  destruct o as [|a o]; [reflexivity|]. rewrite startsWith_cons, newline_run_cons.
  fold (is_newline a). destruct (is_newline a); [|reflexivity].
  destruct o as [|b o]; [reflexivity|]. rewrite startsWith_cons, newline_run_cons.
  fold (is_newline b). destruct (is_newline b); [|reflexivity].
  destruct o as [|c o]; [reflexivity|]. rewrite startsWith_cons, newline_run_cons.
  fold (is_newline c). destruct (is_newline c); reflexivity.
Qed.

Lemma includes_cons (p : string) (c : N) (r : string) :
  Str.includes p (String c r) = Str.startsWith p (String c r) || Str.includes p r.
Proof. reflexivity. Qed.

(** After the pass no three line feeds stand in a row, and the text starts
    with as many line feeds as before, or with one where it had three or
    more. *)
Lemma collapseNewlines_runs (n : nat) (s : string) :
  (Str.length s <= n)%nat ->
  Str.includes nl3 (collapseNewlines 0 s) = false
  /\ newline_run (collapseNewlines 0 s)
     = if (3 <=? newline_run s)%nat then 1%nat else newline_run s.
Proof.
  revert s. induction n as [|n IH]; intros s Hn.
  - destruct s; [|simpl in Hn; lia]. split; reflexivity.
  - destruct s as [|c r]; [split; reflexivity|].
    assert (Hr : (Str.length r <= n)%nat) by (simpl in Hn; lia).
    rewrite collapseNewlines_cons.
    destruct (3 <=? newline_run (String c r))%nat eqn:E3.
    + rewrite newline_run_cons in *.
      destruct (is_newline c) eqn:Ec; [|discriminate].
      replace (S (newline_run r) - 1)%nat with (newline_run r) by lia.
      rewrite collapseNewlines_skip.
      pose proof (newline_run_drop r) as H0.
      destruct (IH (drop_chars (newline_run r) r)) as [Hi Hrun].
      { pose proof (drop_chars_length (newline_run r) r). lia. }
      rewrite H0 in Hrun. change (3 <=? 0)%nat with false in Hrun. cbv iota in Hrun.
      assert (Hone : newline_run (String 10%N
                        (collapseNewlines 0 (drop_chars (newline_run r) r))) = 1%nat).
      { rewrite newline_run_cons, Hrun. reflexivity. }
      split; [|exact Hone].
      rewrite includes_cons, startsWith_nl3, Hone, Hi. reflexivity.
    + destruct (IH r Hr) as [Hi Hrun].
      assert (Hsame : newline_run (String c (collapseNewlines 0 r))
                      = newline_run (String c r)).
      { rewrite !newline_run_cons in *. destruct (is_newline c); [|reflexivity].
        rewrite Hrun. apply Nat.leb_gt in E3.
        destruct (3 <=? newline_run r)%nat eqn:E; [apply Nat.leb_le in E; lia | reflexivity]. }
      split; [|exact Hsame].
      rewrite includes_cons, startsWith_nl3, Hsame, E3, Hi. reflexivity.
Qed.

Lemma startsWith_app (p x w : string) :
  Str.startsWith p x = true -> Str.startsWith p (x +:+ w) = true.
Proof.
  revert x. induction p as [|a p IH]; intros x H; [reflexivity|].
  destruct x as [|b x]; [discriminate|].
  rewrite string_app_cons, startsWith_cons in *.
  apply andb_prop in H as [-> H]. exact (IH x H).
Qed.

Lemma includes_app (p x w : string) :
  Str.includes p (x +:+ w) = false -> Str.includes p x = false.
Proof.
  induction x as [|c r IH].
  - destruct p as [|a p]; [destruct w; discriminate | reflexivity].
  - rewrite string_app_cons, !includes_cons. intros H.
    apply orb_false_elim in H as [Hs Hi]. rewrite (IH Hi), orb_false_r.
    destruct (Str.startsWith p (String c r)) eqn:E; [|reflexivity].
    apply (startsWith_app _ _ w) in E. rewrite string_app_cons in E. congruence.
Qed.

Lemma includes_trimStart (p s : string) :
  Str.includes p s = false -> Str.includes p (Str.trimStart s) = false.
Proof.
  induction s as [|c r IH]; [trivial|]. cbn [Str.trimStart].
  destruct (Str.is_space c); [|trivial].
  rewrite includes_cons. intros H. apply orb_false_elim in H as [_ H]. exact (IH H).
Qed.

Lemma trimStart_app (x y : string) :
  Str.trimStart (x +:+ y)
  = if Str.all_space x then Str.trimStart y else Str.trimStart x +:+ y.
Proof.
  induction x as [|c r IH]; [reflexivity|].
  rewrite string_app_cons. cbn [Str.trimStart Str.all_space].
  destruct (Str.is_space c); [exact IH | rewrite string_app_cons; reflexivity].
Qed.

(** [trimEnd] keeps a prefix. *)
Lemma trimEnd_prefix (s : string) : exists w, s = Str.trimEnd s +:+ w.
Proof.
  induction s as [|c r [w IH]]; [exists ""; reflexivity|].
  unfold Str.trimEnd. rewrite rev_cons, trimStart_app.
  destruct (Str.all_space (Str.rev r)).
  - cbn [Str.trimStart]. destruct (Str.is_space c).
    + exists (String c r). reflexivity.
    + exists r. reflexivity.
  - rewrite rev_snoc. fold (Str.trimEnd r). exists w.
    rewrite string_app_cons, <- IH. reflexivity.
Qed.

Lemma includes_trim (p s : string) :
  Str.includes p s = false -> Str.includes p (Str.trim s) = false.
Proof.
  intros H. unfold Str.trim. apply includes_trimStart in H.
  destruct (trimEnd_prefix (Str.trimStart s)) as [w Hw].
  rewrite Hw in H. exact (includes_app _ _ _ H).
Qed.

(** X22.  The text [wwwaxe] returns is the frontmatter block, when there is
    one, on lines of its own before a body; the body has no white space at
    either end and nowhere three line feeds in a row, whatever the
    serializer returned. *)
Theorem X22_output_body_trimmed_no_blank_runs
    (parseDocument : string -> document) (render : document -> string)
    (options : WwwaxeOptions) (html : string) :
  exists body,
    Str.trim body = body
    /\ Str.includes nl3 body = false
    /\ wwwaxe parseDocument render options html
       = (if Str.truthy (wwwaxe_frontmatter (parseDocument html))
          then wwwaxe_frontmatter (parseDocument html) +:+ nl +:+ body
          else body).
Proof.
  exists (postprocess (not_false (markdown options))
            (render (wwwaxe_tree options (parseDocument html)))).
  split; [|split; [|reflexivity]].
  - apply trim_idempotent.
  - unfold postprocess. cbv zeta. apply includes_trim.
    exact (proj1 (collapseNewlines_runs _ _ (le_n _))).
Qed.
















End serialized.

(** ** The tree passes on their own result *)

(** X24.  With markdown off and [core] not set, on a page of the usual
    shape in whose result no [link] element is left, the passes over the
    tree change nothing when they run again on their own result.  A [link]
    kept for its [rel] in the [head] goes with the [head] and does not
    stand in the way.  The input is a tree of the parser, in which a [link]
    element has no children. *)
Theorem X24_tree_passes_idempotent (options : WwwaxeOptions) (doc : document) :
  markdown options = Some false ->
  flag (core options) = false ->
  links_void doc = true ->
  page_shaped doc = true ->
  forallb (lacks "link") (wwwaxe_tree options doc) = true ->
  wwwaxe_tree options (wwwaxe_tree options doc) = wwwaxe_tree options doc.
Proof.
  intros Hm Hc Hv Hp Hlink.
  destruct (first_tree_fixed options doc Hm Hc Hv Hp Hlink) as [HT Hhtml].
  rewrite (fixed_tree_tidied options _ Hm Hc HT Hhtml).
  rewrite (wwwaxe_tree_markup options doc Hm Hc), map_map.
  apply map_ext_Forall, List.Forall_forall. intros n _.
  rewrite mapText_mapText. apply mapText_ext, tidyText_idempotent.
Qed.

Lemma X24_witness :
  wwwaxe_tree markup_options (wwwaxe_tree markup_options usual_page)
  = wwwaxe_tree markup_options usual_page.
Proof.
  apply (X24_tree_passes_idempotent markup_options usual_page);
    first [reflexivity | vm_compute; reflexivity].
Defined.
